(** * Domain configuration of the chrome extension (common/domains)

    A shallow embedding of the domain-configuration module
    (validateDomain, normalizeDomain, domainToUrlPatterns, getAllUrlPatterns,
    saveDomainConfig, loadDomainConfig, addCustomDomain, removeCustomDomain),
    of [matchesCustomDomain] from background.ts and of the two handlers of
    the options page (domains.vue), followed by the properties of the
    specification that were checked against them.

    Modelling conventions.
    - A JavaScript string is a [string]; each [ascii] stands for the code
      unit with the same number (0..255), so the strings covered are those
      whose code units are below 256.
    - Asynchronous functions are run to completion: an [await] is a
      sequencing point of the monad [M]; a rejected promise is [Throw].
    - The browser is an explicit [World] (the synchronised storage slot under
      STORAGE_KEY, the origins granted so far) together with the one
      module-level object the code mutates, DEFAULT_DOMAIN_CONFIG.  What the
      browser answers to a call (a failing read, a failing write, a refused
      or failing permission prompt) is chosen by an [Env].
    - console.error / console.debug output is not modelled. *)

From Stdlib Require Import Bool Arith List Ascii String NArith ZArith Lia.
Import ListNotations.
Local Open Scope string_scope.
Local Open Scope list_scope.
Local Open Scope bool_scope.

(* ------------------------------------------------------------------ *)
(** ** JavaScript string primitives used by the module *)

Module JSString.

Definition code (c : ascii) : N := N_of_ascii c.

Definition in_range (lo hi : N) (c : ascii) : bool :=
  (lo <=? code c)%N && (code c <=? hi)%N.

(** WhiteSpace and LineTerminator code units below 256:
    TAB, LF, VT, FF, CR, SP and NBSP. *)
Definition isWhiteSpace (c : ascii) : bool :=
  in_range 9 13 c || (code c =? 32)%N || (code c =? 160)%N.

(** Lower-casing of one code unit below 256: A-Z, and the Latin-1
    capitals U+00C0..U+00DE except the multiplication sign U+00D7. *)
Definition lowerChar (c : ascii) : ascii :=
  if in_range 65 90 c
     || (in_range 192 222 c && negb (code c =? 215)%N)
  then ascii_of_N (code c + 32)
  else c.

Fixpoint toLowerCase (s : string) : string :=
  match s with
  | EmptyString => EmptyString
  | String c s' => String (lowerChar c) (toLowerCase s')
  end.

Fixpoint trimStart (s : string) : string :=
  match s with
  | EmptyString => EmptyString
  | String c s' => if isWhiteSpace c then trimStart s' else s
  end.

Fixpoint trimEnd (s : string) : string :=
  match s with
  | EmptyString => EmptyString
  | String c s' =>
      match trimEnd s' with
      | EmptyString => if isWhiteSpace c then EmptyString
                       else String c EmptyString
      | t => String c t
      end
  end.

Definition trim (s : string) : string := trimEnd (trimStart s).

(** [s.includes(sub)] *)
Fixpoint includes (s sub : string) : bool :=
  prefix sub s
  || match s with
     | EmptyString => false
     | String _ s' => includes s' sub
     end.

(** [s.endsWith(suffix)]: the last [length suffix] code units of [s]
    are compared with [suffix]; false when [s] is shorter. *)
Definition endsWith (s suffix : string) : bool :=
  Nat.leb (String.length suffix) (String.length s)
  && String.eqb (substring (String.length s - String.length suffix)
                           (String.length suffix) s)
                suffix.

(** Truthiness of a string: the empty string is the only falsy one. *)
Definition truthy (s : string) : bool :=
  match s with EmptyString => false | _ => true end.

(** A string that does not begin with white space. *)
Definition starts_clean (s : string) : Prop :=
  match s with
  | EmptyString => True
  | String c _ => isWhiteSpace c = false
  end.

End JSString.

(* ------------------------------------------------------------------ *)
(** ** Regular expressions (the fragment domainRegex is written in) *)

Module Regex.

(** An item of a bracket class: a range [lo-hi] or one literal. *)
Inductive item : Type :=
| Range (lo hi : ascii)
| Lit (c : ascii).

Inductive regex : Type :=
| Void                          (* matches nothing *)
| Eps                           (* matches the empty string *)
| Class (items : list item)     (* [...] ; a literal is a one-item class *)
| Cat (r1 r2 : regex)
| Alt (r1 r2 : regex)
| Star (r : regex).

Definition Opt (r : regex) : regex := Alt r Eps.          (* r?    *)
Definition AtLeast2 (r : regex) : regex :=                (* r{2,} *)
  Cat r (Cat r (Star r)).

Definition item_has (c : ascii) (i : item) : bool :=
  match i with
  | Range lo hi => JSString.in_range (N_of_ascii lo) (N_of_ascii hi) c
  | Lit d => Ascii.eqb c d
  end.

Definition class_has (items : list item) (c : ascii) : bool :=
  existsb (item_has c) items.

(** Denotation: the set of strings of a regular expression. *)
Inductive Matches : regex -> string -> Prop :=
| MEps : Matches Eps ""
| MClass items c :
    class_has items c = true -> Matches (Class items) (String c "")
| MCat r1 r2 s1 s2 :
    Matches r1 s1 -> Matches r2 s2 -> Matches (Cat r1 r2) (s1 ++ s2)
| MAltL r1 r2 s : Matches r1 s -> Matches (Alt r1 r2) s
| MAltR r1 r2 s : Matches r2 s -> Matches (Alt r1 r2) s
| MStarNil r : Matches (Star r) ""
| MStarCons r s1 s2 :
    Matches r s1 -> Matches (Star r) s2 -> Matches (Star r) (s1 ++ s2).

Fixpoint nullable (r : regex) : bool :=
  match r with
  | Void => false
  | Eps => true
  | Class _ => false
  | Cat r1 r2 => nullable r1 && nullable r2
  | Alt r1 r2 => nullable r1 || nullable r2
  | Star _ => true
  end.

(** Constructors that prune [Void] and [Eps] so that derivatives stay
    small. *)
Definition cat (r1 r2 : regex) : regex :=
  match r1, r2 with
  | Void, _ => Void
  | _, Void => Void
  | Eps, _ => r2
  | _, Eps => r1
  | _, _ => Cat r1 r2
  end.

Definition alt (r1 r2 : regex) : regex :=
  match r1, r2 with
  | Void, _ => r2
  | _, Void => r1
  | _, _ => Alt r1 r2
  end.

Fixpoint deriv (c : ascii) (r : regex) : regex :=
  match r with
  | Void => Void
  | Eps => Void
  | Class items => if class_has items c then Eps else Void
  | Cat r1 r2 =>
      alt (cat (deriv c r1) r2)
          (if nullable r1 then deriv c r2 else Void)
  | Alt r1 r2 => alt (deriv c r1) (deriv c r2)
  | Star r1 => cat (deriv c r1) (Star r1)
  end.

(** Whole-string match, which is what [^...$] together with [test]
    asks for (no flags, so the anchors are the ends of the input). *)
Fixpoint test (r : regex) (s : string) : bool :=
  match s with
  | EmptyString => nullable r
  | String c s' => test (deriv c r) s'
  end.

End Regex.

(* ------------------------------------------------------------------ *)
(** ** The pure part of common/domains *)

Import JSString.

Definition DEFAULT_DOMAINS : list string :=
  [ "feishu.cn";
    "feishu.net";
    "larksuite.com";
    "feishu-pre.net";
    "larkoffice.com";
    "larkenterprise.com" ].

Definition STORAGE_KEY : string := "customDomains".

Module DomainRegex.
Import Regex.

Definition alnum : regex :=                       (* [a-zA-Z0-9]  *)
  Class [Range "a" "z"; Range "A" "Z"; Range "0" "9"].
Definition alnumdash : regex :=                   (* [a-zA-Z0-9-] *)
  Class [Range "a" "z"; Range "A" "Z"; Range "0" "9"; Lit "-"].
Definition alpha : regex :=                       (* [a-zA-Z]     *)
  Class [Range "a" "z"; Range "A" "Z"].
Definition dot : regex := Class [Lit "."].        (* \.           *)

(** [[a-zA-Z0-9]([a-zA-Z0-9-]*[a-zA-Z0-9])?] *)
Definition label : regex :=
  Cat alnum (Opt (Cat (Star alnumdash) alnum)).

(** [/^[a-zA-Z0-9]([a-zA-Z0-9-]*[a-zA-Z0-9])?(\.[a-zA-Z0-9]([a-zA-Z0-9-]*[a-zA-Z0-9])?)*\.[a-zA-Z]{2,}$/] *)
Definition domainRegex : regex :=
  Cat label (Cat (Star (Cat dot label)) (Cat dot (AtLeast2 alpha))).
End DomainRegex.

Definition validateDomain (domain : string) : bool :=
  let trimmed := trim domain in
  if negb (truthy trimmed) || includes trimmed "://" || includes trimmed "/"
  then false
  else Regex.test DomainRegex.domainRegex trimmed.

Definition normalizeDomain (domain : string) : string :=
  toLowerCase (trim domain).

Definition domainToUrlPatterns (domain : string) : list string :=
  [ ("https://" ++ domain ++ "/*")%string;
    ("https://*." ++ domain ++ "/*")%string ].

(** [customDomains] is an optional parameter whose default is [[]]. *)
Definition getAllUrlPatterns (customDomains : option (list string))
  : list string :=
  let customDomains :=
    match customDomains with Some l => l | None => [] end in
  let defaultPatterns := flat_map domainToUrlPatterns DEFAULT_DOMAINS in
  let customPatterns := flat_map domainToUrlPatterns customDomains in
  defaultPatterns ++ customPatterns.

(* ------------------------------------------------------------------ *)
(** ** Values held by chrome.storage *)

(** What the storage can hold under a key: JSON-like values. *)
#[local] Set Warnings "-register-all".
Inductive JSValue : Type :=
| JNull
| JBool (b : bool)
| JNum (n : Z)
| JStr (s : string)
| JArr (elems : list JSValue)
| JObj (fields : list (string * JSValue)).

Inductive Exn : Type :=
| StorageError        (* chrome.storage.sync.get / set rejected *)
| PermissionError     (* chrome.permissions.request rejected *)
| TypeError.          (* property access or call on a value without it *)

Inductive Result (A : Type) : Type :=
| Ok (a : A)
| Throw (x : Exn).
Arguments Ok {A} a.
Arguments Throw {A} x.

Module JS.

(** [!v] is [negb (truthy v)]; [None] is [undefined]. *)
Definition truthy (v : option JSValue) : bool :=
  match v with
  | None | Some JNull | Some (JBool false) | Some (JNum 0%Z)
  | Some (JStr EmptyString) => false
  | Some _ => true
  end.

Fixpoint assoc (k : string) (fields : list (string * JSValue))
  : option JSValue :=
  match fields with
  | [] => None
  | (k', v) :: rest => if String.eqb k k' then Some v else assoc k rest
  end.

(** [v.name] on a truthy stored value: only an object has own
    properties of that kind; everything else answers [undefined]. *)
Definition prop (v : JSValue) (name : string) : option JSValue :=
  match v with
  | JObj fields => assoc name fields
  | _ => None
  end.

(** [a.filter(f)] where [f] starts with [x.trim()]: the receiver must be
    an array and every element a string, anything else is a TypeError
    (a stored value never holds a function). *)
Fixpoint strings_of (elems : list JSValue) : Result (list string) :=
  match elems with
  | [] => Ok []
  | JStr s :: rest =>
      match strings_of rest with
      | Ok l => Ok (s :: l)
      | Throw x => Throw x
      end
  | _ :: _ => Throw TypeError
  end.

Definition filter_strings (f : string -> bool) (a : option JSValue)
  : Result (list string) :=
  match a with
  | Some (JArr elems) =>
      match strings_of elems with
      | Ok l => Ok (filter f l)
      | Throw x => Throw x
      end
  | _ => Throw TypeError
  end.

(** [a.includes(x)] on an array of strings. *)
Definition array_includes (a : list string) (x : string) : bool :=
  existsb (String.eqb x) a.

(** [a.indexOf(x)]: the first index holding [x], or -1. *)
Fixpoint indexOf (a : list string) (x : string) : Z :=
  match a with
  | [] => (-1)%Z
  | y :: rest =>
      if String.eqb y x then 0%Z
      else let i := indexOf rest x in
           if (i =? -1)%Z then (-1)%Z else (i + 1)%Z
  end.

(** [a.splice(index, 1)] for [0 <= index]: the array without the
    element at [index] (unchanged when [index] is past the end). *)
Definition splice1 (a : list string) (index : Z) : list string :=
  firstn (Z.to_nat index) a ++ skipn (S (Z.to_nat index)) a.

End JS.

(* ------------------------------------------------------------------ *)
(** ** The browser, the module state and the monad of async code *)

Record World : Type := mkWorld {
  (** the module-level object DEFAULT_DOMAIN_CONFIG, given by the contents
      of its only field, the array [customDomains]; the module keeps this
      one object for its whole life *)
  DEFAULT_DOMAIN_CONFIG : list string;
  (** chrome.storage.sync at STORAGE_KEY; [None] when the key is absent *)
  sync_storage : option JSValue;
  (** origins granted through chrome.permissions.request *)
  granted_origins : list string
}.

Inductive Event : Type :=
| StorageGet (key : string)
| StorageSet (key : string) (value : JSValue)
| PermissionsRequest (origins : list string).

Inductive PermissionAnswer : Type :=
| Granted           (* resolves to true *)
| Denied            (* resolves to false *)
| RequestFails.     (* rejects, e.g. called without a user gesture *)

(** How the browser answers during one operation. *)
Record Env : Type := mkEnv {
  storage_get_fails : bool;
  storage_set_fails : bool;
  permission_answer : PermissionAnswer
}.

(** An asynchronous computation over a state [S]: from a state to a
    result or a thrown exception, the state afterwards, and the browser
    calls it made.  The state is the [World] for the module's functions. *)
Definition M (S A : Type) : Type := S -> Result A * S * list Event.

Definition Async (A : Type) : Type := M World A.

Definition ret {S A} (a : A) : M S A := fun w => (Ok a, w, []).

Definition throw {S A} (x : Exn) : M S A := fun w => (Throw x, w, []).

Definition bind {S A B} (m : M S A) (k : A -> M S B) : M S B :=
  fun w =>
    match m w with
    | (Ok a, w1, ev1) =>
        match k a w1 with
        | (r, w2, ev2) => (r, w2, ev1 ++ ev2)
        end
    | (Throw x, w1, ev1) => (Throw x, w1, ev1)
    end.

(** [try { m } catch (error) { h error }] *)
Definition try_catch {S A} (m : M S A) (h : Exn -> M S A) : M S A :=
  fun w =>
    match m w with
    | (Ok a, w1, ev1) => (Ok a, w1, ev1)
    | (Throw x, w1, ev1) =>
        match h x w1 with
        | (r, w2, ev2) => (r, w2, ev1 ++ ev2)
        end
    end.

(** [try { m } finally { f }] where [f] does not throw or return. *)
Definition finally {S A} (m : M S A) (f : M S unit) : M S A :=
  fun w =>
    match m w with
    | (r, w1, ev1) =>
        match f w1 with
        | (_, w2, ev2) => (r, w2, ev1 ++ ev2)
        end
    end.

Definition lift {S A} (r : Result A) : M S A := fun w => (r, w, []).

Declare Scope async_scope.
Delimit Scope async_scope with async.
Notation "x <- m ;; k" := (bind m (fun x => k))
  (at level 100, m at next level, right associativity) : async_scope.
Notation "m ;;; k" := (bind m (fun _ => k))
  (at level 100, right associativity) : async_scope.
Local Open Scope async_scope.

Section Browser.

Variable e : Env.

(** [await chrome.storage.sync.get(key)], projected at [key]. *)
Definition chrome_storage_sync_get (key : string) : Async (option JSValue) :=
  fun w =>
    if storage_get_fails e
    then (Throw StorageError, w, [StorageGet key])
    else (Ok (sync_storage w), w, [StorageGet key]).

(** [await chrome.storage.sync.set({ [key]: value })]: a rejected write
    leaves the stored value as it was. *)
Definition chrome_storage_sync_set (key : string) (value : JSValue)
  : Async unit :=
  fun w =>
    if storage_set_fails e
    then (Throw StorageError, w, [StorageSet key value])
    else (Ok tt,
          mkWorld (DEFAULT_DOMAIN_CONFIG w) (Some value)
                  (granted_origins w),
          [StorageSet key value]).

(** [await chrome.permissions.request({ origins })] *)
Definition chrome_permissions_request (origins : list string)
  : Async bool :=
  fun w =>
    match permission_answer e with
    | Granted =>
        (Ok true,
         mkWorld (DEFAULT_DOMAIN_CONFIG w) (sync_storage w)
                 (granted_origins w ++ origins),
         [PermissionsRequest origins])
    | Denied => (Ok false, w, [PermissionsRequest origins])
    | RequestFails =>
        (Throw PermissionError, w, [PermissionsRequest origins])
    end.

End Browser.

(* ------------------------------------------------------------------ *)
(** ** The effectful part of common/domains *)

(** A reference to a DomainConfig object.  [TheDefault] is the
    module-level DEFAULT_DOMAIN_CONFIG, whose array lives in the [World];
    an object built by an object literal is referenced by nobody else
    than the variable that holds it and is carried with its contents. *)
Inductive DomainConfig : Type :=
| TheDefault
| Fresh (customDomains : list string).

(** The result of add and remove: [{ success, message }]. *)
Record OpResult : Type := mkResult {
  success : bool;
  message : string
}.

(** [config.customDomains], read *)
Definition customDomains (config : DomainConfig)
  : Async (list string) :=
  fun w =>
    match config with
    | TheDefault => (Ok (DEFAULT_DOMAIN_CONFIG w), w, [])
    | Fresh l => (Ok l, w, [])
    end.

(** [config.customDomains.push(x)]: mutates the array of the object
    [config] refers to. *)
Definition customDomains_push (config : DomainConfig) (x : string)
  : Async DomainConfig :=
  fun w =>
    match config with
    | TheDefault =>
        (Ok TheDefault,
         mkWorld (DEFAULT_DOMAIN_CONFIG w ++ [x]) (sync_storage w)
                 (granted_origins w),
         [])
    | Fresh l => (Ok (Fresh (l ++ [x])), w, [])
    end.

(** [config.customDomains.splice(index, 1)], in place as well. *)
Definition customDomains_splice1 (config : DomainConfig) (index : Z)
  : Async DomainConfig :=
  fun w =>
    match config with
    | TheDefault =>
        (Ok TheDefault,
         mkWorld (JS.splice1 (DEFAULT_DOMAIN_CONFIG w) index)
                 (sync_storage w) (granted_origins w),
         [])
    | Fresh l => (Ok (Fresh (JS.splice1 l index)), w, [])
    end.

(** The stored form of [{ customDomains: l }]. *)
Definition serialize (l : list string) : JSValue :=
  JObj [("customDomains", JArr (map JStr l))].

Section Domains.

Variable e : Env.

Definition saveDomainConfig (config : DomainConfig) : Async unit :=
  l <- customDomains config ;;
  chrome_storage_sync_set e STORAGE_KEY (serialize l).

Definition loadDomainConfig : Async DomainConfig :=
  try_catch
    (config <- chrome_storage_sync_get e STORAGE_KEY ;;
     if negb (JS.truthy config) then ret TheDefault
     else
       match config with
       | None => ret TheDefault
       | Some config =>
           validDomains <-
             lift (JS.filter_strings validateDomain
                     (JS.prop config "customDomains")) ;;
           ret (Fresh validDomains)
       end)
    (fun _ => ret TheDefault).

Definition addCustomDomain (domain : string) : Async OpResult :=
  let normalized := normalizeDomain domain in
  if negb (validateDomain normalized) then
    ret (mkResult false "invalid_domain_format")
  else if JS.array_includes DEFAULT_DOMAINS normalized then
    ret (mkResult false "domain_already_builtin")
  else
    config <- loadDomainConfig ;;
    current <- customDomains config ;;
    if JS.array_includes current normalized then
      ret (mkResult false "domain_already_exists")
    else
      let urlPatterns := domainToUrlPatterns normalized in
      granted <- chrome_permissions_request e urlPatterns ;;
      if negb granted then
        ret (mkResult false "permission_denied")
      else
        config <- customDomains_push config normalized ;;
        saveDomainConfig config ;;;
        ret (mkResult true "domain_added").

Definition removeCustomDomain (domain : string) : Async OpResult :=
  let normalized := normalizeDomain domain in
  config <- loadDomainConfig ;;
  current <- customDomains config ;;
  let index := JS.indexOf current normalized in
  if (index =? -1)%Z then
    ret (mkResult false "domain_not_found")
  else
    config <- customDomains_splice1 config index ;;
    saveDomainConfig config ;;;
    ret (mkResult true "domain_removed").

End Domains.

(** The module as first loaded in a context whose storage holds
    [stored]: DEFAULT_DOMAIN_CONFIG is [{ customDomains: [] }]. *)
Definition initial_world (stored : option JSValue) : World :=
  mkWorld [] stored [].

Definition all_ok (p : PermissionAnswer) : Env := mkEnv false false p.

(* ------------------------------------------------------------------ *)
(** ** background.ts: which navigated URLs get the content script *)

Section Background.

Variable e : Env.

(** [new URL(url).hostname] is the platform's URL parser: [None] when
    the constructor throws. *)
Variable URL_hostname : string -> option string.

Definition getSharedDocumentUrlPatterns : Async (list string) :=
  config <- loadDomainConfig e ;;
  current <- customDomains config ;;
  ret (getAllUrlPatterns (Some current)).

Definition matchesCustomDomain (url : string) : Async bool :=
  config <- loadDomainConfig e ;;
  current <- customDomains config ;;
  if (List.length current =? 0)%nat then ret false
  else
    try_catch
      (match URL_hostname url with
       | None => throw TypeError
       | Some hostname =>
           ret (existsb
                  (fun domain =>
                     String.eqb hostname domain
                     || endsWith hostname ("." ++ domain))
                  current)
       end)
      (fun _ => ret false).

End Background.

(* ------------------------------------------------------------------ *)
(** ** domains.vue: the handlers of the options page *)

(** The refs of the component.  [customDomains_value] holds the array it
    was last assigned, by reference.  The timer that clears the success
    banner after three seconds is left out. *)
Record Page : Type := mkPage {
  customDomains_value : DomainConfig;
  newDomain_value : string;
  loading_value : bool;
  error_value : option string;
  success_value : option string
}.

Definition UI (A : Type) : Type := M (Page * World) A.

Definition in_world {A} (m : Async A) : UI A :=
  fun pw =>
    match m (snd pw) with
    | (r, w', ev) => (r, (fst pw, w'), ev)
    end.

Definition page_update (f : Page -> Page) : UI unit :=
  fun pw => (Ok tt, (f (fst pw), snd pw), []).

Definition page_read {A} (f : Page -> A) : UI A :=
  fun pw => (Ok (f (fst pw)), pw, []).

Definition set_customDomains (c : DomainConfig) : UI unit :=
  page_update (fun p => mkPage c (newDomain_value p) (loading_value p)
                               (error_value p) (success_value p)).
Definition set_newDomain (s : string) : UI unit :=
  page_update (fun p => mkPage (customDomains_value p) s (loading_value p)
                               (error_value p) (success_value p)).
Definition set_loading (b : bool) : UI unit :=
  page_update (fun p => mkPage (customDomains_value p) (newDomain_value p) b
                               (error_value p) (success_value p)).
Definition set_error (x : option string) : UI unit :=
  page_update (fun p => mkPage (customDomains_value p) (newDomain_value p)
                               (loading_value p) x (success_value p)).
Definition set_success (x : option string) : UI unit :=
  page_update (fun p => mkPage (customDomains_value p) (newDomain_value p)
                               (loading_value p) (error_value p) x).

Section OptionsPage.

(** the answers of the browser during the add or remove, and during the
    reload of the list that follows a success *)
Variables e e_reload : Env.

(** the translation function of vue-i18n *)
Variable t : string -> string.

Definition loadDomains (e' : Env) : UI unit :=
  try_catch
    (config <- in_world (loadDomainConfig e') ;;
     set_customDomains config)
    (fun _ => ret tt).

Definition handleAddDomain : UI unit :=
  newDomain <- page_read newDomain_value ;;
  if negb (truthy (trim newDomain)) then
    set_error (Some (t "domains.error.empty"))
  else if negb (validateDomain newDomain) then
    set_error (Some (t "domains.error.invalid_format"))
  else
    set_loading true ;;;
    set_error None ;;;
    set_success None ;;;
    finally
      (try_catch
         (newDomain <- page_read newDomain_value ;;
          result <- in_world (addCustomDomain e newDomain) ;;
          if success result then
            set_success (Some (t "domains.success.added")) ;;;
            set_newDomain "" ;;;
            loadDomains e_reload
          else
            set_error (Some (t ("domains.error." ++ message result))))
         (fun _ => set_error (Some (t "domains.error.unknown"))))
      (set_loading false).

Definition handleRemoveDomain (domain : string) : UI unit :=
  set_loading true ;;;
  set_error None ;;;
  set_success None ;;;
  finally
    (try_catch
       (result <- in_world (removeCustomDomain e domain) ;;
        if success result then
          set_success (Some (t "domains.success.removed")) ;;;
          loadDomains e_reload
        else
          set_error (Some (t ("domains.error." ++ message result))))
       (fun _ => set_error (Some (t "domains.error.unknown"))))
    (set_loading false).

End OptionsPage.

(* ------------------------------------------------------------------ *)
(** ** Scripts of operations and the invariants of the data model *)

Inductive Op : Type :=
| Add (domain : string)
| Remove (domain : string).

Definition run_op (e : Env) (op : Op) : Async OpResult :=
  match op with
  | Add domain => addCustomDomain e domain
  | Remove domain => removeCustomDomain e domain
  end.

Definition world_after {A} (m : Async A) (w : World) : World :=
  snd (fst (m w)).

Definition result_of {A} (m : Async A) (w : World) : Result A :=
  fst (fst (m w)).

Definition events_of {A} (m : Async A) (w : World) : list Event :=
  snd (m w).

(** The options page performing a series of add and remove requests, each
    under its own answers of the browser. *)
Fixpoint run_ops (script : list (Env * Op)) (w : World) : World :=
  match script with
  | [] => w
  | (e, op) :: rest => run_ops rest (world_after (run_op e op) w)
  end.

(** What [load()] shows: the contents of the config it returns. *)
Definition loaded_view (e : Env) (w : World) : Result (list string) :=
  result_of (config <- loadDomainConfig e ;; customDomains config) w.

Definition is_write (ev : Event) : bool :=
  match ev with StorageSet _ _ => true | _ => false end.

Definition is_request (ev : Event) : bool :=
  match ev with PermissionsRequest _ => true | _ => false end.

(** The three invariants of a custom-domain list: every entry normalized
    and valid, none equal to a built-in domain whatever the case of the
    letters, no entry twice. *)
Definition entry_ok (d : string) : Prop :=
  normalizeDomain d = d /\ validateDomain d = true.

Definition not_builtin (d : string) : Prop :=
  forall b, In b DEFAULT_DOMAINS -> toLowerCase d <> toLowerCase b.

Definition config_ok (l : list string) : Prop :=
  Forall entry_ok l /\ Forall not_builtin l /\ NoDup l.

(** A persisted state that satisfies them: no key yet, or the stored
    form of such a list. *)
Definition persisted_ok (stored : option JSValue) : Prop :=
  stored = None \/ exists l, stored = Some (serialize l) /\ config_ok l.

(** What holds of the module in every state it can reach: the array of
    its default object and the persisted state both satisfy them. *)
Definition world_ok (w : World) : Prop :=
  config_ok (DEFAULT_DOMAIN_CONFIG w) /\ persisted_ok (sync_storage w).

(** A stand-in for the URL parser on which examples are run: it knows
    [https://host] and [https://host/path] only. *)
Definition sample_URL_hostname (url : string) : option string :=
  if prefix "https://" url then
    let rest := substring 8 (String.length url - 8) url in
    match index 0 "/" rest with
    | Some i => Some (substring 0 i rest)
    | None => Some rest
    end
  else None.

(* ------------------------------------------------------------------ *)
(** ** addCustomDomain cut at its await of the permission request *)

(** addCustomDomain awaits three promises: the load, the answer to
    chrome.permissions.request and the save.  The [includes] check on
    the loaded list and the [push] into it lie on either side of the
    second await, which lasts until the browser has the user's answer;
    other calls of the module run in the meantime.  The definitions
    below are the browser call split into the request and its answer,
    and addCustomDomain up to that await and from it on. *)

(** [chrome.permissions.request({ origins })] is called: the request is
    with the browser. *)
Definition chrome_permissions_request_call (origins : list string)
  : Async unit :=
  fun w => (Ok tt, w, [PermissionsRequest origins]).

(** The promise it returned settles. *)
Definition chrome_permissions_request_settle (e : Env)
  (origins : list string) : Async bool :=
  fun w =>
    match permission_answer e with
    | Granted =>
        (Ok true,
         mkWorld (DEFAULT_DOMAIN_CONFIG w) (sync_storage w)
                 (granted_origins w ++ origins),
         [])
    | Denied => (Ok false, w, [])
    | RequestFails => (Throw PermissionError, w, [])
    end.

(** Where a call of addCustomDomain stands when it reaches that await,
    if it does: it has returned, or it holds the config object it loaded
    and the normalized domain, and waits. *)
Inductive PendingAdd : Type :=
| Returned (r : OpResult)
| AwaitingPermission (config : DomainConfig) (normalized : string).

Definition addCustomDomain_until_request (e : Env) (domain : string)
  : Async PendingAdd :=
  let normalized := normalizeDomain domain in
  if negb (validateDomain normalized) then
    ret (Returned (mkResult false "invalid_domain_format"))
  else if JS.array_includes DEFAULT_DOMAINS normalized then
    ret (Returned (mkResult false "domain_already_builtin"))
  else
    config <- loadDomainConfig e ;;
    current <- customDomains config ;;
    if JS.array_includes current normalized then
      ret (Returned (mkResult false "domain_already_exists"))
    else
      let urlPatterns := domainToUrlPatterns normalized in
      chrome_permissions_request_call urlPatterns ;;;
      ret (AwaitingPermission config normalized).

Definition addCustomDomain_after_request (e : Env) (p : PendingAdd)
  : Async OpResult :=
  match p with
  | Returned r => ret r
  | AwaitingPermission config normalized =>
      granted <- chrome_permissions_request_settle e
                   (domainToUrlPatterns normalized) ;;
      if negb granted then
        ret (mkResult false "permission_denied")
      else
        config <- customDomains_push config normalized ;;
        saveDomainConfig e config ;;;
        ret (mkResult true "domain_added")
  end.

(** A promise run until it settles: fulfilled with a value or rejected
    with an exception, which stays in the promise. *)
Definition settled {S A} (m : M S A) : M S (Result A) :=
  fun w =>
    match m w with
    | (r, w1, ev) => (Ok r, w1, ev)
    end.

(** Two calls of addCustomDomain in one context, the second made while
    the first waits for the answer to its permission request: both reach
    the await, then the first request is answered and the first call runs
    to its end, then the second. *)
Definition overlapping_adds (eA eB : Env) (domainA domainB : string)
  : Async (Result OpResult * Result OpResult) :=
  pA <- addCustomDomain_until_request eA domainA ;;
  pB <- addCustomDomain_until_request eB domainB ;;
  rA <- settled (addCustomDomain_after_request eA pA) ;;
  rB <- settled (addCustomDomain_after_request eB pB) ;;
  ret (rA, rB).

(* ------------------------------------------------------------------ *)
(** ** Predicates on the bracket classes of an expression *)

(** [P] holds of every bracket class that occurs in [r]. *)
Fixpoint classes_satisfy (P : list Regex.item -> Prop) (r : Regex.regex)
  : Prop :=
  match r with
  | Regex.Class items => P items
  | Regex.Cat r1 r2 | Regex.Alt r1 r2 =>
      classes_satisfy P r1 /\ classes_satisfy P r2
  | Regex.Star r1 => classes_satisfy P r1
  | Regex.Void | Regex.Eps => True
  end.

(** A class that holds a code unit exactly when it holds its lower-case
    form. *)
Definition case_blind (items : list Regex.item) : Prop :=
  forall c, Regex.class_has items (lowerChar c) = Regex.class_has items c.

(** The code units a host name is written with: ASCII letters, digits,
    the hyphen and the dot. *)
Definition isHostChar (c : ascii) : bool :=
  Regex.class_has
    [ Regex.Range "a" "z"; Regex.Range "A" "Z"; Regex.Range "0" "9";
      Regex.Lit "-"; Regex.Lit "." ] c.

Definition isLetter (c : ascii) : bool :=
  Regex.class_has [ Regex.Range "a" "z"; Regex.Range "A" "Z" ] c.

Definition isAlnum (c : ascii) : bool :=
  Regex.class_has
    [ Regex.Range "a" "z"; Regex.Range "A" "Z"; Regex.Range "0" "9" ] c.

Definition within (p : ascii -> bool) (items : list Regex.item) : Prop :=
  forall c, Regex.class_has items c = true -> p c = true.

Fixpoint all_chars (p : ascii -> bool) (s : string) : bool :=
  match s with
  | EmptyString => true
  | String c s' => p c && all_chars p s'
  end.

(** A code unit that only itself lower-cases to. *)
Definition case_fixed (a : ascii) : Prop :=
  forall c, lowerChar c = a <-> c = a.

(* ------------------------------------------------------------------ *)
(** ** pages/shared/i18n.ts: the message catalog *)

(** The messages of the locale en-US, key and text. *)
Definition messages_en_US : list (string * string) :=
  [ ("general",
     "General");
    ("save",
     "Save");
    ("settings",
     "Settings");
    ("home",
     "Home");
    ("download",
     "Download");
    ("language.en-US",
     "English (American)");
    ("language.zh-CN",
     "Chinese (simplified)");
    ("general.language",
     "Language");
    ("general.language.placeholder",
     "Select language");
    ("general.theme",
     "Theme");
    ("general.theme.placeholder",
     "Select theme");
    ("general.theme.light",
     "Light");
    ("general.theme.dark",
     "Dark");
    ("general.theme.system",
     "System");
    ("download.method",
     "Download Method");
    ("download.method.placeholder",
     "Select download method");
    ("download.method.direct",
     "Direct Download");
    ("download.method.showSaveFilePicker",
     "Show Save File Picker");
    ("download.method.direct.description",
     "How browsers treat downloads varies by browser, user settings, and other factors.The user may be prompted before a download starts, or the file may be saved automatically, or it may open automatically, either in an external application or in the browser itself.");
    ("download.method.showSaveFilePicker.description",
     "Shows a file picker that allows a user to save a file. Either by selecting an existing file, or entering a name for a new file.");
    ("lark.docx.download",
     "Download as Markdown");
    ("lark.docx.copy",
     "Copy as Markdown");
    ("lark.docx.view",
     "View as Markdown");
    ("help.and.feedback",
     "Help and Feedback");
    ("domains",
     "Domains");
    ("domains.description",
     "Manage custom domains for Lark/Feishu enterprise deployments");
    ("domains.builtin",
     "Built-in Domains");
    ("domains.builtin.count",
     "domains");
    ("domains.custom",
     "Custom Domains");
    ("domains.custom.count",
     "domains");
    ("domains.placeholder",
     "e.g., custom.feishu-enterprise.com");
    ("domains.add",
     "Add");
    ("domains.add.title",
     "Add Domain");
    ("domains.add.description",
     "Enter a custom domain to enable the extension");
    ("domains.empty",
     "No custom domains added yet");
    ("domains.help.title",
     "How to add a custom domain:");
    ("domains.help.format",
     "Enter domain without protocol (https://) or path (/)");
    ("domains.help.example",
     "Example: custom.feishu-enterprise.com");
    ("domains.help.permission",
     "You will be prompted to grant permissions for the domain");
    ("domains.error.empty",
     "Please enter a domain");
    ("domains.error.invalid_format",
     "Invalid domain format");
    ("domains.error.domain_already_builtin",
     "This domain is already built-in");
    ("domains.error.domain_already_exists",
     "This domain already exists");
    ("domains.error.permission_denied",
     "Permission denied");
    ("domains.error.domain_not_found",
     "Domain not found");
    ("domains.error.unknown",
     "An unknown error occurred");
    ("domains.success.added",
     "Domain added successfully");
    ("domains.success.removed",
     "Domain removed successfully") ].

(** The keys of the locale zh-CN; the texts are written with code units
    above 255 and are left out. *)
Definition messages_zh_CN_keys : list string :=
  [ "general";
    "save";
    "settings";
    "home";
    "download";
    "language.en-US";
    "language.zh-CN";
    "general.language";
    "general.language.placeholder";
    "general.theme";
    "general.theme.placeholder";
    "general.theme.light";
    "general.theme.dark";
    "general.theme.system";
    "download.method";
    "download.method.placeholder";
    "download.method.direct";
    "download.method.showSaveFilePicker";
    "download.method.direct.description";
    "download.method.showSaveFilePicker.description";
    "lark.docx.download";
    "lark.docx.copy";
    "lark.docx.view";
    "help.and.feedback";
    "domains";
    "domains.description";
    "domains.builtin";
    "domains.builtin.count";
    "domains.custom";
    "domains.custom.count";
    "domains.placeholder";
    "domains.add";
    "domains.add.title";
    "domains.add.description";
    "domains.empty";
    "domains.help.title";
    "domains.help.format";
    "domains.help.example";
    "domains.help.permission";
    "domains.error.empty";
    "domains.error.invalid_format";
    "domains.error.domain_already_builtin";
    "domains.error.domain_already_exists";
    "domains.error.permission_denied";
    "domains.error.domain_not_found";
    "domains.error.unknown";
    "domains.success.added";
    "domains.success.removed" ].

(* ------------------------------------------------------------------ *)
(** ** Reading off what a handler of the options page leaves *)

Definition page_after {A} (m : UI A) (p : Page) (w : World) : Page :=
  fst (snd (fst (m (p, w)))).

Definition ui_world_after {A} (m : UI A) (p : Page) (w : World) : World :=
  snd (snd (fst (m (p, w)))).

Definition ui_events_of {A} (m : UI A) (p : Page) (w : World)
  : list Event :=
  snd (m (p, w)).

(** A key that both locales of the catalog define. *)
Definition in_catalog (key : string) : Prop :=
  In key (map fst messages_en_US) /\ In key messages_zh_CN_keys.

(** The list a page shows: the array its ref points to. *)
Definition shown_domains (p : Page) (w : World) : list string :=
  match customDomains_value p with
  | TheDefault => DEFAULT_DOMAIN_CONFIG w
  | Fresh l => l
  end.

(* ------------------------------------------------------------------ *)
(** ** common/domains: the listener of onDomainConfigChange *)

(** A [chrome.storage.StorageChange]. *)
Record StorageChange : Type := mkChange {
  oldValue : option JSValue;
  newValue : option JSValue
}.

(** What the callback is handed: the module's default object, or the
    new value as it comes, cast to a config without any check. *)
Inductive NewConfig : Type :=
| DefaultConfig
| StoredConfig (v : JSValue).

(** [key in changes] and [changes[key]] on the record of changes. *)
Fixpoint change_of (key : string) (changes : list (string * StorageChange))
  : option StorageChange :=
  match changes with
  | [] => None
  | (k, c) :: rest => if String.eqb key k then Some c else change_of key rest
  end.

(** The body of [listener]: [Some c] when the callback is called, with
    [c]; [None] when it is not.  [x ?? d] takes [d] for [undefined] and
    for [null] only. *)
Definition domainConfigListener
  (changes : list (string * StorageChange)) (areaName : string)
  : option NewConfig :=
  match change_of STORAGE_KEY changes with
  | Some change =>
      if String.eqb areaName "sync" then
        Some (match newValue change with
              | None | Some JNull => DefaultConfig
              | Some v => StoredConfig v
              end)
      else None
  | None => None
  end.

(* ------------------------------------------------------------------ *)
(** ** background.ts: context menus, script injection, listeners *)

Inductive MenuItemId : Type :=
| DOWNLOAD_DOCX_AS_MARKDOWN
| COPY_DOCX_AS_MARKDOWN
| VIEW_DOCX_AS_MARKDOWN.

Definition MenuItemId_value (i : MenuItemId) : string :=
  match i with
  | DOWNLOAD_DOCX_AS_MARKDOWN => "download_docx_as_markdown"
  | COPY_DOCX_AS_MARKDOWN => "copy_docx_as_markdown"
  | VIEW_DOCX_AS_MARKDOWN => "view_docx_as_markdown"
  end.

(** [string | number] *)
Inductive Flag : Type :=
| FlagString (s : string)
| FlagNumber (n : Z).

Record MenuItem : Type := mkMenuItem {
  item_id : string;
  item_title : string;
  item_documentUrlPatterns : list string;
  item_contexts : list string
}.

(** The argument of [chrome.scripting.executeScript]. *)
Record Injection : Type := mkInjection {
  inj_files : list string;
  inj_tabId : Z;
  inj_world : option string
}.

Record Tab : Type := mkTab {
  tab_id : option Z;
  tab_url : option string
}.

(** What the background page adds to the browser: the context menu, and
    the scripts that were run, latest last. *)
Record Background : Type := mkBackground {
  contextMenus : list MenuItem;
  executedScripts : list Injection
}.

Inductive BgExn : Type :=
| ModuleExn (x : Exn)
| ScriptingError.     (* chrome.scripting.executeScript rejected *)

Inductive Outcome (A : Type) : Type :=
| Done (a : A)
| Raised (x : BgExn).
Arguments Done {A} a.
Arguments Raised {A} x.

Definition BG (A : Type) : Type :=
  Background * World -> Outcome A * (Background * World) * list Event.

Definition bg_ret {A} (a : A) : BG A := fun s => (Done a, s, []).

Definition bg_bind {A B} (m : BG A) (k : A -> BG B) : BG B :=
  fun s =>
    match m s with
    | (Done a, s1, ev1) =>
        match k a s1 with
        | (r, s2, ev2) => (r, s2, ev1 ++ ev2)
        end
    | (Raised x, s1, ev1) => (Raised x, s1, ev1)
    end.

(** [m.catch(console.error)] and [try { m } catch { }] *)
Definition bg_catch (m : BG unit) : BG unit :=
  fun s =>
    match m s with
    | (Done a, s1, ev1) => (Done a, s1, ev1)
    | (Raised _, s1, ev1) => (Done tt, s1, ev1)
    end.

Definition bg_of_async {A} (m : Async A) : BG A :=
  fun s =>
    match m (snd s) with
    | (Ok a, w', ev) => (Done a, (fst s, w'), ev)
    | (Throw x, w', ev) => (Raised (ModuleExn x), (fst s, w'), ev)
    end.

Declare Scope bg_scope.
Delimit Scope bg_scope with bg.
Notation "x <~ m ;; k" := (bg_bind m (fun x => k))
  (at level 100, m at next level, right associativity) : bg_scope.
Notation "m ;;~ k" := (bg_bind m (fun _ => k))
  (at level 100, right associativity) : bg_scope.

Section BackgroundPage.

Local Open Scope bg_scope.

Variable e : Env.

(** the platform's URL parser, as for [matchesCustomDomain] *)
Variable URL_hostname : string -> option string.

(** [chrome.i18n.getMessage] *)
Variable getMessage : string -> string.

(** which injections the browser rejects *)
Variable executeScript_fails : Injection -> bool.

(** [await chrome.contextMenus.removeAll()] *)
Definition chrome_contextMenus_removeAll : BG unit :=
  fun s => (Done tt, (mkBackground [] (executedScripts (fst s)), snd s), []).

(** [chrome.contextMenus.create(item)]: an id that is already taken is
    reported through runtime.lastError and nothing is created. *)
Definition chrome_contextMenus_create (item : MenuItem) : BG unit :=
  fun s =>
    if existsb (fun i => String.eqb (item_id i) (item_id item))
               (contextMenus (fst s))
    then (Done tt, s, [])
    else (Done tt,
          (mkBackground (contextMenus (fst s) ++ [item])
                        (executedScripts (fst s)), snd s),
          []).

(** [await chrome.scripting.executeScript(injection)] *)
Definition chrome_scripting_executeScript (inj : Injection) : BG unit :=
  fun s =>
    if executeScript_fails inj then (Raised ScriptingError, s, [])
    else (Done tt,
          (mkBackground (contextMenus (fst s))
                        (executedScripts (fst s) ++ [inj]), snd s),
          []).

Definition setupContextMenus : BG unit :=
  urlPatterns <~ bg_of_async (getSharedDocumentUrlPatterns e) ;;
  chrome_contextMenus_removeAll ;;~
  chrome_contextMenus_create
    (mkMenuItem (MenuItemId_value DOWNLOAD_DOCX_AS_MARKDOWN)
                (getMessage "download_docx_as_markdown")
                urlPatterns ["page"; "editable"]) ;;~
  chrome_contextMenus_create
    (mkMenuItem (MenuItemId_value COPY_DOCX_AS_MARKDOWN)
                (getMessage "copy_docx_as_markdown")
                urlPatterns ["page"; "editable"]) ;;~
  chrome_contextMenus_create
    (mkMenuItem (MenuItemId_value VIEW_DOCX_AS_MARKDOWN)
                (getMessage "view_docx_as_markdown")
                urlPatterns ["page"; "editable"]).

(** The listener of chrome.runtime.onInstalled. *)
Definition onInstalled : BG unit := bg_catch setupContextMenus.

(** The listener that [onDomainConfigChange] registers for the callback
    of background.ts, which ignores the config it is handed. *)
Definition onStorageChanged
  (changes : list (string * StorageChange)) (areaName : string) : BG unit :=
  match domainConfigListener changes areaName with
  | Some _ => bg_catch setupContextMenus
  | None => bg_ret tt
  end.

Definition injectContentScript (tabId : Z) : BG unit :=
  bg_catch
    (chrome_scripting_executeScript
       (mkInjection ["bundles/content.js"] tabId None)).

(** The listener of chrome.tabs.onUpdated, its asynchronous part run to
    completion. *)
Definition onTabUpdated
  (tabId : Z) (changeInfo_status : option string) (tab : Tab) : BG unit :=
  match changeInfo_status, tab_url tab with
  | Some status, Some url =>
      if negb (String.eqb status "complete") || negb (truthy url)
      then bg_ret tt
      else
        isCustomDomain <~
          bg_of_async (matchesCustomDomain e URL_hostname url) ;;
        if isCustomDomain then injectContentScript tabId else bg_ret tt
  | _, _ => bg_ret tt
  end.

Definition executeScriptByFlag (flag : Flag) (tabId : Z) : BG unit :=
  match flag with
  | FlagString s =>
      if String.eqb s (MenuItemId_value DOWNLOAD_DOCX_AS_MARKDOWN) then
        chrome_scripting_executeScript
          (mkInjection ["bundles/scripts/download-lark-docx-as-markdown.js"]
                       tabId (Some "MAIN"))
      else if String.eqb s (MenuItemId_value COPY_DOCX_AS_MARKDOWN) then
        chrome_scripting_executeScript
          (mkInjection ["bundles/scripts/copy-lark-docx-as-markdown.js"]
                       tabId (Some "MAIN"))
      else if String.eqb s (MenuItemId_value VIEW_DOCX_AS_MARKDOWN) then
        chrome_scripting_executeScript
          (mkInjection ["bundles/scripts/view-lark-docx-as-markdown.js"]
                       tabId (Some "MAIN"))
      else bg_ret tt
  | FlagNumber _ => bg_ret tt
  end.

(** The listener of chrome.contextMenus.onClicked. *)
Definition onMenuClicked (menuItemId : Flag) (tab : option Tab) : BG unit :=
  match tab with
  | Some (mkTab (Some id) _) => bg_catch (executeScriptByFlag menuItemId id)
  | _ => bg_ret tt
  end.

(** The listener of chrome.runtime.onMessage, given the tabs that
    [chrome.tabs.query({ currentWindow: true, active: true })] answers.
    The result tells whether [sendResponse] was called. *)
Definition onMessage (flag : Flag) (activeTabs : list Tab) : BG bool :=
  let executeScript : BG unit :=
    let activeTabId :=
      match activeTabs with
      | [] => None
      | first :: _ => tab_id first
      end in
    match activeTabId with
    | Some id =>
        if (List.length activeTabs =? 1)%nat
        then executeScriptByFlag flag id
        else bg_ret tt
    | None => bg_ret tt
    end in
  fun s =>
    match executeScript s with
    | (Done _, s1, ev1) => (Done true, s1, ev1)
    | (Raised _, s1, ev1) => (Done false, s1, ev1)
    end.

End BackgroundPage.

Definition bg_state_after {A} (m : BG A) (s : Background * World)
  : Background * World :=
  snd (fst (m s)).

Definition bg_outcome {A} (m : BG A) (s : Background * World) : Outcome A :=
  fst (fst (m s)).

Definition bg_events {A} (m : BG A) (s : Background * World) : list Event :=
  snd (m s).

(** The three items that setupContextMenus creates, for given patterns. *)
Definition menu_for (getMessage : string -> string)
  (urlPatterns : list string) (i : MenuItemId) : MenuItem :=
  mkMenuItem (MenuItemId_value i) (getMessage (MenuItemId_value i))
             urlPatterns ["page"; "editable"].

Definition all_MenuItemIds : list MenuItemId :=
  [ DOWNLOAD_DOCX_AS_MARKDOWN; COPY_DOCX_AS_MARKDOWN; VIEW_DOCX_AS_MARKDOWN ].

(** What can happen to the background page: one constructor per listener
    it registers. *)
Inductive BgEvent : Type :=
| Installed
| StorageChanged (changes : list (string * StorageChange))
                 (areaName : string)
| TabUpdated (tabId : Z) (changeInfo_status : option string) (tab : Tab)
| MenuClicked (menuItemId : Flag) (tab : option Tab)
| MessageReceived (flag : Flag) (activeTabs : list Tab).

Section BackgroundEvents.

Variable URL_hostname : string -> option string.
Variable getMessage : string -> string.

(** One listener call, under the answers [e] of the storage and [fails]
    of the scripting API. *)
Definition dispatch (e : Env) (fails : Injection -> bool) (ev : BgEvent)
  : BG unit :=
  match ev with
  | Installed => onInstalled e getMessage
  | StorageChanged changes areaName =>
      onStorageChanged e getMessage changes areaName
  | TabUpdated tabId status tab =>
      onTabUpdated e URL_hostname fails tabId status tab
  | MenuClicked menuItemId tab => onMenuClicked fails menuItemId tab
  | MessageReceived flag activeTabs =>
      bg_bind (onMessage fails flag activeTabs) (fun _ => bg_ret tt)
  end.

Fixpoint run_background
  (script : list (Env * (Injection -> bool) * BgEvent))
  (s : Background * World) : Background * World :=
  match script with
  | [] => s
  | (e, fails, ev) :: rest =>
      run_background rest (bg_state_after (dispatch e fails ev) s)
  end.

End BackgroundEvents.

(** The scripts the background page is written to run: the content
    script in the default world, the three conversion scripts in the
    world MAIN. *)
Definition bundled_injection (inj : Injection) : bool :=
  match inj_files inj, inj_world inj with
  | [f], None => String.eqb f "bundles/content.js"
  | [f], Some world =>
      String.eqb world "MAIN"
      && JS.array_includes
           [ "bundles/scripts/download-lark-docx-as-markdown.js";
             "bundles/scripts/copy-lark-docx-as-markdown.js";
             "bundles/scripts/view-lark-docx-as-markdown.js" ] f
  | _, _ => false
  end.

(** What one listener call may do to the state of the background page:
    nothing to the world; to the menu, nothing or the rebuild into the
    three items; to the executed scripts, nothing or one more bundled
    script. *)
Definition listener_step (s s' : Background * World) : Prop :=
  snd s' = snd s
  /\ (contextMenus (fst s') = contextMenus (fst s)
      \/ map item_id (contextMenus (fst s')) =
           map MenuItemId_value all_MenuItemIds)
  /\ (executedScripts (fst s') = executedScripts (fst s)
      \/ exists inj,
           bundled_injection inj = true
           /\ executedScripts (fst s') = executedScripts (fst s) ++ [inj]).

(** The condition under which a navigated URL is a custom domain's. *)
Definition on_custom_domain (URL_hostname : string -> option string)
  (current : list string) (url : string) : Prop :=
  exists hostname domain,
    URL_hostname url = Some hostname
    /\ In domain current
    /\ (hostname = domain
        \/ exists sub, hostname = (sub ++ "." ++ domain)%string).

(* ================================================================== *)
(** * Properties *)

(* ------------------------------------------------------------------ *)
(** ** The functions on sample inputs *)

Example validate_samples :
  map validateDomain
      [ "feishu.cn"; "  Custom.Feishu-Enterprise.COM "; "localhost";
        "https://a.com"; "a.com/x"; "-a.com"; "a-.com"; "a.c"; "a..com";
        ""; "xfchat.iflytek.com"; "a.b-c.d9.example"; "not a domain";
        "a.c0m" ]
  = [ true; true; false; false; false; false; false; false; false;
      false; true; true; false; false ].
Proof. vm_compute. reflexivity. Qed.

Example normalize_sample :
  normalizeDomain "  Custom.Feishu-Enterprise.COM " =
  "custom.feishu-enterprise.com".
Proof. reflexivity. Qed.

Example add_then_remove :
  let w0 := initial_world (Some (serialize ["a.example.com"])) in
  let '(r1, w1, ev1) := addCustomDomain (all_ok Granted) " B.Example.com " w0 in
  let '(r2, w2, ev2) := removeCustomDomain (all_ok Granted) "a.example.com" w1 in
  r1 = Ok (mkResult true "domain_added") /\
  sync_storage w1 = Some (serialize ["a.example.com"; "b.example.com"]) /\
  r2 = Ok (mkResult true "domain_removed") /\
  sync_storage w2 = Some (serialize ["b.example.com"]) /\
  DEFAULT_DOMAIN_CONFIG w2 = [] /\
  granted_origins w2 =
    ["https://b.example.com/*"; "https://*.b.example.com/*"].
Proof. vm_compute. repeat split. Qed.

(* ------------------------------------------------------------------ *)
(** ** Strings *)

Section StringFacts.

Lemma lowerChar_idem c : lowerChar (lowerChar c) = lowerChar c.
Proof.
  destruct c as [[] [] [] [] [] [] [] []]; vm_compute; reflexivity.
Qed.

Lemma isWhiteSpace_lowerChar c :
  isWhiteSpace (lowerChar c) = isWhiteSpace c.
Proof.
  destruct c as [[] [] [] [] [] [] [] []]; vm_compute; reflexivity.
Qed.

Lemma toLowerCase_idem s : toLowerCase (toLowerCase s) = toLowerCase s.
Proof.
  induction s as [|c s IH]; simpl; [reflexivity|].
  now rewrite lowerChar_idem, IH.
Qed.

Lemma trimStart_toLowerCase s :
  trimStart (toLowerCase s) = toLowerCase (trimStart s).
Proof.
  induction s as [|c s IH]; simpl; [reflexivity|].
  rewrite isWhiteSpace_lowerChar.
  destruct (isWhiteSpace c); [exact IH | reflexivity].
Qed.

Lemma trimEnd_toLowerCase s :
  trimEnd (toLowerCase s) = toLowerCase (trimEnd s).
Proof.
  induction s as [|c s IH]; simpl; [reflexivity|].
  rewrite IH, isWhiteSpace_lowerChar.
  destruct (trimEnd s); simpl; [|reflexivity].
  destruct (isWhiteSpace c); reflexivity.
Qed.

Lemma trim_toLowerCase s : trim (toLowerCase s) = toLowerCase (trim s).
Proof.
  unfold trim. now rewrite trimStart_toLowerCase, trimEnd_toLowerCase.
Qed.

Lemma trimStart_starts_clean s : starts_clean (trimStart s).
Proof.
  induction s as [|c s IH]; simpl; [exact I|].
  destruct (isWhiteSpace c) eqn:E; [exact IH | exact E].
Qed.

Lemma trimStart_clean s : starts_clean s -> trimStart s = s.
Proof.
  destruct s as [|c s]; simpl; [reflexivity|].
  intros ->. reflexivity.
Qed.

Lemma trimEnd_starts_clean s : starts_clean s -> starts_clean (trimEnd s).
Proof.
  destruct s as [|c s]; simpl; [trivial|].
  intros Hc. destruct (trimEnd s); simpl; [|exact Hc].
  rewrite Hc. exact Hc.
Qed.

Lemma trimEnd_idem s : trimEnd (trimEnd s) = trimEnd s.
Proof.
  induction s as [|c s IH]; simpl; [reflexivity|].
  destruct (trimEnd s) as [|c' u] eqn:E.
  - destruct (isWhiteSpace c) eqn:Ec; simpl; [reflexivity|].
    now rewrite Ec.
  - change (trimEnd (String c (String c' u))) with
      (match trimEnd (String c' u) with
       | EmptyString => if isWhiteSpace c then EmptyString
                        else String c EmptyString
       | t => String c t
       end).
    rewrite IH. reflexivity.
Qed.

Lemma trim_idem s : trim (trim s) = trim s.
Proof.
  unfold trim.
  rewrite (trimStart_clean (trimEnd (trimStart s))).
  - apply trimEnd_idem.
  - apply trimEnd_starts_clean, trimStart_starts_clean.
Qed.

(** normalize(normalize(d)) = normalize(d), for every string. *)
Lemma normalizeDomain_idem s :
  normalizeDomain (normalizeDomain s) = normalizeDomain s.
Proof.
  unfold normalizeDomain.
  now rewrite trim_toLowerCase, trim_idem, toLowerCase_idem.
Qed.

Lemma normalizeDomain_lower s :
  toLowerCase (normalizeDomain s) = normalizeDomain s.
Proof. unfold normalizeDomain. apply toLowerCase_idem. Qed.

Lemma length_append (a b : string) :
  String.length (a ++ b) = String.length a + String.length b.
Proof. induction a as [|c a IH]; simpl; [reflexivity | now rewrite IH]. Qed.

Lemma substring_all s : substring 0 (String.length s) s = s.
Proof. induction s as [|c s IH]; simpl; [reflexivity | now rewrite IH]. Qed.

Lemma substring_append_right (a b : string) :
  substring (String.length a) (String.length b) (a ++ b) = b.
Proof.
  induction a as [|c a IH]; simpl; [apply substring_all | exact IH].
Qed.

Lemma prefix_append (a b : string) : prefix a (a ++ b) = true.
Proof.
  induction a as [|c a IH]; simpl.
  - destruct b; reflexivity.
  - destruct (ascii_dec c c) as [_|N]; [exact IH | now elim N].
Qed.

Lemma endsWith_append (a b : string) : endsWith (a ++ b) b = true.
Proof.
  unfold endsWith. rewrite length_append.
  replace (String.length a + String.length b - String.length b)
    with (String.length a) by lia.
  rewrite substring_append_right, String.eqb_refl, andb_true_r.
  apply Nat.leb_le. lia.
Qed.

Lemma array_includes_In a x : JS.array_includes a x = true <-> In x a.
Proof.
  unfold JS.array_includes. rewrite existsb_exists. split.
  - intros (y & Hy & E). apply String.eqb_eq in E. now subst.
  - intros H. exists x. split; [exact H | apply String.eqb_refl].
Qed.

Lemma array_includes_not_In a x :
  JS.array_includes a x = false <-> ~ In x a.
Proof.
  rewrite <- array_includes_In. destruct (JS.array_includes a x); split;
    congruence.
Qed.

End StringFacts.

(* ------------------------------------------------------------------ *)
(** ** The matcher decides the language of the expression *)

Section RegexFacts.

Import Regex.

Lemma append_nil_r (s : string) : (s ++ "")%string = s.
Proof. induction s as [|c s IH]; simpl; [reflexivity | now rewrite IH]. Qed.

Lemma append_eq_nil (s1 s2 : string) :
  (s1 ++ s2)%string = "" -> s1 = "" /\ s2 = "".
Proof. destruct s1; simpl; [auto | discriminate]. Qed.

Lemma Matches_Void s : ~ Matches Void s.
Proof. intros H. inversion H. Qed.

Lemma Matches_Eps s : Matches Eps s -> s = "".
Proof. intros H. now inversion H. Qed.

Lemma Matches_Cat_inv r1 r2 s :
  Matches (Cat r1 r2) s ->
  exists s1 s2, s = (s1 ++ s2)%string /\ Matches r1 s1 /\ Matches r2 s2.
Proof. intros H. inversion H; subst. eauto. Qed.

Lemma Matches_Alt_inv r1 r2 s :
  Matches (Alt r1 r2) s -> Matches r1 s \/ Matches r2 s.
Proof. intros H. inversion H; subst; auto. Qed.

Lemma nullable_Matches r : nullable r = true <-> Matches r "".
Proof.
  split.
  - induction r; simpl; intros H; try discriminate.
    + constructor.
    + apply andb_true_iff in H as [H1 H2].
      apply (MCat r1 r2 "" ""); auto.
    + apply orb_true_iff in H as [H|H];
        [apply MAltL | apply MAltR]; auto.
    + constructor.
  - intros H. remember EmptyString as s eqn:Es.
    induction H; simpl; try reflexivity; try discriminate.
    + apply append_eq_nil in Es as [-> ->].
      now rewrite IHMatches1, IHMatches2.
    + now rewrite IHMatches.
    + rewrite IHMatches by assumption. apply orb_true_r.
Qed.

Lemma Matches_cat r1 r2 s :
  Matches (cat r1 r2) s <-> Matches (Cat r1 r2) s.
Proof.
  split.
  - intros H.
    destruct r1, r2; simpl in H;
      try (now elim (Matches_Void _ H));
      try exact H;
      try (apply (MCat Eps _ "" s); [constructor | exact H]);
      try (rewrite <- (append_nil_r s);
           apply (MCat _ Eps s ""); [exact H | constructor]).
  - intros H. apply Matches_Cat_inv in H as (s1 & s2 & -> & H1 & H2).
    destruct r1, r2; simpl;
      try (now elim (Matches_Void _ H1));
      try (now elim (Matches_Void _ H2));
      try (apply Matches_Eps in H1; subst s1; exact H2);
      try (apply Matches_Eps in H2; subst s2; rewrite append_nil_r; exact H1);
      now constructor.
Qed.

Lemma Matches_alt r1 r2 s :
  Matches (alt r1 r2) s <-> Matches (Alt r1 r2) s.
Proof.
  split.
  - intros H.
    destruct r1, r2; simpl in H;
      try exact H;
      try (now apply MAltR);
      try (now apply MAltL).
  - intros H. apply Matches_Alt_inv in H as [H|H];
      destruct r1, r2; simpl;
        try (now elim (Matches_Void _ H));
        try exact H;
        try (now apply MAltL);
        try (now apply MAltR).
Qed.

Lemma deriv_sound c r s : Matches (deriv c r) s -> Matches r (String c s).
Proof.
  revert s. induction r; intros s H; simpl in H.
  - now elim (Matches_Void _ H).
  - now elim (Matches_Void _ H).
  - destruct (class_has items c) eqn:E; [|now elim (Matches_Void _ H)].
    apply Matches_Eps in H. subst. now constructor.
  - apply Matches_alt, Matches_Alt_inv in H as [H|H].
    + apply Matches_cat, Matches_Cat_inv in H as (s1 & s2 & -> & H1 & H2).
      apply (MCat r1 r2 (String c s1) s2); auto.
    + destruct (nullable r1) eqn:En; [|now elim (Matches_Void _ H)].
      apply (MCat r1 r2 "" (String c s)); [|auto].
      now apply nullable_Matches.
  - apply Matches_alt, Matches_Alt_inv in H as [H|H];
      [apply MAltL | apply MAltR]; auto.
  - apply Matches_cat, Matches_Cat_inv in H as (s1 & s2 & -> & H1 & H2).
    apply (MStarCons r (String c s1) s2); auto.
Qed.

Lemma deriv_complete c r t :
  Matches r t -> forall s, t = String c s -> Matches (deriv c r) s.
Proof.
  induction 1 as [ | items c' Hc | r1 r2 s1 s2 H1 IH1 H2 IH2
                   | r1 r2 s0 H0 IH0 | r1 r2 s0 H0 IH0
                   | r0 | r0 s1 s2 H1 IH1 H2 IH2 ];
    intros s Es; simpl.
  - discriminate.
  - injection Es as -> <-. rewrite Hc. constructor.
  - apply Matches_alt. destruct s1 as [|c1 s1']; simpl in Es.
    + apply MAltR. apply nullable_Matches in H1. rewrite H1. now apply IH2.
    + injection Es as -> <-. apply MAltL. apply Matches_cat.
      constructor; [now apply IH1 | exact H2].
  - apply Matches_alt. apply MAltL. now apply IH0.
  - apply Matches_alt. apply MAltR. now apply IH0.
  - discriminate.
  - destruct s1 as [|c1 s1']; simpl in Es.
    + now apply IH2.
    + injection Es as -> <-. apply Matches_cat.
      constructor; [now apply IH1 | exact H2].
Qed.

(** [test] answers true exactly on the strings of the expression. *)
Lemma test_Matches r s : test r s = true <-> Matches r s.
Proof.
  revert r. induction s as [|c s IH]; intros r; simpl.
  - apply nullable_Matches.
  - rewrite IH. split; [apply deriv_sound|].
    intros H. now apply (deriv_complete c r (String c s)).
Qed.

(** validateDomain in terms of the language of domainRegex. *)
Lemma validateDomain_iff domain :
  validateDomain domain = true
  <-> trim domain <> ""
      /\ includes (trim domain) "://" = false
      /\ includes (trim domain) "/" = false
      /\ Matches DomainRegex.domainRegex (trim domain).
Proof.
  unfold validateDomain. rewrite <- test_Matches.
  destruct (trim domain) as [|c t] eqn:E; cbn [truthy negb orb].
  - split; [discriminate | intros (H & _); now elim H].
  - destruct (includes (String c t) "://"); cbn [orb].
    + split; [discriminate | intros (_ & H & _); discriminate H].
    + destruct (includes (String c t) "/").
      * split; [discriminate | intros (_ & _ & H & _); discriminate H].
      * split; [intros H; repeat split; [discriminate | exact H]
               | intros (_ & _ & _ & H); exact H].
Qed.

End RegexFacts.

(* ------------------------------------------------------------------ *)
(** ** URL patterns *)

(** C7. For every domain the generator answers exactly two patterns, the
    exact-host one [https://d/*] and then the wildcard-subdomain one
    [https://*.d/*]; both use the https scheme and end with the path
    wildcard; for [example.com] they are [https://example.com/*] and
    [https://*.example.com/*]. *)
Theorem domainToUrlPatterns_exact_then_wildcard :
  (forall d,
     domainToUrlPatterns d =
       [ ("https://" ++ d ++ "/*")%string;
         ("https://*." ++ d ++ "/*")%string ]
     /\ List.length (domainToUrlPatterns d) = 2
     /\ nth_error (domainToUrlPatterns d) 0
        = Some ("https://" ++ d ++ "/*")%string
     /\ nth_error (domainToUrlPatterns d) 1
        = Some ("https://*." ++ d ++ "/*")%string
     /\ Forall (fun p => prefix "https://" p = true
                         /\ endsWith p "/*" = true)
               (domainToUrlPatterns d))
  /\ domainToUrlPatterns "example.com" =
       [ "https://example.com/*"; "https://*.example.com/*" ].
Proof.
  split; [|reflexivity].
  intros d. split; [reflexivity|]. split; [reflexivity|].
  split; [reflexivity|]. split; [reflexivity|].
  unfold domainToUrlPatterns.
  apply Forall_cons; [split | apply Forall_cons; [split | apply Forall_nil]].
  - apply (prefix_append "https://").
  - apply (endsWith_append ("https://" ++ d) "/*").
  - apply (prefix_append "https://" ("*." ++ d ++ "/*")).
  - apply (endsWith_append ("https://*." ++ d) "/*").
Qed.

Lemma length_flat_map_patterns l :
  List.length (flat_map domainToUrlPatterns l) = 2 * List.length l.
Proof. induction l as [|d l IH]; simpl; [reflexivity | rewrite IH; lia]. Qed.

Lemma nth_error_flat_map_patterns l j d :
  nth_error l j = Some d ->
  nth_error (flat_map domainToUrlPatterns l) (2 * j)
  = Some ("https://" ++ d ++ "/*")%string
  /\ nth_error (flat_map domainToUrlPatterns l) (2 * j + 1)
     = Some ("https://*." ++ d ++ "/*")%string.
Proof.
  revert j. induction l as [|x l IH]; intros [|j] H; simpl in H;
    try discriminate.
  - injection H as ->. split; reflexivity.
  - destruct (IH j H) as [H1 H2].
    replace (2 * S j) with (S (S (2 * j))) by lia.
    replace (S (S (2 * j)) + 1) with (S (S (2 * j + 1))) by lia.
    split; assumption.
Qed.

(** C6. getAllUrlPatterns answers the patterns of the built-in domains,
    in the order of the built-in list, followed by the patterns of the
    custom domains, in the order of the custom list, and drops nothing:
    the custom domain at index j supplies the entries at 2*6+2*j and the
    next one, and a domain listed twice, or one that is also built in,
    appears again.  With no custom domain (an empty list, or the
    argument left out) the answer is exactly the twelve built-in
    patterns, twice the number of built-in domains. *)
Theorem getAllUrlPatterns_builtin_then_custom :
  (forall customs,
     getAllUrlPatterns (Some customs) =
       flat_map domainToUrlPatterns DEFAULT_DOMAINS
       ++ flat_map domainToUrlPatterns customs
     /\ List.length (getAllUrlPatterns (Some customs)) =
          2 * List.length DEFAULT_DOMAINS + 2 * List.length customs
     /\ (forall i b, nth_error DEFAULT_DOMAINS i = Some b ->
           nth_error (getAllUrlPatterns (Some customs)) (2 * i)
           = Some ("https://" ++ b ++ "/*")%string
           /\ nth_error (getAllUrlPatterns (Some customs)) (2 * i + 1)
              = Some ("https://*." ++ b ++ "/*")%string)
     /\ (forall j d, nth_error customs j = Some d ->
           nth_error (getAllUrlPatterns (Some customs))
                     (2 * List.length DEFAULT_DOMAINS + 2 * j)
           = Some ("https://" ++ d ++ "/*")%string
           /\ nth_error (getAllUrlPatterns (Some customs))
                        (2 * List.length DEFAULT_DOMAINS + 2 * j + 1)
              = Some ("https://*." ++ d ++ "/*")%string))
  /\ getAllUrlPatterns (Some []) =
       flat_map domainToUrlPatterns DEFAULT_DOMAINS
  /\ getAllUrlPatterns None = getAllUrlPatterns (Some [])
  /\ List.length (getAllUrlPatterns (Some [])) =
       2 * List.length DEFAULT_DOMAINS
  /\ getAllUrlPatterns (Some []) =
       [ "https://feishu.cn/*"; "https://*.feishu.cn/*";
         "https://feishu.net/*"; "https://*.feishu.net/*";
         "https://larksuite.com/*"; "https://*.larksuite.com/*";
         "https://feishu-pre.net/*"; "https://*.feishu-pre.net/*";
         "https://larkoffice.com/*"; "https://*.larkoffice.com/*";
         "https://larkenterprise.com/*"; "https://*.larkenterprise.com/*" ]
  /\ getAllUrlPatterns (Some ["a.example.com"; "feishu.cn"; "a.example.com"])
     = getAllUrlPatterns (Some [])
       ++ [ "https://a.example.com/*"; "https://*.a.example.com/*";
            "https://feishu.cn/*"; "https://*.feishu.cn/*";
            "https://a.example.com/*"; "https://*.a.example.com/*" ].
Proof.
  split; [|repeat split].
  intros customs.
  assert (E : getAllUrlPatterns (Some customs) =
              flat_map domainToUrlPatterns DEFAULT_DOMAINS
              ++ flat_map domainToUrlPatterns customs) by reflexivity.
  split; [exact E|]. rewrite E. split; [|split].
  - rewrite length_app, !length_flat_map_patterns. reflexivity.
  - intros i b Hi.
    destruct (nth_error_flat_map_patterns _ _ _ Hi) as [H1 H2].
    assert (Hlt : i < List.length DEFAULT_DOMAINS)
      by (apply nth_error_Some; congruence).
    rewrite !nth_error_app1
      by (rewrite length_flat_map_patterns; lia).
    split; assumption.
  - intros j d Hj.
    destruct (nth_error_flat_map_patterns _ _ _ Hj) as [H1 H2].
    rewrite !nth_error_app2
      by (rewrite length_flat_map_patterns; lia).
    rewrite length_flat_map_patterns.
    replace (2 * List.length DEFAULT_DOMAINS + 2 * j
             - 2 * List.length DEFAULT_DOMAINS) with (2 * j) by lia.
    replace (2 * List.length DEFAULT_DOMAINS + 2 * j + 1
             - 2 * List.length DEFAULT_DOMAINS) with (2 * j + 1) by lia.
    split; assumption.
Qed.

Lemma getAllUrlPatterns_builtin_then_custom_witness :
  nth_error ["a.example.com"; "b.example.com"] 1 = Some "b.example.com"
  /\ nth_error DEFAULT_DOMAINS 2 = Some "larksuite.com"
  /\ nth_error (getAllUrlPatterns (Some ["a.example.com"; "b.example.com"]))
               (2 * List.length DEFAULT_DOMAINS + 2 * 1)
     = Some "https://b.example.com/*"
  /\ nth_error (getAllUrlPatterns (Some ["a.example.com"; "b.example.com"]))
               (2 * 2 + 1)
     = Some "https://*.larksuite.com/*".
Proof.
  destruct getAllUrlPatterns_builtin_then_custom as (H & _).
  destruct (H ["a.example.com"; "b.example.com"]) as (_ & _ & Hb & Hc).
  split; [reflexivity|]. split; [reflexivity|]. split.
  - exact (proj1 (Hc 1 "b.example.com" eq_refl)).
  - exact (proj2 (Hb 2 "larksuite.com" eq_refl)).
Defined.

(* ------------------------------------------------------------------ *)
(** ** loadDomainConfig *)

Lemma strings_of_JStr l : JS.strings_of (map JStr l) = Ok l.
Proof. induction l as [|s l IH]; simpl; [reflexivity | now rewrite IH]. Qed.

Lemma filter_strings_serialize f l :
  JS.filter_strings f (JS.prop (serialize l) "customDomains")
  = Ok (filter f l).
Proof. simpl. now rewrite strings_of_JStr. Qed.

(** The read never throws, never touches the world and calls the storage
    once; its answer is the module's default object, or a new object
    built from a stored value that could be decoded. *)
Lemma loadDomainConfig_cases e w :
  loadDomainConfig e w = (Ok TheDefault, w, [StorageGet STORAGE_KEY])
  \/ exists v l,
       storage_get_fails e = false
       /\ sync_storage w = Some v
       /\ JS.truthy (Some v) = true
       /\ JS.filter_strings validateDomain (JS.prop v "customDomains") = Ok l
       /\ loadDomainConfig e w = (Ok (Fresh l), w, [StorageGet STORAGE_KEY]).
Proof.
  unfold loadDomainConfig, try_catch, bind, chrome_storage_sync_get, lift, ret.
  destruct (storage_get_fails e) eqn:Eg; [left; reflexivity|].
  destruct (sync_storage w) as [v|] eqn:Es; [|left; reflexivity].
  destruct (JS.truthy (Some v)) eqn:Et; [|left; reflexivity].
  cbn [negb].
  destruct (JS.filter_strings validateDomain (JS.prop v "customDomains"))
    as [l|x] eqn:Ef; [|left; reflexivity].
  right. exists v, l. repeat split; try assumption; reflexivity.
Qed.

Lemma loadDomainConfig_absent e w :
  sync_storage w = None ->
  loadDomainConfig e w = (Ok TheDefault, w, [StorageGet STORAGE_KEY]).
Proof.
  intros Es.
  unfold loadDomainConfig, try_catch, bind, chrome_storage_sync_get, lift, ret.
  rewrite Es. destruct (storage_get_fails e); reflexivity.
Qed.

Lemma loadDomainConfig_read_fails e w :
  storage_get_fails e = true ->
  loadDomainConfig e w = (Ok TheDefault, w, [StorageGet STORAGE_KEY]).
Proof.
  intros Eg.
  unfold loadDomainConfig, try_catch, bind, chrome_storage_sync_get, lift, ret.
  rewrite Eg. reflexivity.
Qed.

Lemma loadDomainConfig_serialized e w l :
  storage_get_fails e = false ->
  sync_storage w = Some (serialize l) ->
  loadDomainConfig e w =
    (Ok (Fresh (filter validateDomain l)), w, [StorageGet STORAGE_KEY]).
Proof.
  intros Eg Es.
  unfold loadDomainConfig, try_catch, bind, chrome_storage_sync_get, lift, ret.
  rewrite Eg, Es. cbn [JS.truthy serialize negb].
  rewrite filter_strings_serialize. reflexivity.
Qed.

(** A present value that is falsy, or that is not an object holding an
    array of strings under [customDomains], is read as the default. *)
Lemma loadDomainConfig_undecodable e w v :
  sync_storage w = Some v ->
  JS.truthy (Some v) = false
  \/ JS.filter_strings validateDomain (JS.prop v "customDomains")
     = Throw TypeError ->
  loadDomainConfig e w = (Ok TheDefault, w, [StorageGet STORAGE_KEY]).
Proof.
  intros Es H.
  destruct (loadDomainConfig_cases e w) as [D|(v' & l & _ & Es' & Et & Ef & _)];
    [exact D|].
  rewrite Es in Es'. injection Es' as <-.
  destruct H as [H|H]; congruence.
Qed.

(* ------------------------------------------------------------------ *)
(** ** addCustomDomain and removeCustomDomain *)

Lemma DEFAULT_DOMAINS_valid d :
  In d DEFAULT_DOMAINS ->
  normalizeDomain d = d /\ validateDomain d = true /\ toLowerCase d = d.
Proof.
  unfold DEFAULT_DOMAINS. simpl.
  intros [<-|[<-|[<-|[<-|[<-|[<-|[]]]]]]]; vm_compute; repeat split.
Qed.

(** C5. For every built-in domain d, and for every input that normalizes
    to it (so d itself, or d with capitals or surrounding blanks), add
    answers success = false with the reason of a built-in collision (the
    message [domain_already_builtin]) whatever the world is, and does
    nothing else: the world is the same afterwards and no browser call
    was made, so no read, no permission request and no write. *)
Theorem addCustomDomain_builtin_rejected :
  forall d, In d DEFAULT_DOMAINS ->
    (forall e w,
       addCustomDomain e d w =
         (Ok (mkResult false "domain_already_builtin"), w, []))
    /\ (forall e w raw, normalizeDomain raw = d ->
          addCustomDomain e raw w =
            (Ok (mkResult false "domain_already_builtin"), w, [])).
Proof.
  intros d Hd. destruct (DEFAULT_DOMAINS_valid d Hd) as (Hn & Hv & _).
  assert (H : forall e w raw, normalizeDomain raw = d ->
                addCustomDomain e raw w =
                  (Ok (mkResult false "domain_already_builtin"), w, [])).
  { intros e w raw Hraw. unfold addCustomDomain. rewrite Hraw, Hv.
    apply array_includes_In in Hd. rewrite Hd. reflexivity. }
  split; [|exact H]. intros e w. now apply H.
Qed.

Lemma addCustomDomain_builtin_rejected_witness :
  In "larksuite.com" DEFAULT_DOMAINS
  /\ addCustomDomain (all_ok Granted) "larksuite.com" (initial_world None)
     = (Ok (mkResult false "domain_already_builtin"), initial_world None, [])
  /\ addCustomDomain (all_ok Granted) "  LarkSuite.com "
       (mkWorld ["x.example.com"] (Some (serialize ["y.example.com"])) [])
     = (Ok (mkResult false "domain_already_builtin"),
        mkWorld ["x.example.com"] (Some (serialize ["y.example.com"])) [],
        []).
Proof.
  assert (H : In "larksuite.com" DEFAULT_DOMAINS) by (simpl; tauto).
  split; [exact H|]. split.
  - apply (proj1 (addCustomDomain_builtin_rejected "larksuite.com" H)).
  - apply (proj2 (addCustomDomain_builtin_rejected "larksuite.com" H)).
    reflexivity.
Defined.

Lemma customDomains_run config w :
  customDomains config w =
    (Ok (match config with
         | TheDefault => DEFAULT_DOMAIN_CONFIG w
         | Fresh l => l
         end), w, []).
Proof. destruct config; reflexivity. Qed.

Lemma loadDomainConfig_total e w :
  exists config,
    loadDomainConfig e w = (Ok config, w, [StorageGet STORAGE_KEY]).
Proof.
  destruct (loadDomainConfig_cases e w) as [H|(v & l & _ & _ & _ & _ & H)];
    eauto.
Qed.

(** The array a config refers to, in a given world. *)
Lemma loaded_view_run e w config :
  loadDomainConfig e w = (Ok config, w, [StorageGet STORAGE_KEY]) ->
  loaded_view e w =
    Ok (match config with
        | TheDefault => DEFAULT_DOMAIN_CONFIG w
        | Fresh l => l
        end).
Proof.
  intros H. unfold loaded_view, result_of, bind. rewrite H.
  rewrite customDomains_run. reflexivity.
Qed.

(** addCustomDomain past its two checks on the input alone, as a function
    of the config that was loaded. *)
Lemma addCustomDomain_run e w raw config :
  validateDomain (normalizeDomain raw) = true ->
  JS.array_includes DEFAULT_DOMAINS (normalizeDomain raw) = false ->
  loadDomainConfig e w = (Ok config, w, [StorageGet STORAGE_KEY]) ->
  let n := normalizeDomain raw in
  let current :=
    match config with
    | TheDefault => DEFAULT_DOMAIN_CONFIG w
    | Fresh l => l
    end in
  let pushed :=
    match config with
    | TheDefault => DEFAULT_DOMAIN_CONFIG w ++ [n]
    | Fresh _ => DEFAULT_DOMAIN_CONFIG w
    end in
  let granted := granted_origins w ++ domainToUrlPatterns n in
  let get := StorageGet STORAGE_KEY in
  let request := PermissionsRequest (domainToUrlPatterns n) in
  let set := StorageSet STORAGE_KEY (serialize (current ++ [n])) in
  addCustomDomain e raw w =
    if JS.array_includes current n then
      (Ok (mkResult false "domain_already_exists"), w, [get])
    else
      match permission_answer e with
      | Denied =>
          (Ok (mkResult false "permission_denied"), w, [get; request])
      | RequestFails => (Throw PermissionError, w, [get; request])
      | Granted =>
          if storage_set_fails e then
            (Throw StorageError,
             mkWorld pushed (sync_storage w) granted,
             [get; request; set])
          else
            (Ok (mkResult true "domain_added"),
             mkWorld pushed (Some (serialize (current ++ [n]))) granted,
             [get; request; set])
      end.
Proof.
  intros Hv Hb Hl. cbv zeta.
  unfold addCustomDomain. rewrite Hv, Hb. cbn [negb].
  unfold bind at 1. rewrite Hl.
  unfold bind at 1. rewrite customDomains_run.
  destruct config as [|l]; cbv beta iota;
    match goal with
    | |- context [JS.array_includes ?c ?x] =>
        destruct (JS.array_includes c x); [reflexivity|]
    end;
    unfold bind, chrome_permissions_request, saveDomainConfig,
      chrome_storage_sync_set, customDomains_push, customDomains, ret;
    destruct (permission_answer e); cbn;
    try reflexivity;
    destruct (storage_set_fails e); reflexivity.
Qed.

(** removeCustomDomain as a function of the config that was loaded. *)
Lemma removeCustomDomain_run e w raw config :
  loadDomainConfig e w = (Ok config, w, [StorageGet STORAGE_KEY]) ->
  let n := normalizeDomain raw in
  let current :=
    match config with
    | TheDefault => DEFAULT_DOMAIN_CONFIG w
    | Fresh l => l
    end in
  let index := JS.indexOf current n in
  let spliced :=
    match config with
    | TheDefault => JS.splice1 (DEFAULT_DOMAIN_CONFIG w) index
    | Fresh _ => DEFAULT_DOMAIN_CONFIG w
    end in
  let get := StorageGet STORAGE_KEY in
  let set := StorageSet STORAGE_KEY (serialize (JS.splice1 current index)) in
  removeCustomDomain e raw w =
    if (index =? -1)%Z then
      (Ok (mkResult false "domain_not_found"), w, [get])
    else if storage_set_fails e then
      (Throw StorageError,
       mkWorld spliced (sync_storage w) (granted_origins w),
       [get; set])
    else
      (Ok (mkResult true "domain_removed"),
       mkWorld spliced (Some (serialize (JS.splice1 current index)))
               (granted_origins w),
       [get; set]).
Proof.
  intros Hl. cbv zeta. destruct w as [dflt stored grants].
  unfold removeCustomDomain.
  unfold bind at 1. rewrite Hl.
  unfold bind at 1. rewrite customDomains_run.
  destruct config as [|l]; cbv beta iota;
    match goal with
    | |- context [(?i =? -1)%Z] => destruct (i =? -1)%Z; [reflexivity|]
    end;
    unfold bind, saveDomainConfig, chrome_storage_sync_set,
      customDomains_splice1, customDomains, ret; cbn;
    destruct (storage_set_fails e); reflexivity.
Qed.

(** An add writes to the storage only after the grant, and the origins
    of the domain are then among the granted ones. *)
Lemma addCustomDomain_writes_only_when_granted e w raw :
  existsb is_write (events_of (addCustomDomain e raw) w) = true ->
  permission_answer e = Granted
  /\ incl (domainToUrlPatterns (normalizeDomain raw))
          (granted_origins (world_after (addCustomDomain e raw) w)).
Proof.
  unfold events_of, world_after.
  destruct (validateDomain (normalizeDomain raw)) eqn:Hv.
  2:{ unfold addCustomDomain. rewrite Hv. discriminate. }
  destruct (JS.array_includes DEFAULT_DOMAINS (normalizeDomain raw)) eqn:Hb.
  { unfold addCustomDomain. rewrite Hv, Hb. discriminate. }
  destruct (loadDomainConfig_total e w) as [config Hl].
  rewrite (addCustomDomain_run e w raw config Hv Hb Hl). cbv zeta.
  match goal with
  | |- context [JS.array_includes ?c ?x] =>
      destruct (JS.array_includes c x)
  end; [discriminate|].
  destruct (permission_answer e); try discriminate.
  destruct (storage_set_fails e); cbn [fst snd granted_origins]; intros _;
    (split; [reflexivity | apply incl_appr, incl_refl]).
Qed.

(** C2. When the browser refuses the permission (granted = false), add
    never reports success and leaves the world as it was: nothing is
    appended to a custom-domain array, nothing is written to storage, no
    origin is granted, and a load afterwards shows what a load before
    showed.  When the request was actually made during the add, the
    answer is success = false with [permission_denied], the calls were the
    read and the request only, and the list a load shows afterwards does
    not contain the domain. *)
Theorem addCustomDomain_permission_denied :
  forall e w raw,
    permission_answer e = Denied ->
    let run := addCustomDomain e raw in
    world_after run w = w
    /\ existsb is_write (events_of run w) = false
    /\ (forall e', loaded_view e' (world_after run w) = loaded_view e' w)
    /\ (exists r, result_of run w = Ok r /\ success r = false)
    /\ (existsb is_request (events_of run w) = true ->
        result_of run w = Ok (mkResult false "permission_denied")
        /\ events_of run w =
             [ StorageGet STORAGE_KEY;
               PermissionsRequest
                 (domainToUrlPatterns (normalizeDomain raw)) ]
        /\ exists current,
             loaded_view e (world_after run w) = Ok current
             /\ ~ In (normalizeDomain raw) current).
Proof.
  intros e w raw Hp. cbv zeta.
  unfold world_after, result_of, events_of.
  destruct (validateDomain (normalizeDomain raw)) eqn:Hv.
  2:{ unfold addCustomDomain. rewrite Hv. cbn.
      repeat split; eauto; discriminate. }
  destruct (JS.array_includes DEFAULT_DOMAINS (normalizeDomain raw)) eqn:Hb.
  { unfold addCustomDomain. rewrite Hv, Hb. cbn.
    repeat split; eauto; discriminate. }
  destruct (loadDomainConfig_total e w) as [config Hl].
  rewrite (addCustomDomain_run e w raw config Hv Hb Hl). cbv zeta.
  rewrite Hp.
  match goal with
  | |- context [JS.array_includes ?c ?x] =>
      destruct (JS.array_includes c x) eqn:Hin
  end; cbn.
  - repeat split; eauto; discriminate.
  - repeat split; eauto.
    eexists. split; [apply (loaded_view_run e w config Hl)|].
    apply array_includes_not_In. exact Hin.
Qed.

Lemma addCustomDomain_permission_denied_witness :
  let e := all_ok Denied in
  let w := initial_world (Some (serialize ["a.example.com"])) in
  let run := addCustomDomain e "B.example.com" in
  permission_answer e = Denied
  /\ world_after run w = w
  /\ existsb is_request (events_of run w) = true
  /\ result_of run w = Ok (mkResult false "permission_denied")
  /\ loaded_view e (world_after run w) = Ok ["a.example.com"].
Proof.
  cbv zeta.
  pose proof (addCustomDomain_permission_denied
                (all_ok Denied)
                (initial_world (Some (serialize ["a.example.com"])))
                "B.example.com" eq_refl) as H.
  cbv zeta in H. destruct H as (Hw & _ & _ & _ & Hreq).
  split; [reflexivity|]. split; [exact Hw|].
  split; [reflexivity|].
  split; [exact (proj1 (Hreq eq_refl))|].
  rewrite Hw. vm_compute. reflexivity.
Defined.

Lemma indexOf_range a x :
  (JS.indexOf a x = -1 \/
   0 <= JS.indexOf a x < Z.of_nat (List.length a))%Z.
Proof.
  induction a as [|y a IH]; [now left|].
  change (List.length (y :: a)) with (S (List.length a)).
  rewrite Nat2Z.inj_succ. cbn [JS.indexOf].
  destruct (String.eqb y x); [right; lia|].
  destruct (JS.indexOf a x =? -1)%Z eqn:Ei; [now left|].
  apply Z.eqb_neq in Ei. right. lia.
Qed.

Lemma indexOf_minus1 a x : JS.indexOf a x = (-1)%Z <-> ~ In x a.
Proof.
  induction a as [|y a IH]; simpl.
  - split; [intros _ []|reflexivity].
  - destruct (String.eqb y x) eqn:E.
    + apply String.eqb_eq in E. subst. split; [discriminate|].
      intros H. elim H. now left.
    + apply String.eqb_neq in E.
      destruct (JS.indexOf a x =? -1)%Z eqn:Ei.
      * apply Z.eqb_eq in Ei. split; [|reflexivity].
        intros _ [H|H]; [congruence|]. now apply IH.
      * apply Z.eqb_neq in Ei. split.
        -- intros H. exfalso. destruct (indexOf_range a x); lia.
        -- intros H. exfalso. apply Ei. apply IH. intros Hin. apply H.
           now right.
Qed.

Lemma removeCustomDomain_absent e w raw current :
  loaded_view e w = Ok current ->
  ~ In (normalizeDomain raw) current ->
  removeCustomDomain e raw w =
    (Ok (mkResult false "domain_not_found"), w, [StorageGet STORAGE_KEY]).
Proof.
  intros Hview Hnot.
  destruct (loadDomainConfig_total e w) as [config Hl].
  rewrite (loaded_view_run e w config Hl) in Hview. injection Hview as Hc.
  rewrite (removeCustomDomain_run e w raw config Hl). cbv zeta.
  rewrite Hc. apply indexOf_minus1 in Hnot. rewrite Hnot. reflexivity.
Qed.

(** The same with the list taken from the storage itself: a domain that
    is neither in the stored list nor in the module's default object is
    not found, whatever the read does. *)
Lemma removeCustomDomain_not_stored e w raw l :
  sync_storage w = Some (serialize l) \/ (sync_storage w = None /\ l = []) ->
  ~ In (normalizeDomain raw) l ->
  ~ In (normalizeDomain raw) (DEFAULT_DOMAIN_CONFIG w) ->
  removeCustomDomain e raw w =
    (Ok (mkResult false "domain_not_found"), w, [StorageGet STORAGE_KEY]).
Proof.
  intros Hs Hl Hd.
  destruct (loadDomainConfig_total e w) as [config Hc].
  pose proof (loaded_view_run e w config Hc) as Hview.
  refine (removeCustomDomain_absent e w raw _ Hview _).
  destruct (loadDomainConfig_cases e w)
    as [D|(v & l' & Eg & Es & _ & Ef & D)];
    rewrite D in Hc; injection Hc as <-; [exact Hd|].
  destruct Hs as [Hs|[Hs _]]; [|congruence].
  rewrite Hs in Es. injection Es as <-.
  rewrite filter_strings_serialize in Ef. injection Ef as <-.
  intros Hin. apply filter_In in Hin. tauto.
Qed.

(** C8 (the code departs from it).  In a new context with the key
    absent, an add of [example.com] whose permission request is granted
    and whose write is rejected throws and stores nothing: the stored
    list is as absent as before and does not hold the domain.  A remove
    of [example.com] is answered [domain_not_found] before that add,
    with the read as its only call.  After it, the same remove finds
    the domain in the module's default object, answers success with
    [domain_removed], writes, and the key, absent before, holds the
    empty list; the load before the remove shows the domain and the load
    after it does not. *)
Theorem removeCustomDomain_finds_unsaved_domain :
  let w0 := initial_world None in
  let add := addCustomDomain (mkEnv false true Granted) "example.com" in
  let w1 := world_after add w0 in
  let remove := removeCustomDomain (all_ok Granted) "example.com" in
  remove w0
  = (Ok (mkResult false "domain_not_found"), w0, [StorageGet STORAGE_KEY])
  /\ result_of add w0 = Throw StorageError
  /\ sync_storage w1 = None
  /\ result_of remove w1 = Ok (mkResult true "domain_removed")
  /\ events_of remove w1
     = [StorageGet STORAGE_KEY; StorageSet STORAGE_KEY (serialize [])]
  /\ sync_storage (world_after remove w1) = Some (serialize [])
  /\ loaded_view (all_ok Granted) w1 = Ok ["example.com"]
  /\ loaded_view (all_ok Granted) (world_after remove w1) = Ok [].
Proof.
  cbv zeta. repeat split; vm_compute; reflexivity.
Qed.

(* ------------------------------------------------------------------ *)
(** ** matchesCustomDomain *)

Lemma substring_split s k :
  k <= String.length s ->
  (substring 0 k s ++ substring k (String.length s - k) s)%string = s.
Proof.
  revert k. induction s as [|c s IH]; intros [|k] Hk; simpl in *;
    try reflexivity; try lia.
  - now rewrite substring_all.
  - rewrite IH by lia. reflexivity.
Qed.

(** [endsWith] is what its name says. *)
Lemma endsWith_iff s suffix :
  endsWith s suffix = true <-> exists pre, s = (pre ++ suffix)%string.
Proof.
  split.
  - unfold endsWith. intros H. apply andb_true_iff in H as [Hle Heq].
    apply Nat.leb_le in Hle. apply String.eqb_eq in Heq.
    exists (substring 0 (String.length s - String.length suffix) s).
    pose proof (substring_split s (String.length s - String.length suffix))
      as Hs.
    replace (String.length s - (String.length s - String.length suffix))
      with (String.length suffix) in Hs by lia.
    rewrite Heq in Hs. symmetry. apply Hs. lia.
  - intros [pre ->]. apply endsWith_append.
Qed.

(** A stored list whose entries are all valid is read back as it is. *)
Lemma loaded_view_of_valid_storage e w l :
  storage_get_fails e = false ->
  sync_storage w = Some (serialize l) ->
  Forall (fun d => validateDomain d = true) l ->
  loaded_view e w = Ok l.
Proof.
  intros Eg Es Hall.
  rewrite (loaded_view_run e w _ (loadDomainConfig_serialized e w l Eg Es)).
  f_equal. apply forallb_filter_id. apply forallb_forall.
  now apply Forall_forall.
Qed.

(** matchesCustomDomain as a function of the list that was loaded. *)
Lemma matchesCustomDomain_run e URL_hostname w url current :
  loaded_view e w = Ok current ->
  matchesCustomDomain e URL_hostname url w =
    (Ok (if (List.length current =? 0)%nat then false
         else match URL_hostname url with
              | None => false
              | Some hostname =>
                  existsb
                    (fun domain =>
                       String.eqb hostname domain
                       || endsWith hostname ("." ++ domain))
                    current
              end),
     w, [StorageGet STORAGE_KEY]).
Proof.
  intros Hview.
  destruct (loadDomainConfig_total e w) as [config Hl].
  rewrite (loaded_view_run e w config Hl) in Hview. injection Hview as Hc.
  unfold matchesCustomDomain.
  unfold bind at 1. rewrite Hl.
  unfold bind at 1. rewrite customDomains_run, Hc.
  destruct (List.length current =? 0)%nat; [reflexivity|].
  unfold try_catch, throw, ret.
  destruct (URL_hostname url); reflexivity.
Qed.

(** The test made on each domain: same host, or a host that ends with a
    dot and the domain. *)
Lemma host_suffix_existsb hostname current :
  existsb
    (fun domain =>
       String.eqb hostname domain || endsWith hostname ("." ++ domain))
    current = true
  <-> exists domain,
        In domain current
        /\ (hostname = domain
            \/ exists sub, hostname = (sub ++ "." ++ domain)%string).
Proof.
  rewrite existsb_exists. split.
  - intros (domain & Hin & Hm). exists domain. split; [exact Hin|].
    apply orb_true_iff in Hm as [Hm|Hm].
    + left. now apply String.eqb_eq.
    + right. now apply endsWith_iff in Hm.
  - intros (domain & Hin & Hm). exists domain. split; [exact Hin|].
    apply orb_true_iff. destruct Hm as [->|Hm].
    + left. apply String.eqb_refl.
    + right. now apply endsWith_iff.
Qed.

(** C9, as stated, fails: a stored entry that validateDomain rejects is
    not matched, and no stored entry is when the read fails.  The host
    [intranet] is a stored custom domain and a.example.com is one, yet
    both pages are turned down. *)
Lemma matchesCustomDomain_skips_stored_domains :
  let stored_invalid := initial_world (Some (serialize ["intranet"])) in
  let stored_valid := initial_world (Some (serialize ["a.example.com"])) in
  sample_URL_hostname "https://intranet/wiki" = Some "intranet"
  /\ In "intranet" ["intranet"]
  /\ matchesCustomDomain (all_ok Granted) sample_URL_hostname
       "https://intranet/wiki" stored_invalid
     = (Ok false, stored_invalid, [StorageGet STORAGE_KEY])
  /\ sample_URL_hostname "https://a.example.com/docx/1"
     = Some "a.example.com"
  /\ In "a.example.com" ["a.example.com"]
  /\ matchesCustomDomain (mkEnv true false Granted) sample_URL_hostname
       "https://a.example.com/docx/1" stored_valid
     = (Ok false, stored_valid, [StorageGet STORAGE_KEY]).
Proof.
  cbv zeta. repeat split; try (vm_compute; reflexivity); now left.
Qed.

(** C9, amended.  matchesCustomDomain never throws, changes
    nothing and makes one call, the read.  When the read succeeds and the
    key holds a list, the stored entries that count are those that pass
    validateDomain: for a URL whose host the parser yields, the answer is
    true exactly when the hostname equals such an entry or ends with a
    dot followed by it; the answer is false for a URL the parser
    rejects, and false when no stored entry passes validateDomain, the
    empty list included.  When the read fails or the key is absent, and
    the module's default object is as it was created, the answer is
    false. *)
Theorem matchesCustomDomain_valid_stored_suffix :
  forall e URL_hostname w url,
    (exists b,
       matchesCustomDomain e URL_hostname url w
       = (Ok b, w, [StorageGet STORAGE_KEY]))
    /\ (forall l,
          storage_get_fails e = false ->
          sync_storage w = Some (serialize l) ->
          (forall hostname,
             URL_hostname url = Some hostname ->
             (result_of (matchesCustomDomain e URL_hostname url) w = Ok true
              <-> exists domain,
                    In domain l
                    /\ validateDomain domain = true
                    /\ (hostname = domain
                        \/ exists sub,
                             hostname = (sub ++ "." ++ domain)%string)))
          /\ (URL_hostname url = None ->
              result_of (matchesCustomDomain e URL_hostname url) w
              = Ok false)
          /\ ((forall domain, In domain l -> validateDomain domain = false) ->
              result_of (matchesCustomDomain e URL_hostname url) w
              = Ok false))
    /\ (storage_get_fails e = true \/ sync_storage w = None ->
        DEFAULT_DOMAIN_CONFIG w = [] ->
        result_of (matchesCustomDomain e URL_hostname url) w = Ok false).
Proof.
  intros e URL_hostname w url. split; [|split].
  - destruct (loadDomainConfig_total e w) as [config Hl].
    eexists.
    apply (matchesCustomDomain_run _ _ _ _ _ (loaded_view_run e w config Hl)).
  - intros l Eg Es.
    pose proof (loaded_view_run e w _ (loadDomainConfig_serialized e w l Eg Es))
      as Hview.
    unfold result_of.
    rewrite (matchesCustomDomain_run _ URL_hostname _ url _ Hview).
    cbn [fst]. split; [|split].
    + intros hostname ->.
      destruct (filter validateDomain l) as [|d0 rest] eqn:Ef.
      * cbn. split; [discriminate|].
        intros (domain & Hin & Hv & _). exfalso.
        assert (Hf : In domain (filter validateDomain l))
          by (apply filter_In; now split).
        rewrite Ef in Hf. exact Hf.
      * cbn [List.length Nat.eqb]. rewrite <- Ef. split.
        -- intros [= H]. apply host_suffix_existsb in H.
           destruct H as (domain & Hin & Hm). apply filter_In in Hin.
           exists domain. tauto.
        -- intros (domain & Hin & Hv & Hm). f_equal.
           apply host_suffix_existsb. exists domain.
           split; [apply filter_In; now split | exact Hm].
    + intros ->. now destruct (List.length (filter validateDomain l) =? 0)%nat.
    + intros Hnone.
      assert (Ef : filter validateDomain l = []).
      { destruct (filter validateDomain l) as [|d0 rest] eqn:Ef;
          [reflexivity|].
        assert (Hin : In d0 (filter validateDomain l))
          by (rewrite Ef; now left).
        apply filter_In in Hin as [Hin Hv].
        rewrite (Hnone d0 Hin) in Hv. discriminate Hv. }
      rewrite Ef. reflexivity.
  - intros Hfall Hd.
    assert (Hl : loadDomainConfig e w
                 = (Ok TheDefault, w, [StorageGet STORAGE_KEY])).
    { destruct Hfall as [Eg|Es];
        [now apply loadDomainConfig_read_fails
        |now apply loadDomainConfig_absent]. }
    pose proof (loaded_view_run e w _ Hl) as Hview. cbv iota in Hview.
    unfold result_of.
    rewrite (matchesCustomDomain_run _ URL_hostname _ url _ Hview).
    rewrite Hd. reflexivity.
Qed.

Lemma matchesCustomDomain_valid_stored_suffix_witness :
  let e := all_ok Denied in
  let l := ["intranet"; "a.example.com"] in
  let w := initial_world (Some (serialize l)) in
  storage_get_fails e = false
  /\ sync_storage w = Some (serialize l)
  /\ sample_URL_hostname "https://x.a.example.com/" = Some "x.a.example.com"
  /\ result_of
       (matchesCustomDomain e sample_URL_hostname "https://x.a.example.com/")
       w
     = Ok true
  /\ map (fun url =>
            result_of (matchesCustomDomain e sample_URL_hostname url) w)
       [ "https://a.example.com/docx/1"; "https://xa.example.com/";
         "https://intranet/wiki"; "https://example.com/"; "not a url" ]
     = [ Ok true; Ok false; Ok false; Ok false; Ok false ].
Proof.
  cbv zeta.
  split; [reflexivity|]. split; [reflexivity|]. split; [reflexivity|].
  split; [|vm_compute; reflexivity].
  destruct (proj1 (proj2 (matchesCustomDomain_valid_stored_suffix
                            (all_ok Denied) sample_URL_hostname
                            (initial_world
                               (Some (serialize ["intranet"; "a.example.com"])))
                            "https://x.a.example.com/"))
              ["intranet"; "a.example.com"] eq_refl eq_refl)
    as (Hiff & _).
  apply (Hiff "x.a.example.com" eq_refl).
  exists "a.example.com". split; [right; left; reflexivity|].
  split; [vm_compute; reflexivity|].
  right. exists "x". reflexivity.
Defined.

(* ------------------------------------------------------------------ *)
(** ** The invariants of the data model *)

Section Invariants.

Lemma entry_ok_normalized raw :
  validateDomain (normalizeDomain raw) = true ->
  entry_ok (normalizeDomain raw).
Proof. intros H. split; [apply normalizeDomain_idem | exact H]. Qed.

Lemma not_builtin_normalized raw :
  JS.array_includes DEFAULT_DOMAINS (normalizeDomain raw) = false ->
  not_builtin (normalizeDomain raw).
Proof.
  intros H b Hb. apply array_includes_not_In in H.
  rewrite normalizeDomain_lower.
  destruct (DEFAULT_DOMAINS_valid b Hb) as (_ & _ & ->).
  intros E. apply H. now rewrite E.
Qed.

Lemma config_ok_nil : config_ok [].
Proof. repeat split; constructor. Qed.

Lemma config_ok_push l x :
  config_ok l -> entry_ok x -> not_builtin x -> ~ In x l ->
  config_ok (l ++ [x]).
Proof.
  intros (He & Hb & Hn) Hx Hbx Hin. repeat split.
  - apply Forall_app. split; [exact He | now constructor].
  - apply Forall_app. split; [exact Hb | now constructor].
  - apply NoDup_app; [exact Hn | repeat constructor; intros [] |].
    intros a Ha [<-|[]]. contradiction.
Qed.

Lemma In_remove_at {A} (l : list A) n y :
  In y (firstn n l ++ skipn (S n) l) -> In y l.
Proof.
  revert n. induction l as [|x l IH]; intros [|n]; simpl; auto.
  intros [H|H]; [now left | right; eauto].
Qed.

Lemma Forall_remove_at {A} (P : A -> Prop) (l : list A) n :
  Forall P l -> Forall P (firstn n l ++ skipn (S n) l).
Proof.
  intros H. apply Forall_forall. intros y Hy.
  apply In_remove_at in Hy. revert y Hy. now apply Forall_forall.
Qed.

Lemma NoDup_remove_at {A} (l : list A) n :
  NoDup l -> NoDup (firstn n l ++ skipn (S n) l).
Proof.
  revert n. induction l as [|x l IH]; intros [|n] H; simpl;
    try constructor.
  - now inversion H.
  - inversion H; subst. intros Hin. apply In_remove_at in Hin. contradiction.
  - inversion H; subst. now apply IH.
Qed.

Lemma config_ok_splice1 l index :
  config_ok l -> config_ok (JS.splice1 l index).
Proof.
  intros (He & Hb & Hn). unfold JS.splice1. repeat split.
  - now apply Forall_remove_at.
  - now apply Forall_remove_at.
  - now apply NoDup_remove_at.
Qed.

Lemma filter_valid_id l :
  Forall entry_ok l -> filter validateDomain l = l.
Proof.
  intros H. apply forallb_filter_id. apply forallb_forall.
  intros d Hd. rewrite Forall_forall in H. now destruct (H d Hd).
Qed.

(** In a world that satisfies the invariants, so does the list of the
    config a load answers with. *)
Lemma loaded_config_ok e w config :
  world_ok w ->
  loadDomainConfig e w = (Ok config, w, [StorageGet STORAGE_KEY]) ->
  config_ok (match config with
             | TheDefault => DEFAULT_DOMAIN_CONFIG w
             | Fresh l => l
             end).
Proof.
  intros [Hd Hp] Hl.
  destruct (loadDomainConfig_cases e w)
    as [D|(v & l & Eg & Es & _ & Ef & D)];
    rewrite D in Hl; injection Hl as <-; [exact Hd|].
  destruct Hp as [Hp|(l0 & Hp & Hok)]; [congruence|].
  rewrite Hp in Es. injection Es as <-.
  rewrite filter_strings_serialize in Ef. injection Ef as <-.
  rewrite filter_valid_id; [exact Hok | apply Hok].
Qed.

Lemma addCustomDomain_world_ok e raw w :
  world_ok w -> world_ok (world_after (addCustomDomain e raw) w).
Proof.
  intros Hw. unfold world_after.
  destruct (validateDomain (normalizeDomain raw)) eqn:Hv.
  2:{ unfold addCustomDomain. rewrite Hv. exact Hw. }
  destruct (JS.array_includes DEFAULT_DOMAINS (normalizeDomain raw)) eqn:Hb.
  { unfold addCustomDomain. rewrite Hv, Hb. exact Hw. }
  destruct (loadDomainConfig_total e w) as [config Hl].
  pose proof (loaded_config_ok e w config Hw Hl) as Hc.
  rewrite (addCustomDomain_run e w raw config Hv Hb Hl). cbv zeta.
  match goal with
  | |- context [JS.array_includes ?c ?x] =>
      destruct (JS.array_includes c x) eqn:Hin
  end; [exact Hw|].
  apply array_includes_not_In in Hin.
  pose proof (config_ok_push _ _ Hc (entry_ok_normalized raw Hv)
                (not_builtin_normalized raw Hb) Hin) as Hpush.
  destruct Hw as [Hd Hp].
  destruct (permission_answer e); try (split; assumption).
  destruct (storage_set_fails e); cbn; (split; [destruct config; assumption|]).
  - exact Hp.
  - right. eexists. split; [reflexivity | exact Hpush].
Qed.

Lemma removeCustomDomain_world_ok e raw w :
  world_ok w -> world_ok (world_after (removeCustomDomain e raw) w).
Proof.
  intros Hw. unfold world_after.
  destruct (loadDomainConfig_total e w) as [config Hl].
  pose proof (loaded_config_ok e w config Hw Hl) as Hc.
  rewrite (removeCustomDomain_run e w raw config Hl). cbv zeta.
  match goal with
  | |- context [(?i =? -1)%Z] => destruct (i =? -1)%Z; [exact Hw|]
  end.
  pose proof (config_ok_splice1 _
                (JS.indexOf
                   (match config with
                    | TheDefault => DEFAULT_DOMAIN_CONFIG w
                    | Fresh l => l
                    end) (normalizeDomain raw)) Hc) as Hs.
  destruct Hw as [Hd Hp].
  destruct (storage_set_fails e); cbn; (split; [destruct config; assumption|]).
  - exact Hp.
  - right. eexists. split; [reflexivity | exact Hs].
Qed.

Lemma run_ops_world_ok script w :
  world_ok w -> world_ok (run_ops script w).
Proof.
  revert w. induction script as [|[e op] script IH]; intros w Hw; simpl;
    [exact Hw|].
  apply IH. destruct op; simpl.
  - now apply addCustomDomain_world_ok.
  - now apply removeCustomDomain_world_ok.
Qed.

End Invariants.

(** Operations that run one after the other: start from a persisted
    config that satisfies the invariants of the data model (or from no
    persisted config) in a context whose module was just loaded, and let
    any number of add and remove operations run, each to its end before
    the next begins, each with any answers of the browser, failures
    included.  Then the persisted config satisfies the invariants again,
    and so does the list any load shows. *)
Lemma sequential_ops_preserve_invariants :
  forall stored script,
    persisted_ok stored ->
    let w := run_ops script (initial_world stored) in
    persisted_ok (sync_storage w)
    /\ forall e current, loaded_view e w = Ok current -> config_ok current.
Proof.
  intros stored script Hs. cbv zeta.
  assert (Hw : world_ok (run_ops script (initial_world stored))).
  { apply run_ops_world_ok. split; [apply config_ok_nil | exact Hs]. }
  split; [apply Hw|].
  intros e current Hview.
  destruct (loadDomainConfig_total e (run_ops script (initial_world stored)))
    as [config Hl].
  rewrite (loaded_view_run _ _ config Hl) in Hview. injection Hview as <-.
  now apply (loaded_config_ok e _ config).
Qed.

Lemma sequential_ops_preserve_invariants_example :
  let stored := Some (serialize ["a.example.com"]) in
  let script :=
    [ (all_ok Granted, Add " B.Example.com ");
      (mkEnv false true Granted, Add "c.example.com");
      (all_ok Denied, Add "d.example.com");
      (all_ok Granted, Remove "a.example.com") ] in
  persisted_ok stored
  /\ sync_storage (run_ops script (initial_world stored))
     = Some (serialize ["b.example.com"])
  /\ persisted_ok (sync_storage (run_ops script (initial_world stored))).
Proof.
  cbv zeta.
  assert (Hs : persisted_ok (Some (serialize ["a.example.com"]))).
  { right. exists ["a.example.com"]. split; [reflexivity|].
    repeat split.
    - repeat constructor; vm_compute; reflexivity.
    - repeat constructor. intros b Hb. simpl in Hb.
      destruct Hb as [<-|[<-|[<-|[<-|[<-|[<-|[]]]]]]]; vm_compute;
        discriminate.
    - repeat constructor. intros []. }
  split; [exact Hs|]. split; [vm_compute; reflexivity|].
  exact (proj1 (sequential_ops_preserve_invariants _ _ Hs)).
Defined.

(* ------------------------------------------------------------------ *)
(** ** Two adds that overlap *)


(** The request and its answer, one after the other, are
    [chrome_permissions_request]. *)
Lemma chrome_permissions_request_in_two_steps e origins w :
  chrome_permissions_request e origins w
  = (chrome_permissions_request_call origins ;;;
     chrome_permissions_request_settle e origins) w.
Proof.
  unfold chrome_permissions_request, chrome_permissions_request_call,
    chrome_permissions_request_settle, bind.
  destruct (permission_answer e); reflexivity.
Qed.

(** The two parts of addCustomDomain, run one after the other with
    nothing in between, are addCustomDomain. *)
Lemma addCustomDomain_in_two_steps e domain w :
  addCustomDomain e domain w
  = (p <- addCustomDomain_until_request e domain ;;
     addCustomDomain_after_request e p) w.
Proof.
  unfold addCustomDomain, addCustomDomain_until_request.
  destruct (validateDomain (normalizeDomain domain)); [|reflexivity].
  cbn [negb].
  destruct (JS.array_includes DEFAULT_DOMAINS (normalizeDomain domain));
    [reflexivity|].
  destruct (loadDomainConfig_total e w) as [config Hl].
  unfold bind. rewrite Hl. cbv beta iota.
  rewrite !customDomains_run. cbv beta iota.
  match goal with
  | |- context [JS.array_includes ?c ?x] =>
      destruct (JS.array_includes c x)
  end; [reflexivity|].
  unfold addCustomDomain_after_request, saveDomainConfig, bind.
  unfold chrome_permissions_request, chrome_permissions_request_call,
    chrome_permissions_request_settle, chrome_storage_sync_set, ret.
  destruct (permission_answer e); cbn; try reflexivity.
  destruct config; cbn; destruct (storage_set_fails e); reflexivity.
Qed.

(** addCustomDomain up to its await of the permission request: it has
    returned, or it waits with the config it loaded and a normalized
    domain that is valid, not built in and not in the list of that
    config.  The world is as before. *)
Lemma addCustomDomain_until_request_cases e raw w :
  (exists r ev,
     addCustomDomain_until_request e raw w = (Ok (Returned r), w, ev))
  \/ (exists config,
        loadDomainConfig e w = (Ok config, w, [StorageGet STORAGE_KEY])
        /\ validateDomain (normalizeDomain raw) = true
        /\ JS.array_includes DEFAULT_DOMAINS (normalizeDomain raw) = false
        /\ ~ In (normalizeDomain raw)
             (match config with
              | TheDefault => DEFAULT_DOMAIN_CONFIG w
              | Fresh l => l
              end)
        /\ addCustomDomain_until_request e raw w
           = (Ok (AwaitingPermission config (normalizeDomain raw)), w,
              [StorageGet STORAGE_KEY;
               PermissionsRequest
                 (domainToUrlPatterns (normalizeDomain raw))])).
Proof.
  unfold addCustomDomain_until_request.
  destruct (validateDomain (normalizeDomain raw)) eqn:Hv;
    [|left; eexists; eexists; reflexivity].
  cbn [negb].
  destruct (JS.array_includes DEFAULT_DOMAINS (normalizeDomain raw)) eqn:Hb;
    [left; eexists; eexists; reflexivity|].
  destruct (loadDomainConfig_total e w) as [config Hl].
  unfold bind. rewrite Hl. cbv beta iota.
  rewrite customDomains_run. cbv beta iota.
  match goal with
  | |- context [JS.array_includes ?c ?x] =>
      destruct (JS.array_includes c x) eqn:Hin
  end; [left; eexists; eexists; reflexivity|].
  right. exists config. apply array_includes_not_In in Hin.
  repeat split; try assumption; reflexivity.
Qed.

(** From the await on, for a call that holds an object of its own: the
    default object is not touched, and the key is left as it was or holds
    the list of that object followed by the domain. *)
Lemma addCustomDomain_after_request_fresh e l n w :
  DEFAULT_DOMAIN_CONFIG
    (world_after (addCustomDomain_after_request e
                    (AwaitingPermission (Fresh l) n)) w)
  = DEFAULT_DOMAIN_CONFIG w
  /\ (sync_storage
        (world_after (addCustomDomain_after_request e
                        (AwaitingPermission (Fresh l) n)) w)
      = sync_storage w
      \/ sync_storage
           (world_after (addCustomDomain_after_request e
                           (AwaitingPermission (Fresh l) n)) w)
         = Some (serialize (l ++ [n]))).
Proof.
  unfold world_after, addCustomDomain_after_request, saveDomainConfig, bind.
  unfold chrome_permissions_request_settle, chrome_storage_sync_set, ret.
  destruct (permission_answer e); cbn; try (split; [|left]; reflexivity).
  destruct (storage_set_fails e); cbn;
    [split; [|left]; reflexivity | split; [|right]; reflexivity].
Qed.

(** Two overlapping adds that each hold an object of their own keep the
    invariants: when the key holds a list that satisfies them and both
    reads succeed, the persisted config satisfies them after both calls,
    whatever the two inputs and whatever the browser answers to the
    requests and the writes. *)
Lemma overlapping_adds_own_objects_ok eA eB rawA rawB w l :
  storage_get_fails eA = false ->
  storage_get_fails eB = false ->
  sync_storage w = Some (serialize l) ->
  config_ok l ->
  persisted_ok
    (sync_storage (world_after (overlapping_adds eA eB rawA rawB) w)).
Proof.
  intros EgA EgB Es Hok.
  assert (Hl : forall e, storage_get_fails e = false ->
                 loadDomainConfig e w
                 = (Ok (Fresh l), w, [StorageGet STORAGE_KEY])).
  { intros e Eg. rewrite (loadDomainConfig_serialized e w l Eg Es).
    rewrite filter_valid_id; [reflexivity | apply Hok]. }
  assert (Hpush : forall e raw config,
            loadDomainConfig e w = (Ok config, w, [StorageGet STORAGE_KEY]) ->
            storage_get_fails e = false ->
            validateDomain (normalizeDomain raw) = true ->
            JS.array_includes DEFAULT_DOMAINS (normalizeDomain raw) = false ->
            ~ In (normalizeDomain raw)
                (match config with
                 | TheDefault => DEFAULT_DOMAIN_CONFIG w
                 | Fresh l0 => l0
                 end) ->
            config = Fresh l /\ config_ok (l ++ [normalizeDomain raw])).
  { intros e raw config Hc Eg Hv Hb Hin. rewrite (Hl e Eg) in Hc.
    injection Hc as <-. split; [reflexivity|].
    apply config_ok_push; auto using entry_ok_normalized,
      not_builtin_normalized. }
  assert (Hstart : persisted_ok (sync_storage w)).
  { right. exists l. now split. }
  assert (Hstep : forall e p w',
            (exists r, p = Returned r)
            \/ (exists n, p = AwaitingPermission (Fresh l) n
                          /\ config_ok (l ++ [n])) ->
            persisted_ok (sync_storage w') ->
            persisted_ok
              (sync_storage
                 (world_after (addCustomDomain_after_request e p) w'))).
  { intros e p w' [[r ->]|(n & -> & Hn)] Hw'; [exact Hw'|].
    destruct (addCustomDomain_after_request_fresh e l n w') as [_ [E|E]];
      rewrite E; [exact Hw'|].
    right. eexists. split; [reflexivity | exact Hn]. }
  assert (Hpending : forall e raw,
            storage_get_fails e = false ->
            exists p ev,
              addCustomDomain_until_request e raw w = (Ok p, w, ev)
              /\ ((exists r, p = Returned r)
                  \/ (exists n, p = AwaitingPermission (Fresh l) n
                                /\ config_ok (l ++ [n])))).
  { intros e raw Eg.
    destruct (addCustomDomain_until_request_cases e raw w)
      as [(r & ev & E)|(config & Hc & Hv & Hb & Hin & E)].
    - exists (Returned r), ev. split; [exact E | left; eauto].
    - destruct (Hpush e raw config Hc Eg Hv Hb Hin) as [-> Hn].
      eexists. eexists. split; [exact E | right; eauto]. }
  destruct (Hpending eA rawA EgA) as (pA & evA & EA & HA).
  destruct (Hpending eB rawB EgB) as (pB & evB & EB & HB).
  pose proof (Hstep eA pA w HA Hstart) as H1.
  pose proof (Hstep eB pB _ HB H1) as H2.
  unfold world_after in *. unfold overlapping_adds, bind, settled, ret.
  rewrite EA, EB.
  destruct (addCustomDomain_after_request eA pA w) as [[rA wA] evA'].
  cbn [fst snd] in *.
  destruct (addCustomDomain_after_request eB pB wA) as [[rB wB] evB'].
  exact H2.
Qed.

(** Two overlapping adds of one domain in a newly loaded module with
    the key absent, all requests granted and all writes accepted: both
    hold the default object, and the key ends up holding the domain
    twice, for every input that passes the two checks on the input. *)
Lemma overlapping_adds_shared_default raw :
  validateDomain (normalizeDomain raw) = true ->
  JS.array_includes DEFAULT_DOMAINS (normalizeDomain raw) = false ->
  sync_storage
    (world_after
       (overlapping_adds (all_ok Granted) (all_ok Granted) raw raw)
       (initial_world None))
  = Some (serialize [normalizeDomain raw; normalizeDomain raw]).
Proof.
  intros Hv Hb.
  unfold world_after, overlapping_adds, addCustomDomain_until_request.
  rewrite Hv, Hb. cbn [negb].
  unfold bind.
  rewrite (loadDomainConfig_absent (all_ok Granted) (initial_world None)
             eq_refl).
  cbv beta iota. rewrite !customDomains_run. cbv beta iota.
  reflexivity.
Qed.


(* ------------------------------------------------------------------ *)
(** ** The default object is shared *)

(** What load does in a module whose default object was never written
    to: nothing for an absent key, for a failing read or for a value that
    cannot be decoded; the valid entries, in order, for a stored list;
    and in no case a write. *)
Lemma loadDomainConfig_with_untouched_default e w :
  DEFAULT_DOMAIN_CONFIG w = [] ->
  (exists config,
     loadDomainConfig e w = (Ok config, w, [StorageGet STORAGE_KEY]))
  /\ (sync_storage w = None -> loaded_view e w = Ok [])
  /\ (storage_get_fails e = true -> loaded_view e w = Ok [])
  /\ (forall v, sync_storage w = Some v ->
        JS.truthy (Some v) = false
        \/ JS.filter_strings validateDomain (JS.prop v "customDomains")
           = Throw TypeError ->
        loaded_view e w = Ok [])
  /\ (forall l, storage_get_fails e = false ->
        sync_storage w = Some (serialize l) ->
        loaded_view e w = Ok (filter validateDomain l)).
Proof.
  intros Hd. split; [apply loadDomainConfig_total|]. repeat split.
  - intros Es.
    rewrite (loaded_view_run e w _ (loadDomainConfig_absent e w Es)).
    now rewrite Hd.
  - intros Eg.
    rewrite (loaded_view_run e w _ (loadDomainConfig_read_fails e w Eg)).
    now rewrite Hd.
  - intros v Es Hv.
    rewrite (loaded_view_run e w _ (loadDomainConfig_undecodable e w v Es Hv)).
    now rewrite Hd.
  - intros l Eg Es.
    now rewrite (loaded_view_run e w _ (loadDomainConfig_serialized e w l Eg Es)).
Qed.

(** C10. loadDomainConfig answers with the module-level default object
    itself whenever the key is absent or the read fails, and an add that
    loaded it pushes the new domain into that very object before it
    saves.  So after an add that ran (past the permission grant) while
    the key was absent or unreadable, any later load that finds the key
    absent or unreadable, in any later world that has the same default
    object, shows a list that contains the domain; when the save failed
    the key is still absent right after the add.  One such execution:
    in a new module with nothing stored, add example.com with the grant
    given and the write rejected; the next load shows [example.com]. *)
Theorem default_config_shared_and_mutated :
  (forall e w,
     sync_storage w = None \/ storage_get_fails e = true ->
     loadDomainConfig e w = (Ok TheDefault, w, [StorageGet STORAGE_KEY]))
  /\ (forall e w raw,
        sync_storage w = None \/ storage_get_fails e = true ->
        validateDomain (normalizeDomain raw) = true ->
        ~ In (normalizeDomain raw) DEFAULT_DOMAINS ->
        ~ In (normalizeDomain raw) (DEFAULT_DOMAIN_CONFIG w) ->
        permission_answer e = Granted ->
        let w' := world_after (addCustomDomain e raw) w in
        DEFAULT_DOMAIN_CONFIG w' =
          DEFAULT_DOMAIN_CONFIG w ++ [normalizeDomain raw]
        /\ (storage_set_fails e = true -> sync_storage w' = sync_storage w)
        /\ forall e' w'',
             DEFAULT_DOMAIN_CONFIG w'' = DEFAULT_DOMAIN_CONFIG w' ->
             sync_storage w'' = None \/ storage_get_fails e' = true ->
             exists current,
               loaded_view e' w'' = Ok current
               /\ In (normalizeDomain raw) current)
  /\ (let w' := world_after
                  (addCustomDomain (mkEnv false true Granted) "example.com")
                  (initial_world None) in
      sync_storage w' = None
      /\ loaded_view (all_ok Granted) w' = Ok ["example.com"]).
Proof.
  assert (L : forall e w,
             sync_storage w = None \/ storage_get_fails e = true ->
             loadDomainConfig e w =
               (Ok TheDefault, w, [StorageGet STORAGE_KEY])).
  { intros e w [H|H];
      [now apply loadDomainConfig_absent
      | now apply loadDomainConfig_read_fails]. }
  split; [exact L|]. split; [|split; vm_compute; reflexivity].
  intros e w raw Hk Hv Hb Hd Hp. cbv zeta. unfold world_after.
  apply array_includes_not_In in Hb. apply array_includes_not_In in Hd.
  rewrite (addCustomDomain_run e w raw TheDefault Hv Hb (L e w Hk)).
  cbv zeta. rewrite Hd, Hp.
  assert (G : forall e' w'',
             DEFAULT_DOMAIN_CONFIG w'' =
               DEFAULT_DOMAIN_CONFIG w ++ [normalizeDomain raw] ->
             sync_storage w'' = None \/ storage_get_fails e' = true ->
             exists current,
               loaded_view e' w'' = Ok current
               /\ In (normalizeDomain raw) current).
  { intros e' w'' Hsame Hk'.
    exists (DEFAULT_DOMAIN_CONFIG w''). split.
    - apply (loaded_view_run e' w'' TheDefault (L e' w'' Hk')).
    - rewrite Hsame. apply in_or_app. right. now left. }
  destruct (storage_set_fails e); cbn.
  - split; [reflexivity|]. split; [reflexivity|]. exact G.
  - split; [reflexivity|]. split; [discriminate|]. exact G.
Qed.

Lemma default_config_shared_and_mutated_witness :
  let e := mkEnv false false Granted in
  let w := initial_world None in
  let w' := world_after (addCustomDomain e "Docs.Example.com") w in
  (* the save went through, then the key was removed from the storage *)
  let w'' := mkWorld (DEFAULT_DOMAIN_CONFIG w') None (granted_origins w') in
  sync_storage w' = Some (serialize ["docs.example.com"])
  /\ DEFAULT_DOMAIN_CONFIG w' = ["docs.example.com"]
  /\ exists current,
       loaded_view (all_ok Denied) w'' = Ok current
       /\ In "docs.example.com" current.
Proof.
  cbv zeta.
  destruct default_config_shared_and_mutated as (_ & H & _).
  specialize (H (mkEnv false false Granted) (initial_world None)
                "Docs.Example.com" (or_introl eq_refl)).
  assert (Hv : validateDomain (normalizeDomain "Docs.Example.com") = true)
    by (vm_compute; reflexivity).
  assert (Hb : ~ In (normalizeDomain "Docs.Example.com") DEFAULT_DOMAINS).
  { vm_compute. intros [F|[F|[F|[F|[F|[F|[]]]]]]]; discriminate F. }
  assert (Hd : ~ In (normalizeDomain "Docs.Example.com")
                 (DEFAULT_DOMAIN_CONFIG (initial_world None)))
    by (intros []).
  specialize (H Hv Hb Hd eq_refl). cbv zeta in H.
  destruct H as (Hpush & _ & Hlater).
  split; [vm_compute; reflexivity|]. split; [exact Hpush|].
  apply (Hlater (all_ok Denied)); [reflexivity | left; reflexivity].
Defined.

(** C4 (the code departs from it).  In a new module with nothing stored,
    an add of example.com whose grant is given and whose write is
    rejected leaves the key absent; yet the next load, whether its read
    succeeds or fails, shows [example.com] and not the empty list, and a
    second add of the same domain is turned down as already existing.
    Likewise after a first add that succeeded and a remove that emptied
    the stored list again: a load whose read fails shows [example.com]. *)
Theorem loadDomainConfig_default_polluted :
  let w0 := initial_world None in
  let w1 := world_after
              (addCustomDomain (mkEnv false true Granted) "example.com") w0 in
  let w2 := run_ops [ (all_ok Granted, Add "example.com");
                      (all_ok Granted, Remove "example.com") ] w0 in
  loaded_view (all_ok Granted) w0 = Ok []
  /\ result_of (addCustomDomain (mkEnv false true Granted) "example.com") w0
     = Throw StorageError
  /\ sync_storage w1 = None
  /\ loaded_view (all_ok Granted) w1 = Ok ["example.com"]
  /\ loaded_view (mkEnv true false Granted) w1 = Ok ["example.com"]
  /\ result_of (addCustomDomain (all_ok Granted) "example.com") w1
     = Ok (mkResult false "domain_already_exists")
  /\ sync_storage w2 = Some (serialize [])
  /\ loaded_view (all_ok Granted) w2 = Ok []
  /\ loaded_view (mkEnv true false Granted) w2 = Ok ["example.com"].
Proof. vm_compute. repeat split. Qed.

(* ------------------------------------------------------------------ *)
(** ** Failures of the browser calls *)

(** The seven messages of add and remove. *)
Lemma run_op_outcomes e op w :
  (exists r,
     result_of (run_op e op) w = Ok r
     /\ In (success r, message r)
          [ (false, "invalid_domain_format");
            (false, "domain_already_builtin");
            (false, "domain_already_exists");
            (false, "permission_denied");
            (true, "domain_added");
            (false, "domain_not_found");
            (true, "domain_removed") ])
  \/ (result_of (run_op e op) w = Throw PermissionError
      /\ permission_answer e = RequestFails
      /\ (exists raw, op = Add raw)
      /\ world_after (run_op e op) w = w)
  \/ (result_of (run_op e op) w = Throw StorageError
      /\ storage_set_fails e = true
      /\ (forall raw, op = Add raw -> permission_answer e = Granted)
      /\ sync_storage (world_after (run_op e op) w) = sync_storage w
      /\ exists evs v,
           events_of (run_op e op) w = evs ++ [StorageSet STORAGE_KEY v]).
Proof.
  unfold result_of, world_after, events_of.
  destruct op as [raw|raw]; cbn [run_op].
  - destruct (validateDomain (normalizeDomain raw)) eqn:Hv.
    2:{ unfold addCustomDomain. rewrite Hv. left. eexists.
        split; [reflexivity|]. cbn. tauto. }
    destruct (JS.array_includes DEFAULT_DOMAINS (normalizeDomain raw)) eqn:Hb.
    { unfold addCustomDomain. rewrite Hv, Hb. left. eexists.
      split; [reflexivity|]. cbn. tauto. }
    destruct (loadDomainConfig_total e w) as [config Hl].
    rewrite (addCustomDomain_run e w raw config Hv Hb Hl). cbv zeta.
    match goal with
    | |- context [JS.array_includes ?c ?x] =>
        destruct (JS.array_includes c x)
    end.
    { left. eexists. split; [reflexivity|]. cbn. tauto. }
    destruct (permission_answer e) eqn:Hp.
    + destruct (storage_set_fails e) eqn:Hs.
      * right. right. cbn. repeat split.
        exists [StorageGet STORAGE_KEY;
                PermissionsRequest (domainToUrlPatterns (normalizeDomain raw))].
        eexists. reflexivity.
      * left. eexists. split; [reflexivity|]. cbn. tauto.
    + left. eexists. split; [reflexivity|]. cbn. tauto.
    + right. left. cbn. repeat split. now exists raw.
  - destruct (loadDomainConfig_total e w) as [config Hl].
    rewrite (removeCustomDomain_run e w raw config Hl). cbv zeta.
    match goal with
    | |- context [(?i =? -1)%Z] => destruct (i =? -1)%Z
    end.
    { left. eexists. split; [reflexivity|]. cbn. tauto. }
    destruct (storage_set_fails e) eqn:Hs.
    + right. right. cbn. repeat split; [discriminate|].
      exists [StorageGet STORAGE_KEY]. eexists. reflexivity.
    + left. eexists. split; [reflexivity|]. cbn. tauto.
Qed.

Lemma loadDomains_total e' pw :
  exists s ev, loadDomains e' pw = (Ok tt, s, ev).
Proof.
  destruct pw as [p w].
  destruct (loadDomainConfig_total e' w) as [config Hl].
  unfold loadDomains, try_catch, bind, in_world, set_customDomains,
    page_update. cbn [fst snd]. rewrite Hl. cbn. eauto.
Qed.

(** What the add handler leaves when addCustomDomain throws. *)
Lemma handleAddDomain_on_throw e e2 t p w x :
  truthy (trim (newDomain_value p)) = true ->
  validateDomain (newDomain_value p) = true ->
  result_of (addCustomDomain e (newDomain_value p)) w = Throw x ->
  handleAddDomain e e2 t (p, w) =
    (Ok tt,
     (mkPage (customDomains_value p) (newDomain_value p) false
             (Some (t "domains.error.unknown")) None,
      world_after (addCustomDomain e (newDomain_value p)) w),
     events_of (addCustomDomain e (newDomain_value p)) w).
Proof.
  unfold result_of, world_after, events_of. intros Ht Hv Hx.
  unfold handleAddDomain, bind, page_read, finally, try_catch, in_world,
    set_loading, set_error, set_success, page_update.
  cbn [fst snd newDomain_value]. rewrite Ht, Hv. cbn.
  destruct (addCustomDomain e (newDomain_value p) w) as [[r w'] ev].
  cbn in Hx. subst r. cbn. now rewrite !app_nil_r.
Qed.

Lemma handleRemoveDomain_on_throw e e2 t domain p w x :
  result_of (removeCustomDomain e domain) w = Throw x ->
  handleRemoveDomain e e2 t domain (p, w) =
    (Ok tt,
     (mkPage (customDomains_value p) (newDomain_value p) false
             (Some (t "domains.error.unknown")) None,
      world_after (removeCustomDomain e domain) w),
     events_of (removeCustomDomain e domain) w).
Proof.
  unfold result_of, world_after, events_of. intros Hx.
  unfold handleRemoveDomain, bind, finally, try_catch, in_world,
    set_loading, set_error, set_success, page_update.
  cbn.
  destruct (removeCustomDomain e domain w) as [[r w'] ev].
  cbn in Hx. subst r. cbn. now rewrite !app_nil_r.
Qed.

Lemma handleAddDomain_total e e2 t pw :
  exists s ev, handleAddDomain e e2 t pw = (Ok tt, s, ev).
Proof.
  destruct pw as [p w].
  unfold handleAddDomain, bind, page_read, finally, try_catch, in_world,
    set_loading, set_error, set_success, set_newDomain, page_update.
  cbn [fst snd newDomain_value].
  destruct (truthy (trim (newDomain_value p))); cbn; [|eauto].
  destruct (validateDomain (newDomain_value p)); cbn; [|eauto].
  destruct (addCustomDomain e (newDomain_value p) w) as [[[r|x] w'] ev];
    cbn; [|eauto].
  destruct (success r); cbn; [|eauto].
  match goal with
  | |- context [loadDomains e2 ?s] =>
      destruct (loadDomains_total e2 s) as (s' & ev' & ->)
  end.
  eauto.
Qed.

Lemma handleRemoveDomain_total e e2 t domain pw :
  exists s ev, handleRemoveDomain e e2 t domain pw = (Ok tt, s, ev).
Proof.
  destruct pw as [p w].
  unfold handleRemoveDomain, bind, finally, try_catch, in_world,
    set_loading, set_error, set_success, page_update.
  cbn [fst snd].
  destruct (removeCustomDomain e domain w) as [[[r|x] w'] ev];
    cbn; [|eauto].
  destruct (success r); cbn; [|eauto].
  match goal with
  | |- context [loadDomains e2 ?s] =>
      destruct (loadDomains_total e2 s) as (s' & ev' & ->)
  end.
  eauto.
Qed.

(** C1, as stated, fails: a rejected write makes add and remove throw,
    and so does a rejected permission request for add; neither answers
    a result whose reason is [unknown]. *)
Lemma add_remove_failures_escape :
  result_of (addCustomDomain (mkEnv false true Granted) "example.com")
            (initial_world None)
  = Throw StorageError
  /\ result_of (addCustomDomain (mkEnv false false RequestFails) "example.com")
               (initial_world None)
     = Throw PermissionError
  /\ result_of (removeCustomDomain (mkEnv false true Granted) "a.example.com")
               (initial_world (Some (serialize ["a.example.com"])))
     = Throw StorageError.
Proof. vm_compute. repeat split. Qed.

(** C1, amended.  addCustomDomain and removeCustomDomain answer a
    structured result, with one of their seven messages (never
    [unknown]), unless chrome.permissions.request or the storage write
    is rejected; a failing storage read never escapes.  When the request
    is rejected (add only) or the write is rejected, the exception
    reaches the caller: PermissionError with the world untouched, or
    StorageError with the stored value untouched and the write as the
    last call.  The callers on the options page, handleAddDomain and
    handleRemoveDomain, never throw; when the operation they call throws
    they show the [domains.error.unknown] message and clear the loading
    flag. *)
Theorem add_remove_result_or_rethrow :
  forall e op w,
    ((exists r,
        result_of (run_op e op) w = Ok r
        /\ In (success r, message r)
             [ (false, "invalid_domain_format");
               (false, "domain_already_builtin");
               (false, "domain_already_exists");
               (false, "permission_denied");
               (true, "domain_added");
               (false, "domain_not_found");
               (true, "domain_removed") ])
     \/ (result_of (run_op e op) w = Throw PermissionError
         /\ permission_answer e = RequestFails
         /\ (exists raw, op = Add raw)
         /\ world_after (run_op e op) w = w)
     \/ (result_of (run_op e op) w = Throw StorageError
         /\ storage_set_fails e = true
         /\ (forall raw, op = Add raw -> permission_answer e = Granted)
         /\ sync_storage (world_after (run_op e op) w) = sync_storage w
         /\ exists evs v,
              events_of (run_op e op) w = evs ++ [StorageSet STORAGE_KEY v]))
    /\ (permission_answer e <> RequestFails ->
        storage_set_fails e = false ->
        exists r, result_of (run_op e op) w = Ok r)
    /\ (forall e2 t p,
          (exists s ev, handleAddDomain e e2 t (p, w) = (Ok tt, s, ev))
          /\ (forall domain,
                exists s ev,
                  handleRemoveDomain e e2 t domain (p, w) = (Ok tt, s, ev))
          /\ (forall x,
                truthy (trim (newDomain_value p)) = true ->
                validateDomain (newDomain_value p) = true ->
                result_of (addCustomDomain e (newDomain_value p)) w
                = Throw x ->
                exists w' ev,
                  handleAddDomain e e2 t (p, w) =
                    (Ok tt,
                     (mkPage (customDomains_value p) (newDomain_value p)
                             false (Some (t "domains.error.unknown")) None,
                      w'),
                     ev))
          /\ (forall x domain,
                result_of (removeCustomDomain e domain) w = Throw x ->
                exists w' ev,
                  handleRemoveDomain e e2 t domain (p, w) =
                    (Ok tt,
                     (mkPage (customDomains_value p) (newDomain_value p)
                             false (Some (t "domains.error.unknown")) None,
                      w'),
                     ev))).
Proof.
  intros e op w. split; [apply run_op_outcomes|]. split.
  - intros Hp Hs.
    destruct (run_op_outcomes e op w)
      as [(r & Hr & _)|[(_ & Hp' & _)|(_ & Hs' & _)]];
      [eauto | contradiction | congruence].
  - intros e2 t p. split; [apply handleAddDomain_total|].
    split; [intros domain; apply handleRemoveDomain_total|]. split.
    + intros x Ht Hv Hx. do 2 eexists.
      apply (handleAddDomain_on_throw e e2 t p w x Ht Hv Hx).
    + intros x domain Hx. do 2 eexists.
      apply (handleRemoveDomain_on_throw e e2 t domain p w x Hx).
Qed.

Lemma add_remove_result_or_rethrow_witness :
  permission_answer (all_ok Denied) <> RequestFails
  /\ storage_set_fails (all_ok Denied) = false
  /\ (exists r,
        result_of (run_op (all_ok Denied) (Add "example.com"))
                  (initial_world None) = Ok r)
  /\ exists w' ev,
       handleAddDomain (mkEnv false true Granted) (all_ok Granted)
         (fun key => key)
         (mkPage TheDefault "example.com" false None None,
          initial_world None)
       = (Ok tt,
          (mkPage TheDefault "example.com" false
                  (Some "domains.error.unknown") None, w'),
          ev).
Proof.
  assert (Hp : permission_answer (all_ok Denied) <> RequestFails)
    by discriminate.
  split; [exact Hp|]. split; [reflexivity|]. split.
  - exact (proj1 (proj2 (add_remove_result_or_rethrow
                           (all_ok Denied) (Add "example.com")
                           (initial_world None))) Hp eq_refl).
  - destruct (add_remove_result_or_rethrow
                (mkEnv false true Granted) (Add "example.com")
                (initial_world None)) as (_ & _ & H).
    destruct (H (all_ok Granted) (fun key => key)
                (mkPage TheDefault "example.com" false None None))
      as (_ & _ & Hadd & _).
    apply (Hadd StorageError); vm_compute; reflexivity.
Defined.

(* ================================================================== *)
(** * Further properties of the code *)

(* ------------------------------------------------------------------ *)
(** ** validateDomain and normalizeDomain *)

Section ValidatorFacts.

Import Regex.

Lemma trim_normalizeDomain s : trim (normalizeDomain s) = normalizeDomain s.
Proof.
  unfold normalizeDomain. now rewrite trim_toLowerCase, trim_idem.
Qed.

(** X1. normalizeDomain yields a canonical form: normalizing, trimming or
    lower-casing its result once more changes nothing, for every input
    string, valid or not. *)
Theorem normalizeDomain_canonical :
  forall s,
    normalizeDomain (normalizeDomain s) = normalizeDomain s
    /\ trim (normalizeDomain s) = normalizeDomain s
    /\ toLowerCase (normalizeDomain s) = normalizeDomain s.
Proof.
  intros s. split; [apply normalizeDomain_idem|].
  split; [apply trim_normalizeDomain | apply normalizeDomain_lower].
Qed.

Lemma deriv_case_blind r c :
  classes_satisfy case_blind r -> deriv (lowerChar c) r = deriv c r.
Proof.
  induction r as [| |items|r1 IH1 r2 IH2|r1 IH1 r2 IH2|r1 IH1]; simpl;
    intros H; try reflexivity.
  - now rewrite (H c).
  - destruct H as [H1 H2]. now rewrite IH1, IH2.
  - destruct H as [H1 H2]. now rewrite IH1, IH2.
  - now rewrite IH1.
Qed.

Lemma classes_satisfy_cat P r1 r2 :
  classes_satisfy P r1 -> classes_satisfy P r2 ->
  classes_satisfy P (cat r1 r2).
Proof.
  intros H1 H2. destruct r1, r2; simpl in *; auto.
Qed.

Lemma classes_satisfy_alt P r1 r2 :
  classes_satisfy P r1 -> classes_satisfy P r2 ->
  classes_satisfy P (alt r1 r2).
Proof.
  intros H1 H2. destruct r1, r2; simpl in *; auto.
Qed.

Lemma classes_satisfy_deriv P r c :
  classes_satisfy P r -> classes_satisfy P (deriv c r).
Proof.
  induction r as [| |items|r1 IH1 r2 IH2|r1 IH1 r2 IH2|r1 IH1]; simpl;
    intros H; auto.
  - now destruct (class_has items c).
  - destruct H as [H1 H2]. apply classes_satisfy_alt.
    + apply classes_satisfy_cat; auto.
    + destruct (nullable r1); simpl; auto.
  - destruct H as [H1 H2]. apply classes_satisfy_alt; auto.
  - apply classes_satisfy_cat; simpl; auto.
Qed.

Lemma test_case_blind r s :
  classes_satisfy case_blind r -> test r (toLowerCase s) = test r s.
Proof.
  revert r. induction s as [|c s IH]; intros r H; simpl; [reflexivity|].
  rewrite (deriv_case_blind r c H). apply IH.
  now apply classes_satisfy_deriv.
Qed.

Lemma domainRegex_case_blind :
  classes_satisfy case_blind DomainRegex.domainRegex.
Proof.
  repeat split; intros c;
    destruct c as [[] [] [] [] [] [] [] []]; vm_compute; reflexivity.
Qed.

Lemma prefix_toLowerCase p s :
  Forall case_fixed (list_ascii_of_string p) ->
  prefix p (toLowerCase s) = prefix p s.
Proof.
  revert s. induction p as [|a p IH]; intros s H.
  - destruct s; reflexivity.
  - inversion H as [|a' l' Ha Hp]; subst.
    destruct s as [|c s]; simpl; [reflexivity|].
    destruct (ascii_dec a (lowerChar c)) as [E|N];
      destruct (ascii_dec a c) as [E'|N'].
    + now apply IH.
    + exfalso. apply N'. symmetry. apply Ha. now symmetry.
    + exfalso. apply N. subst c. symmetry. now apply Ha.
    + reflexivity.
Qed.

Lemma includes_toLowerCase p s :
  Forall case_fixed (list_ascii_of_string p) ->
  includes (toLowerCase s) p = includes s p.
Proof.
  intros H. induction s as [|c s IH].
  - reflexivity.
  - cbn [includes toLowerCase].
    change (String (lowerChar c) (toLowerCase s))
      with (toLowerCase (String c s)).
    now rewrite (prefix_toLowerCase p (String c s) H), IH.
Qed.

Lemma case_fixed_slash : case_fixed "/".
Proof.
  intros c. split; [|now intros ->].
  destruct c as [[] [] [] [] [] [] [] []]; vm_compute; intros H;
    try reflexivity; discriminate H.
Qed.

Lemma case_fixed_colon : case_fixed ":".
Proof.
  intros c. split; [|now intros ->].
  destruct c as [[] [] [] [] [] [] [] []]; vm_compute; intros H;
    try reflexivity; discriminate H.
Qed.

Lemma truthy_toLowerCase s : truthy (toLowerCase s) = truthy s.
Proof. now destruct s. Qed.

(** Of the code units below 256 that a string is made of here: the
    lower-case form of a trimmed string passes validateDomain exactly when
    the string does. *)
Lemma validateDomain_of_trimmed t :
  trim t = t ->
  validateDomain (toLowerCase t) = validateDomain t.
Proof.
  intros Ht. unfold validateDomain.
  rewrite trim_toLowerCase, Ht, truthy_toLowerCase.
  rewrite (includes_toLowerCase "://" t)
    by (simpl; auto using case_fixed_colon, case_fixed_slash).
  rewrite (includes_toLowerCase "/" t)
    by (simpl; auto using case_fixed_slash).
  now rewrite (test_case_blind _ t domainRegex_case_blind).
Qed.

Lemma validateDomain_trim d : validateDomain (trim d) = validateDomain d.
Proof. unfold validateDomain. now rewrite trim_idem. Qed.

(** What validateDomain accepts, it accepts in normalized form. *)
Lemma validateDomain_normalized d :
  validateDomain d = true -> validateDomain (normalizeDomain d) = true.
Proof.
  intros Hv. unfold normalizeDomain.
  rewrite (validateDomain_of_trimmed (trim d) (trim_idem d)).
  now rewrite validateDomain_trim.
Qed.

(** X2. An input that validateDomain accepts is still accepted once
    normalized, so what passes the check the options page makes on the
    raw text passes the check add makes on the normalized domain; and
    validateDomain gives an input and its trimmed form the same
    verdict. *)
Theorem validateDomain_normalizeDomain :
  forall d,
    (validateDomain d = true -> validateDomain (normalizeDomain d) = true)
    /\ validateDomain (trim d) = validateDomain d.
Proof.
  intros d. split; [apply validateDomain_normalized|].
  apply validateDomain_trim.
Qed.

Lemma validateDomain_normalizeDomain_witness :
  validateDomain "  Docs.Example.COM " = true
  /\ normalizeDomain "  Docs.Example.COM " = "docs.example.com"
  /\ validateDomain (normalizeDomain "  Docs.Example.COM ") = true
  /\ validateDomain (trim "  Docs.Example.COM ") = true.
Proof.
  assert (Hv : validateDomain "  Docs.Example.COM " = true)
    by (vm_compute; reflexivity).
  split; [exact Hv|]. split; [vm_compute; reflexivity|]. split.
  - exact (proj1 (validateDomain_normalizeDomain "  Docs.Example.COM ") Hv).
  - rewrite (proj2 (validateDomain_normalizeDomain "  Docs.Example.COM ")).
    exact Hv.
Defined.

End ValidatorFacts.

Section ValidatorShape.

Import Regex.

Lemma all_chars_app p s1 s2 :
  all_chars p (s1 ++ s2) = all_chars p s1 && all_chars p s2.
Proof.
  induction s1 as [|c s1 IH]; simpl; [reflexivity|].
  now rewrite IH, andb_assoc.
Qed.

Lemma Matches_all_chars p r s :
  classes_satisfy (within p) r -> Matches r s -> all_chars p s = true.
Proof.
  intros Hr Hm. induction Hm; simpl in *; try reflexivity.
  - now rewrite (Hr c H).
  - destruct Hr as [H1 H2]. rewrite all_chars_app.
    now rewrite IHHm1, IHHm2.
  - apply IHHm, Hr.
  - apply IHHm, Hr.
  - rewrite all_chars_app. now rewrite IHHm1, IHHm2.
Qed.

Lemma Matches_Class_inv items s :
  Matches (Class items) s ->
  exists c, s = String c "" /\ class_has items c = true.
Proof. intros H. inversion H; subst. eauto. Qed.

Lemma domainRegex_host_chars :
  classes_satisfy (within isHostChar) DomainRegex.domainRegex.
Proof.
  repeat split; intros c;
    destruct c as [[] [] [] [] [] [] [] []]; vm_compute; intros H;
      try reflexivity; discriminate H.
Qed.

Lemma Matches_domainRegex_shape s :
  Matches DomainRegex.domainRegex s ->
  exists c rest tld,
    s = (String c rest ++ "." ++ tld)%string
    /\ isAlnum c = true
    /\ 2 <= String.length tld
    /\ all_chars isLetter tld = true.
Proof.
  unfold DomainRegex.domainRegex, DomainRegex.label, AtLeast2. intros H.
  apply Matches_Cat_inv in H as (s1 & s234 & -> & H1 & H).
  apply Matches_Cat_inv in H as (s2 & s34 & -> & H2 & H).
  apply Matches_Cat_inv in H as (s3 & s4 & -> & H3 & H4).
  apply Matches_Cat_inv in H1 as (a & s1' & -> & Ha & _).
  apply Matches_Class_inv in Ha as (c & -> & Hc).
  apply Matches_Class_inv in H3 as (dt & -> & Hdot).
  assert (dt = "."%char) as ->.
  { unfold DomainRegex.dot, class_has in Hdot. simpl in Hdot.
    rewrite orb_false_r in Hdot. now apply Ascii.eqb_eq in Hdot. }
  apply Matches_Cat_inv in H4 as (t1 & t23 & -> & Ht1 & H4).
  apply Matches_Cat_inv in H4 as (t2 & t3 & -> & Ht2 & Ht3).
  apply Matches_Class_inv in Ht1 as (x & -> & Hx).
  apply Matches_Class_inv in Ht2 as (y & -> & Hy).
  assert (Hrest : all_chars isLetter t3 = true).
  { apply (Matches_all_chars isLetter (Star DomainRegex.alpha)); [|exact Ht3].
    intros z Hz. exact Hz. }
  exists c, (s1' ++ s2)%string, (String x (String y t3)).
  split; [|split; [exact Hc|split]].
  - simpl. f_equal. clear. induction s1' as [|z s1' IH]; simpl;
      [reflexivity | now rewrite IH].
  - simpl. lia.
  - assert (Lx : isLetter x = true) by exact Hx.
    assert (Ly : isLetter y = true) by exact Hy.
    cbn [all_chars]. now rewrite Lx, Ly, Hrest.
Qed.

Lemma includes_excluded p s a q :
  all_chars p s = true -> p a = false -> includes s (String a q) = false.
Proof.
  intros Hs Ha. induction s as [|c s IH]; [reflexivity|].
  simpl in Hs. apply andb_true_iff in Hs as [Hc Hs].
  cbn [includes]. rewrite (IH Hs), orb_false_r. simpl.
  destruct (ascii_dec a c) as [->|_]; [congruence | reflexivity].
Qed.

(** X3. What a valid domain looks like: once trimmed it is written with ASCII
    letters, digits, hyphens and dots only (so no blank, colon or slash),
    begins with a letter or a digit, and ends with a dot followed by a
    last label of at least two letters. *)
Theorem validateDomain_shape :
  forall d,
    validateDomain d = true ->
    all_chars isHostChar (trim d) = true
    /\ exists c rest tld,
         trim d = (String c rest ++ "." ++ tld)%string
         /\ isAlnum c = true
         /\ 2 <= String.length tld
         /\ all_chars isLetter tld = true.
Proof.
  intros d H. apply validateDomain_iff in H as (_ & _ & _ & Hm). split.
  - apply (Matches_all_chars _ _ _ domainRegex_host_chars Hm).
  - now apply Matches_domainRegex_shape.
Qed.

Lemma validateDomain_shape_witness :
  validateDomain " Docs.Example-1.com " = true
  /\ all_chars isHostChar (trim " Docs.Example-1.com ") = true
  /\ exists c rest tld,
       trim " Docs.Example-1.com " = (String c rest ++ "." ++ tld)%string
       /\ 2 <= String.length tld.
Proof.
  assert (H : validateDomain " Docs.Example-1.com " = true)
    by (vm_compute; reflexivity).
  split; [exact H|].
  destruct (validateDomain_shape _ H) as (Hc & c & rest & tld & E & _ & L & _).
  split; [exact Hc|]. exists c, rest, tld. split; [exact E | exact L].
Defined.

(** X4. The verdict of validateDomain is the verdict of domainRegex on the
    trimmed input: the three earlier tests (empty, contains [://],
    contains [/]) never reject an input that the expression would
    accept. *)
Theorem validateDomain_is_regex_test :
  forall d,
    validateDomain d = Regex.test DomainRegex.domainRegex (trim d).
Proof.
  intros d. destruct (test DomainRegex.domainRegex (trim d)) eqn:Et.
  - apply validateDomain_iff. apply test_Matches in Et.
    pose proof (Matches_all_chars _ _ _ domainRegex_host_chars Et) as Hc.
    split; [|split; [|split]].
    + intros E. rewrite E in Et. apply test_Matches in Et.
      vm_compute in Et. discriminate Et.
    + apply (includes_excluded isHostChar); [exact Hc | reflexivity].
    + apply (includes_excluded isHostChar); [exact Hc | reflexivity].
    + exact Et.
  - unfold validateDomain. rewrite Et.
    now destruct (negb (truthy (trim d)) || includes (trim d) "://"
                  || includes (trim d) "/").
Qed.

End ValidatorShape.

(* ------------------------------------------------------------------ *)
(** ** What a completed add or remove leaves behind *)

Section AddRemoveFacts.

Lemma splice1_cons y rest i :
  (0 <= i)%Z ->
  JS.splice1 (y :: rest) (i + 1) = y :: JS.splice1 rest i.
Proof.
  intros Hi. unfold JS.splice1.
  replace (Z.to_nat (i + 1)) with (S (Z.to_nat i)) by lia. reflexivity.
Qed.

(** [splice(indexOf(x), 1)] takes out the first [x] and nothing else. *)
Lemma splice1_indexOf l x :
  In x l ->
  exists l1 l2,
    l = l1 ++ x :: l2 /\ ~ In x l1
    /\ JS.splice1 l (JS.indexOf l x) = l1 ++ l2.
Proof.
  induction l as [|y rest IH]; intros Hin; [destruct Hin|].
  cbn [JS.indexOf]. destruct (String.eqb y x) eqn:E.
  - apply String.eqb_eq in E. subst y.
    exists [], rest. repeat split. intros [].
  - apply String.eqb_neq in E. destruct Hin as [Hin|Hin]; [congruence|].
    destruct (IH Hin) as (l1 & l2 & Hl & Hn & Hs).
    assert (Hi : JS.indexOf rest x <> (-1)%Z).
    { intros F. apply indexOf_minus1 in F. contradiction. }
    apply Z.eqb_neq in Hi. rewrite Hi. apply Z.eqb_neq in Hi.
    exists (y :: l1), l2. split; [now rewrite Hl|]. split.
    + intros [F|F]; [congruence | contradiction].
    + rewrite splice1_cons by (destruct (indexOf_range rest x); lia).
      now rewrite Hs.
Qed.

Lemma splice1_indexOf_last l x :
  ~ In x l -> JS.splice1 (l ++ [x]) (JS.indexOf (l ++ [x]) x) = l.
Proof.
  intros Hn.
  destruct (splice1_indexOf (l ++ [x]) x) as (l1 & l2 & Hl & Hn1 & ->).
  { apply in_or_app. right. now left. }
  revert l1 Hl Hn1. induction l as [|y l IH]; intros l1 Hl Hn1.
  - destruct l1 as [|z l1]; simpl in Hl.
    + now injection Hl as <-.
    + injection Hl as <- Hl. destruct l1; discriminate Hl.
  - destruct l1 as [|z l1]; simpl in Hl.
    + injection Hl as -> _. elim Hn. now left.
    + injection Hl as <- Hl. simpl. f_equal. apply IH; auto.
      * intros F. apply Hn. now right.
      * intros F. apply Hn1. now right.
Qed.

Lemma filter_valid_push l x :
  validateDomain x = true ->
  filter validateDomain (l ++ [x]) = filter validateDomain l ++ [x].
Proof. intros H. rewrite filter_app. simpl. now rewrite H. Qed.

Lemma filter_filter_valid l :
  filter validateDomain (filter validateDomain l) = filter validateDomain l.
Proof.
  apply forallb_filter_id. apply forallb_forall.
  intros d Hd. now apply filter_In in Hd.
Qed.

(** Everything that is true when add answers success. *)
Lemma addCustomDomain_success_inv e w raw current r :
  loaded_view e w = Ok current ->
  result_of (addCustomDomain e raw) w = Ok r ->
  success r = true ->
  let n := normalizeDomain raw in
  validateDomain n = true
  /\ ~ In n DEFAULT_DOMAINS
  /\ ~ In n current
  /\ permission_answer e = Granted
  /\ storage_set_fails e = false
  /\ addCustomDomain e raw w =
       (Ok (mkResult true "domain_added"),
        mkWorld (DEFAULT_DOMAIN_CONFIG
                   (world_after (addCustomDomain e raw) w))
                (Some (serialize (current ++ [n])))
                (granted_origins w ++ domainToUrlPatterns n),
        [ StorageGet STORAGE_KEY;
          PermissionsRequest (domainToUrlPatterns n);
          StorageSet STORAGE_KEY (serialize (current ++ [n])) ]).
Proof.
  intros Hview Hr Hs. cbv zeta. revert Hr. unfold result_of, world_after.
  destruct (validateDomain (normalizeDomain raw)) eqn:Hv.
  2:{ unfold addCustomDomain. rewrite Hv. cbn. intros [= <-]. discriminate. }
  destruct (JS.array_includes DEFAULT_DOMAINS (normalizeDomain raw)) eqn:Hb.
  { unfold addCustomDomain. rewrite Hv, Hb. cbn. intros [= <-]. discriminate. }
  destruct (loadDomainConfig_total e w) as [config Hl].
  rewrite (loaded_view_run e w config Hl) in Hview. injection Hview as Hc.
  rewrite (addCustomDomain_run e w raw config Hv Hb Hl). cbv zeta.
  rewrite Hc.
  destruct (JS.array_includes current (normalizeDomain raw)) eqn:Hin.
  { cbn. intros [= <-]. discriminate. }
  destruct (permission_answer e); cbn;
    try (intros [= <-]; discriminate); try discriminate.
  destruct (storage_set_fails e); cbn; [discriminate|]. intros _.
  apply array_includes_not_In in Hb, Hin. repeat split; assumption.
Qed.

(** X6. After a successful add the stored list is the list that was loaded
    followed by the normalized domain; a load whose read succeeds shows
    the valid entries of the old list, in their order, and then the new
    domain, which occurs exactly once; both origins of the domain are
    granted. *)
Theorem addCustomDomain_success_appends :
  forall e w raw current r,
    loaded_view e w = Ok current ->
    result_of (addCustomDomain e raw) w = Ok r ->
    success r = true ->
    let n := normalizeDomain raw in
    let w' := world_after (addCustomDomain e raw) w in
    r = mkResult true "domain_added"
    /\ sync_storage w' = Some (serialize (current ++ [n]))
    /\ granted_origins w' = granted_origins w ++ domainToUrlPatterns n
    /\ forall e',
         storage_get_fails e' = false ->
         loaded_view e' w' = Ok (filter validateDomain current ++ [n])
         /\ count_occ string_dec (filter validateDomain current ++ [n]) n = 1.
Proof.
  intros e w raw current r Hview Hr Hs. cbv zeta.
  destruct (addCustomDomain_success_inv e w raw current r Hview Hr Hs)
    as (Hv & _ & Hn & _ & _ & E).
  unfold result_of in Hr. unfold world_after. rewrite E in Hr |- *.
  cbn [fst snd sync_storage granted_origins] in *.
  split; [now injection Hr|]. split; [reflexivity|]. split; [reflexivity|].
  intros e' Eg. split.
  - match goal with
    | |- loaded_view e' ?W = _ =>
        rewrite (loaded_view_run e' W _
                   (loadDomainConfig_serialized e' W
                      (current ++ [normalizeDomain raw]) Eg eq_refl))
    end.
    now rewrite filter_valid_push.
  - rewrite count_occ_app. cbn [count_occ].
    destruct (string_dec (normalizeDomain raw) (normalizeDomain raw));
      [|congruence].
    rewrite (proj1 (count_occ_not_In string_dec _ _)); [reflexivity|].
    intros F. apply filter_In in F. tauto.
Qed.

Lemma addCustomDomain_success_appends_witness :
  let e := all_ok Granted in
  let w := initial_world (Some (serialize ["a.example.com"; "localhost"])) in
  loaded_view e w = Ok ["a.example.com"]
  /\ result_of (addCustomDomain e " B.Example.com") w
     = Ok (mkResult true "domain_added")
  /\ sync_storage (world_after (addCustomDomain e " B.Example.com") w)
     = Some (serialize ["a.example.com"; "b.example.com"]).
Proof.
  cbv zeta.
  assert (Hv : loaded_view (all_ok Granted)
                 (initial_world
                    (Some (serialize ["a.example.com"; "localhost"])))
               = Ok ["a.example.com"]) by (vm_compute; reflexivity).
  assert (Hr : result_of (addCustomDomain (all_ok Granted) " B.Example.com")
                 (initial_world
                    (Some (serialize ["a.example.com"; "localhost"])))
               = Ok (mkResult true "domain_added"))
    by (vm_compute; reflexivity).
  split; [exact Hv|]. split; [exact Hr|].
  exact (proj1 (proj2 (addCustomDomain_success_appends _ _ _ _ _ Hv Hr
                         eq_refl))).
Defined.

(** Past its first check, add has other answers to give. *)
Lemma addCustomDomain_past_format_check raw e w :
  validateDomain (normalizeDomain raw) = true ->
  forall r, result_of (addCustomDomain e raw) w = Ok r ->
            message r <> "invalid_domain_format".
Proof.
  intros Hv r. unfold result_of.
  destruct (JS.array_includes DEFAULT_DOMAINS (normalizeDomain raw)) eqn:Hb.
  { unfold addCustomDomain. rewrite Hv, Hb. cbn. intros [= <-].
    discriminate. }
  destruct (loadDomainConfig_total e w) as [config Hl].
  rewrite (addCustomDomain_run e w raw config Hv Hb Hl). cbv zeta.
  match goal with
  | |- context [JS.array_includes ?c ?x] =>
      destruct (JS.array_includes c x)
  end; [cbn; intros [= <-]; discriminate|].
  destruct (permission_answer e); cbn;
    try (intros [= <-]; discriminate); try discriminate.
  destruct (storage_set_fails e); cbn;
    try (intros [= <-]; discriminate); discriminate.
Qed.

(** X5. The first check of add is made on the normalized input.  When
    validateDomain rejects the normalized input, add answers
    [invalid_domain_format] without a browser call and without a change
    of the world; when it accepts the normalized input, add never gives
    that answer; and an input that validateDomain accepts as it was typed
    never gets that answer either. *)
Theorem addCustomDomain_invalid_input :
  forall raw e w,
    (validateDomain (normalizeDomain raw) = false ->
     addCustomDomain e raw w =
       (Ok (mkResult false "invalid_domain_format"), w, []))
    /\ (validateDomain (normalizeDomain raw) = true ->
        forall r, result_of (addCustomDomain e raw) w = Ok r ->
                  message r <> "invalid_domain_format")
    /\ (validateDomain raw = true ->
        forall r, result_of (addCustomDomain e raw) w = Ok r ->
                  message r <> "invalid_domain_format").
Proof.
  intros raw e w. split; [|split].
  - intros Hv. unfold addCustomDomain. rewrite Hv. reflexivity.
  - apply addCustomDomain_past_format_check.
  - intros Hv. apply addCustomDomain_past_format_check.
    now apply validateDomain_normalized.
Qed.

Lemma addCustomDomain_invalid_input_witness :
  validateDomain (normalizeDomain "https://example.com/docs") = false
  /\ addCustomDomain (all_ok Granted) "https://example.com/docs"
       (initial_world None)
     = (Ok (mkResult false "invalid_domain_format"), initial_world None, [])
  /\ validateDomain (normalizeDomain " Example.com") = true
  /\ validateDomain " Example.com" = true
  /\ message (mkResult false "permission_denied") <> "invalid_domain_format".
Proof.
  assert (H0 : validateDomain (normalizeDomain "https://example.com/docs")
               = false)
    by (vm_compute; reflexivity).
  assert (H1 : validateDomain (normalizeDomain " Example.com") = true)
    by (vm_compute; reflexivity).
  assert (H2 : validateDomain " Example.com" = true)
    by (vm_compute; reflexivity).
  split; [exact H0|]. split.
  - exact (proj1 (addCustomDomain_invalid_input _ (all_ok Granted)
                    (initial_world None)) H0).
  - split; [exact H1|]. split; [exact H2|].
    apply (proj2 (proj2 (addCustomDomain_invalid_input " Example.com"
                           (all_ok Denied) (initial_world None))) H2).
    vm_compute. reflexivity.
Defined.

(** The world right after a successful add, read back with a read that
    succeeds. *)
Lemma load_after_success e w raw current r e' :
  loaded_view e w = Ok current ->
  result_of (addCustomDomain e raw) w = Ok r ->
  success r = true ->
  storage_get_fails e' = false ->
  loadDomainConfig e' (world_after (addCustomDomain e raw) w) =
    (Ok (Fresh (filter validateDomain current ++ [normalizeDomain raw])),
     world_after (addCustomDomain e raw) w, [StorageGet STORAGE_KEY]).
Proof.
  intros Hview Hr Hs Eg.
  destruct (addCustomDomain_success_inv e w raw current r Hview Hr Hs)
    as (Hv & _ & _ & _ & _ & E).
  rewrite <- (filter_valid_push _ _ Hv).
  apply loadDomainConfig_serialized; [exact Eg|].
  unfold world_after. rewrite E. reflexivity.
Qed.

(** X7. Adding the same domain again, in whatever spelling normalizes to it,
    right after a successful add and with a read that succeeds, is turned
    down with [domain_already_exists]: no permission request, no write,
    the world stays as the first add left it. *)
Theorem addCustomDomain_twice :
  forall e w raw current r,
    loaded_view e w = Ok current ->
    result_of (addCustomDomain e raw) w = Ok r ->
    success r = true ->
    forall e' raw',
      normalizeDomain raw' = normalizeDomain raw ->
      storage_get_fails e' = false ->
      addCustomDomain e' raw' (world_after (addCustomDomain e raw) w) =
        (Ok (mkResult false "domain_already_exists"),
         world_after (addCustomDomain e raw) w,
         [StorageGet STORAGE_KEY]).
Proof.
  intros e w raw current r Hview Hr Hs e' raw' Hn Eg.
  destruct (addCustomDomain_success_inv e w raw current r Hview Hr Hs)
    as (Hv & Hb & _).
  apply array_includes_not_In in Hb.
  rewrite <- Hn in Hv, Hb.
  rewrite (addCustomDomain_run e' _ raw' _ Hv Hb
             (load_after_success e w raw current r e' Hview Hr Hs Eg)).
  cbv zeta. rewrite Hn.
  replace (JS.array_includes
             (filter validateDomain current ++ [normalizeDomain raw])
             (normalizeDomain raw)) with true; [reflexivity|].
  symmetry. apply array_includes_In, in_or_app. right. now left.
Qed.

Lemma addCustomDomain_twice_witness :
  let e := all_ok Granted in
  let w := initial_world None in
  let w' := world_after (addCustomDomain e "docs.example.com") w in
  loaded_view e w = Ok []
  /\ result_of (addCustomDomain e "docs.example.com") w
     = Ok (mkResult true "domain_added")
  /\ addCustomDomain e " DOCS.example.com " w' =
       (Ok (mkResult false "domain_already_exists"), w',
        [StorageGet STORAGE_KEY]).
Proof.
  cbv zeta.
  assert (Hv : loaded_view (all_ok Granted) (initial_world None) = Ok [])
    by reflexivity.
  assert (Hr : result_of (addCustomDomain (all_ok Granted) "docs.example.com")
                 (initial_world None)
               = Ok (mkResult true "domain_added"))
    by (vm_compute; reflexivity).
  split; [exact Hv|]. split; [exact Hr|].
  apply (addCustomDomain_twice _ _ _ _ _ Hv Hr eq_refl);
    vm_compute; reflexivity.
Defined.

(** X8. Removing a domain right after it was added, with a read and a write
    that succeed, answers [domain_removed] and stores the valid entries
    of the list that was loaded before the add, in their order: the
    domain is gone.  The origins granted for it stay granted. *)
Theorem add_then_remove_round_trip :
  forall e w raw current r,
    loaded_view e w = Ok current ->
    result_of (addCustomDomain e raw) w = Ok r ->
    success r = true ->
    forall e' raw',
      normalizeDomain raw' = normalizeDomain raw ->
      storage_get_fails e' = false ->
      storage_set_fails e' = false ->
      let w' := world_after (addCustomDomain e raw) w in
      let w'' := world_after (removeCustomDomain e' raw') w' in
      result_of (removeCustomDomain e' raw') w'
      = Ok (mkResult true "domain_removed")
      /\ sync_storage w'' = Some (serialize (filter validateDomain current))
      /\ ~ In (normalizeDomain raw) (filter validateDomain current)
      /\ granted_origins w'' = granted_origins w'
      /\ forall e'', storage_get_fails e'' = false ->
           loaded_view e'' w'' = Ok (filter validateDomain current).
Proof.
  intros e w raw current r Hview Hr Hs e' raw' Hn Eg Es. cbv zeta.
  destruct (addCustomDomain_success_inv e w raw current r Hview Hr Hs)
    as (_ & _ & Hnot & _).
  assert (Hnf : ~ In (normalizeDomain raw) (filter validateDomain current)).
  { intros F. apply filter_In in F. tauto. }
  pose proof (load_after_success e w raw current r e' Hview Hr Hs Eg) as Hl.
  set (w' := world_after (addCustomDomain e raw) w) in *.
  assert (E2 : removeCustomDomain e' raw' w' =
               (Ok (mkResult true "domain_removed"),
                mkWorld (DEFAULT_DOMAIN_CONFIG w')
                        (Some (serialize (filter validateDomain current)))
                        (granted_origins w'),
                [ StorageGet STORAGE_KEY;
                  StorageSet STORAGE_KEY
                    (serialize (filter validateDomain current)) ])).
  { rewrite (removeCustomDomain_run e' w' raw' _ Hl). cbv zeta.
    rewrite Hn, (splice1_indexOf_last _ _ Hnf), Es.
    replace (JS.indexOf
               (filter validateDomain current ++ [normalizeDomain raw])
               (normalizeDomain raw) =? -1)%Z with false; [reflexivity|].
    symmetry. apply Z.eqb_neq. intros F. apply indexOf_minus1 in F.
    apply F, in_or_app. right. now left. }
  unfold result_of, world_after. rewrite E2.
  cbn [fst snd sync_storage granted_origins].
  split; [reflexivity|]. split; [reflexivity|]. split; [exact Hnf|].
  split; [reflexivity|].
  intros e'' Eg''.
  match goal with
  | |- loaded_view e'' ?W = _ =>
      rewrite (loaded_view_run e'' W _
                 (loadDomainConfig_serialized e'' W
                    (filter validateDomain current) Eg'' eq_refl))
  end.
  now rewrite filter_filter_valid.
Qed.

Lemma add_then_remove_round_trip_witness :
  let e := all_ok Granted in
  let w := initial_world (Some (serialize ["a.example.com"])) in
  let w' := world_after (addCustomDomain e "B.example.com") w in
  let w'' := world_after (removeCustomDomain e "b.example.com ") w' in
  loaded_view e w = Ok ["a.example.com"]
  /\ result_of (addCustomDomain e "B.example.com") w
     = Ok (mkResult true "domain_added")
  /\ sync_storage w'' = Some (serialize ["a.example.com"])
  /\ granted_origins w'' =
       ["https://b.example.com/*"; "https://*.b.example.com/*"].
Proof.
  cbv zeta.
  assert (Hv : loaded_view (all_ok Granted)
                 (initial_world (Some (serialize ["a.example.com"])))
               = Ok ["a.example.com"]) by (vm_compute; reflexivity).
  assert (Hr : result_of (addCustomDomain (all_ok Granted) "B.example.com")
                 (initial_world (Some (serialize ["a.example.com"])))
               = Ok (mkResult true "domain_added"))
    by (vm_compute; reflexivity).
  split; [exact Hv|]. split; [exact Hr|].
  destruct (add_then_remove_round_trip _ _ _ _ _ Hv Hr eq_refl
              (all_ok Granted) "b.example.com "
              ltac:(vm_compute; reflexivity) eq_refl eq_refl)
    as (_ & Hst & _ & Hg & _).
  split; [exact Hst|]. rewrite Hg. vm_compute. reflexivity.
Defined.

End AddRemoveFacts.

Section RemoveFacts.

(** X9. When the normalized input is in the list that remove loads, remove
    takes out its first occurrence and keeps every other entry in place:
    with a write that succeeds it answers [domain_removed] and stores
    the remaining list; with a write that is rejected it throws and the
    stored value stays as it was. *)
Theorem removeCustomDomain_takes_first_occurrence :
  forall e w raw current,
    loaded_view e w = Ok current ->
    In (normalizeDomain raw) current ->
    let n := normalizeDomain raw in
    let w' := world_after (removeCustomDomain e raw) w in
    exists l1 l2,
      current = l1 ++ n :: l2
      /\ ~ In n l1
      /\ (storage_set_fails e = false ->
          result_of (removeCustomDomain e raw) w
          = Ok (mkResult true "domain_removed")
          /\ sync_storage w' = Some (serialize (l1 ++ l2)))
      /\ (storage_set_fails e = true ->
          result_of (removeCustomDomain e raw) w = Throw StorageError
          /\ sync_storage w' = sync_storage w).
Proof.
  intros e w raw current Hview Hin. cbv zeta.
  destruct (splice1_indexOf current _ Hin) as (l1 & l2 & Hc & Hn & Hs).
  exists l1, l2. split; [exact Hc|]. split; [exact Hn|].
  destruct (loadDomainConfig_total e w) as [config Hl].
  rewrite (loaded_view_run e w config Hl) in Hview. injection Hview as Hcur.
  unfold result_of, world_after.
  rewrite (removeCustomDomain_run e w raw config Hl). cbv zeta.
  rewrite Hcur, Hs.
  replace (JS.indexOf current (normalizeDomain raw) =? -1)%Z with false.
  2:{ symmetry. apply Z.eqb_neq. intros F. apply indexOf_minus1 in F.
      contradiction. }
  destruct (storage_set_fails e); cbn; split; intros H;
    try discriminate H; split; reflexivity.
Qed.

Lemma removeCustomDomain_takes_first_occurrence_witness :
  let e := all_ok Denied in
  let w := initial_world
             (Some (serialize ["a.example.com"; "b.example.com";
                               "c.example.com"; "b.example.com"])) in
  loaded_view e w
  = Ok ["a.example.com"; "b.example.com"; "c.example.com"; "b.example.com"]
  /\ In (normalizeDomain "B.example.com")
        ["a.example.com"; "b.example.com"; "c.example.com"; "b.example.com"]
  /\ sync_storage (world_after (removeCustomDomain e "B.example.com") w)
     = Some (serialize ["a.example.com"; "c.example.com"; "b.example.com"])
  /\ exists l1 l2,
       ["a.example.com"; "b.example.com"; "c.example.com"; "b.example.com"]
       = l1 ++ normalizeDomain "B.example.com" :: l2
       /\ sync_storage (world_after (removeCustomDomain e "B.example.com") w)
          = Some (serialize (l1 ++ l2)).
Proof.
  cbv zeta.
  set (w := initial_world
              (Some (serialize ["a.example.com"; "b.example.com";
                                "c.example.com"; "b.example.com"]))).
  assert (Hv : loaded_view (all_ok Denied) w
               = Ok ["a.example.com"; "b.example.com"; "c.example.com";
                     "b.example.com"]) by (vm_compute; reflexivity).
  assert (Hin : In (normalizeDomain "B.example.com")
                  ["a.example.com"; "b.example.com"; "c.example.com";
                   "b.example.com"]) by (vm_compute; tauto).
  split; [exact Hv|]. split; [exact Hin|].
  split; [vm_compute; reflexivity|].
  destruct (removeCustomDomain_takes_first_occurrence
              (all_ok Denied) w "B.example.com" _ Hv Hin)
    as (l1 & l2 & Hc & _ & Hok & _).
  exists l1, l2. split; [exact Hc | exact (proj2 (Hok eq_refl))].
Defined.

(** X10. remove never asks for a permission and never takes one back: on
    every input, in every world and whatever the browser answers, no
    permission request is among its calls and the granted origins are
    the same afterwards. *)
Theorem removeCustomDomain_keeps_permissions :
  forall e w raw,
    existsb is_request (events_of (removeCustomDomain e raw) w) = false
    /\ granted_origins (world_after (removeCustomDomain e raw) w)
       = granted_origins w.
Proof.
  intros e w raw. unfold events_of, world_after.
  destruct (loadDomainConfig_total e w) as [config Hl].
  rewrite (removeCustomDomain_run e w raw config Hl). cbv zeta.
  match goal with
  | |- context [(?i =? -1)%Z] => destruct (i =? -1)%Z
  end; [split; reflexivity|].
  destruct (storage_set_fails e); split; reflexivity.
Qed.

(** X11. Whatever the storage held before (entries that fail validation, a
    value that cannot be decoded, nothing), once an add or a remove has
    answered success the storage holds the stored form of a list whose
    entries all pass validateDomain; the default object is assumed to
    hold valid entries only, which is so in a module that only ran these
    operations. *)
Theorem success_stores_valid_list :
  forall e op w r,
    Forall (fun d => validateDomain d = true) (DEFAULT_DOMAIN_CONFIG w) ->
    result_of (run_op e op) w = Ok r ->
    success r = true ->
    exists l,
      sync_storage (world_after (run_op e op) w) = Some (serialize l)
      /\ Forall (fun d => validateDomain d = true) l.
Proof.
  intros e op w r Hd Hr Hs.
  destruct (loadDomainConfig_total e w) as [config Hl].
  pose proof (loaded_view_run e w config Hl) as Hview.
  assert (Hcur : Forall (fun d => validateDomain d = true)
                   (match config with
                    | TheDefault => DEFAULT_DOMAIN_CONFIG w
                    | Fresh l => l
                    end)).
  { destruct (loadDomainConfig_cases e w)
      as [D|(v & l & _ & _ & _ & Ef & D)];
      rewrite D in Hl; injection Hl as <-; [exact Hd|].
    destruct (JS.prop v "customDomains") as [[| | | |elems|]|];
      try discriminate Ef.
    cbn in Ef. destruct (JS.strings_of elems); [|discriminate Ef].
    injection Ef as <-. apply Forall_forall. intros d Hin.
    now apply filter_In in Hin. }
  destruct op as [raw|raw]; cbn [run_op] in *.
  - destruct (addCustomDomain_success_inv e w raw _ r Hview Hr Hs)
      as (Hv & _ & _ & _ & _ & E).
    eexists. split; [unfold world_after; rewrite E; reflexivity|].
    apply Forall_app. split; [exact Hcur | now constructor].
  - revert Hr. unfold result_of, world_after.
    rewrite (removeCustomDomain_run e w raw config Hl). cbv zeta.
    match goal with
    | |- context [(?i =? -1)%Z] => destruct (i =? -1)%Z
    end.
    { cbn. intros [= <-]. discriminate Hs. }
    destruct (storage_set_fails e); cbn; [discriminate|]. intros _.
    eexists. split; [reflexivity|].
    unfold JS.splice1. now apply Forall_remove_at.
Qed.

Lemma success_stores_valid_list_witness :
  let w := initial_world (Some (JStr "garbage")) in
  Forall (fun d => validateDomain d = true) (DEFAULT_DOMAIN_CONFIG w)
  /\ result_of (run_op (all_ok Granted) (Add "example.com")) w
     = Ok (mkResult true "domain_added")
  /\ exists l,
       sync_storage (world_after (run_op (all_ok Granted) (Add "example.com"))
                                 w)
       = Some (serialize l)
       /\ Forall (fun d => validateDomain d = true) l.
Proof.
  cbv zeta.
  assert (Hd : Forall (fun d => validateDomain d = true)
                 (DEFAULT_DOMAIN_CONFIG (initial_world (Some (JStr "garbage")))))
    by constructor.
  assert (Hr : result_of (run_op (all_ok Granted) (Add "example.com"))
                 (initial_world (Some (JStr "garbage")))
               = Ok (mkResult true "domain_added"))
    by (vm_compute; reflexivity).
  split; [exact Hd|]. split; [exact Hr|].
  exact (success_stores_valid_list _ _ _ _ Hd Hr eq_refl).
Defined.

End RemoveFacts.

(* ------------------------------------------------------------------ *)
(** ** The handlers of the options page *)

Section OptionsPageFacts.

Lemma loadDomains_run e' p w :
  exists config,
    loadDomainConfig e' w = (Ok config, w, [StorageGet STORAGE_KEY])
    /\ loadDomains e' (p, w) =
         (Ok tt,
          (mkPage config (newDomain_value p) (loading_value p)
                  (error_value p) (success_value p), w),
          [StorageGet STORAGE_KEY]).
Proof.
  destruct (loadDomainConfig_total e' w) as [config Hl].
  exists config. split; [exact Hl|].
  unfold loadDomains, try_catch, bind, in_world, set_customDomains,
    page_update. cbn [fst snd]. rewrite Hl. reflexivity.
Qed.

(** The add handler once the operation has answered. *)
Lemma handleAddDomain_on_result e e2 t p w r :
  truthy (trim (newDomain_value p)) = true ->
  validateDomain (newDomain_value p) = true ->
  result_of (addCustomDomain e (newDomain_value p)) w = Ok r ->
  let w1 := world_after (addCustomDomain e (newDomain_value p)) w in
  let ev1 := events_of (addCustomDomain e (newDomain_value p)) w in
  if success r then
    exists config,
      loadDomainConfig e2 w1 = (Ok config, w1, [StorageGet STORAGE_KEY])
      /\ handleAddDomain e e2 t (p, w) =
           (Ok tt,
            (mkPage config "" false None
                    (Some (t "domains.success.added")), w1),
            ev1 ++ [StorageGet STORAGE_KEY])
  else
    handleAddDomain e e2 t (p, w) =
      (Ok tt,
       (mkPage (customDomains_value p) (newDomain_value p) false
               (Some (t ("domains.error." ++ message r)%string)) None, w1),
       ev1).
Proof.
  unfold result_of, world_after, events_of. intros Ht Hv Hr. cbv zeta.
  unfold handleAddDomain, bind, page_read, finally, try_catch, in_world,
    set_loading, set_error, set_success, set_newDomain, page_update.
  cbn [fst snd newDomain_value]. rewrite Ht, Hv. cbn.
  destruct (addCustomDomain e (newDomain_value p) w) as [[r' w1] ev1].
  cbn in Hr. subst r'. cbn.
  destruct (success r); cbn.
  - match goal with
    | |- context [loadDomains e2 (?q, w1)] =>
        destruct (loadDomains_run e2 q w1) as (config & Hl & ->)
    end.
    exists config. split; [exact Hl|]. cbn. now rewrite !app_nil_r.
  - now rewrite !app_nil_r.
Qed.

(** The remove handler once the operation has answered. *)
Lemma handleRemoveDomain_on_result e e2 t domain p w r :
  result_of (removeCustomDomain e domain) w = Ok r ->
  let w1 := world_after (removeCustomDomain e domain) w in
  let ev1 := events_of (removeCustomDomain e domain) w in
  if success r then
    exists config,
      loadDomainConfig e2 w1 = (Ok config, w1, [StorageGet STORAGE_KEY])
      /\ handleRemoveDomain e e2 t domain (p, w) =
           (Ok tt,
            (mkPage config (newDomain_value p) false None
                    (Some (t "domains.success.removed")), w1),
            ev1 ++ [StorageGet STORAGE_KEY])
  else
    handleRemoveDomain e e2 t domain (p, w) =
      (Ok tt,
       (mkPage (customDomains_value p) (newDomain_value p) false
               (Some (t ("domains.error." ++ message r)%string)) None, w1),
       ev1).
Proof.
  unfold result_of, world_after, events_of. intros Hr. cbv zeta.
  unfold handleRemoveDomain, bind, finally, try_catch, in_world,
    set_loading, set_error, set_success, page_update.
  cbn [fst snd].
  destruct (removeCustomDomain e domain w) as [[r' w1] ev1].
  cbn in Hr. subst r'. cbn.
  destruct (success r); cbn.
  - match goal with
    | |- context [loadDomains e2 (?q, w1)] =>
        destruct (loadDomains_run e2 q w1) as (config & Hl & ->)
    end.
    exists config. split; [exact Hl|]. cbn. now rewrite !app_nil_r.
  - now rewrite !app_nil_r.
Qed.

Lemma handleAddDomain_early e e2 t p w :
  truthy (trim (newDomain_value p)) = false
  \/ validateDomain (newDomain_value p) = false ->
  handleAddDomain e e2 t (p, w) =
    (Ok tt,
     (mkPage (customDomains_value p) (newDomain_value p) (loading_value p)
             (Some (t (if truthy (trim (newDomain_value p))
                       then "domains.error.invalid_format"
                       else "domains.error.empty")))
             (success_value p), w),
     []).
Proof.
  intros H.
  unfold handleAddDomain, bind, page_read, set_error, page_update.
  cbn [fst snd newDomain_value].
  destruct (truthy (trim (newDomain_value p))); cbn; [|reflexivity].
  destruct H as [H|H]; [discriminate H|]. rewrite H. reflexivity.
Qed.

(** The answers add can give to an input that validateDomain accepts. *)
Lemma addCustomDomain_answers_when_valid e raw w r :
  validateDomain raw = true ->
  result_of (addCustomDomain e raw) w = Ok r ->
  In (message r)
     [ "domain_already_builtin"; "domain_already_exists";
       "permission_denied"; "domain_added" ]
  /\ (success r = true <-> message r = "domain_added").
Proof.
  intros Hv. apply validateDomain_normalized in Hv.
  unfold result_of.
  destruct (JS.array_includes DEFAULT_DOMAINS (normalizeDomain raw)) eqn:Hb.
  { unfold addCustomDomain. rewrite Hv, Hb. cbn. intros [= <-]. cbn.
    split; [tauto | split; discriminate]. }
  destruct (loadDomainConfig_total e w) as [config Hl].
  rewrite (addCustomDomain_run e w raw config Hv Hb Hl). cbv zeta.
  match goal with
  | |- context [JS.array_includes ?c ?x] =>
      destruct (JS.array_includes c x)
  end.
  { cbn. intros [= <-]. cbn. split; [tauto | split; discriminate]. }
  destruct (permission_answer e); cbn; try discriminate.
  - destruct (storage_set_fails e); cbn; [discriminate|].
    intros [= <-]. cbn. split; [tauto | split; reflexivity].
  - intros [= <-]. cbn. split; [tauto | split; discriminate].
Qed.

Lemma removeCustomDomain_answers e raw w r :
  result_of (removeCustomDomain e raw) w = Ok r ->
  In (message r) [ "domain_not_found"; "domain_removed" ]
  /\ (success r = true <-> message r = "domain_removed").
Proof.
  unfold result_of.
  destruct (loadDomainConfig_total e w) as [config Hl].
  rewrite (removeCustomDomain_run e w raw config Hl). cbv zeta.
  match goal with
  | |- context [(?i =? -1)%Z] => destruct (i =? -1)%Z
  end.
  { cbn. intros [= <-]. cbn. split; [tauto | split; discriminate]. }
  destruct (storage_set_fails e); cbn; [discriminate|].
  intros [= <-]. cbn. split; [tauto | split; reflexivity].
Qed.

Lemma in_catalog_check key :
  JS.array_includes (map fst messages_en_US) key
  && JS.array_includes messages_zh_CN_keys key = true ->
  in_catalog key.
Proof.
  intros H. apply andb_true_iff in H as [H1 H2].
  split; now apply array_includes_In.
Qed.

(** X15. Every message key the two handlers look up is defined in both
    locales of the catalog.  With the identity as translation function
    the page holds the keys themselves: the error key is always a
    catalog key, and so is the success key unless it is the one the page
    already showed.  In particular add's [invalid_domain_format], for
    which the catalog has no [domains.error.] entry, never reaches the
    lookup, the handler having validated the input first. *)
Theorem handlers_look_up_catalog_keys :
  forall e e2 p w,
    let tr := fun key : string => key in
    (forall key,
       error_value (page_after (handleAddDomain e e2 tr) p w) = Some key ->
       in_catalog key)
    /\ (forall key,
          success_value (page_after (handleAddDomain e e2 tr) p w)
          = Some key ->
          success_value p = Some key \/ in_catalog key)
    /\ (forall domain key,
          error_value (page_after (handleRemoveDomain e e2 tr domain) p w)
          = Some key ->
          in_catalog key)
    /\ (forall domain key,
          success_value (page_after (handleRemoveDomain e e2 tr domain) p w)
          = Some key ->
          in_catalog key)
    /\ ~ in_catalog "domains.error.invalid_domain_format".
Proof.
  intros e e2 p w tr. unfold page_after.
  assert (HA : forall key,
    (error_value (fst (snd (fst (handleAddDomain e e2 tr (p, w)))))
     = Some key -> in_catalog key)
    /\ (success_value (fst (snd (fst (handleAddDomain e e2 tr (p, w)))))
        = Some key -> success_value p = Some key \/ in_catalog key)).
  { intros key.
    destruct (truthy (trim (newDomain_value p))) eqn:Ht.
    2:{ rewrite (handleAddDomain_early e e2 tr p w (or_introl Ht)), Ht.
        cbn. split; [|auto]. intros [= <-].
        apply in_catalog_check. vm_compute. reflexivity. }
    destruct (validateDomain (newDomain_value p)) eqn:Hv.
    2:{ rewrite (handleAddDomain_early e e2 tr p w (or_intror Hv)), Ht.
        cbn. split; [|auto]. intros [= <-].
        apply in_catalog_check. vm_compute. reflexivity. }
    destruct (result_of (addCustomDomain e (newDomain_value p)) w)
      as [r|x] eqn:Hr.
    - pose proof (handleAddDomain_on_result e e2 tr p w r Ht Hv Hr) as H.
      cbv zeta in H.
      destruct (addCustomDomain_answers_when_valid e _ w r Hv Hr)
        as [Hm Hs].
      destruct (success r) eqn:Es.
      + destruct H as (config & _ & ->). cbn. split; [discriminate|].
        intros [= <-]. right. apply in_catalog_check. vm_compute.
        reflexivity.
      + rewrite H. cbn. split; [|discriminate]. intros [= <-].
        apply in_catalog_check.
        destruct Hm as [<-|[<-|[<-|[E|[]]]]];
          try (vm_compute; reflexivity).
        exfalso. symmetry in E. apply (proj2 Hs) in E. discriminate E.
    - rewrite (handleAddDomain_on_throw e e2 tr p w x Ht Hv Hr). cbn.
      split; [|discriminate]. intros [= <-].
      apply in_catalog_check. vm_compute. reflexivity. }
  assert (HR : forall domain key,
    (error_value (fst (snd (fst (handleRemoveDomain e e2 tr domain (p, w)))))
     = Some key -> in_catalog key)
    /\ (success_value
          (fst (snd (fst (handleRemoveDomain e e2 tr domain (p, w)))))
        = Some key -> in_catalog key)).
  { intros domain key.
    destruct (result_of (removeCustomDomain e domain) w) as [r|x] eqn:Hr.
    - pose proof (handleRemoveDomain_on_result e e2 tr domain p w r Hr) as H.
      cbv zeta in H.
      destruct (removeCustomDomain_answers e _ w r Hr) as [Hm Hs].
      destruct (success r) eqn:Es.
      + destruct H as (config & _ & ->). cbn. split; [discriminate|].
        intros [= <-]. apply in_catalog_check. vm_compute. reflexivity.
      + rewrite H. cbn. split; [|discriminate]. intros [= <-].
        apply in_catalog_check.
        destruct Hm as [<-|[E|[]]]; [vm_compute; reflexivity|].
        exfalso. symmetry in E. apply (proj2 Hs) in E. discriminate E.
    - rewrite (handleRemoveDomain_on_throw e e2 tr domain p w x Hr). cbn.
      split; [|discriminate]. intros [= <-].
      apply in_catalog_check. vm_compute. reflexivity. }
  split; [intros key; apply HA|]. split; [intros key; apply HA|].
  split; [intros domain key; apply HR|].
  split; [intros domain key; apply HR|].
  intros [H _]. apply array_includes_In in H. vm_compute in H.
  discriminate H.
Qed.

Lemma handlers_look_up_catalog_keys_witness :
  error_value
    (page_after
       (handleAddDomain (all_ok Denied) (all_ok Denied) (fun key => key))
       (mkPage TheDefault "example.com" false None None)
       (initial_world None))
  = Some "domains.error.permission_denied"
  /\ in_catalog "domains.error.permission_denied".
Proof.
  assert (H : error_value
                (page_after
                   (handleAddDomain (all_ok Denied) (all_ok Denied)
                      (fun key => key))
                   (mkPage TheDefault "example.com" false None None)
                   (initial_world None))
              = Some "domains.error.permission_denied")
    by (vm_compute; reflexivity).
  split; [exact H|].
  exact (proj1 (handlers_look_up_catalog_keys _ _ _ _) _ H).
Defined.

(** X16. After an add that succeeded, and a reload whose read succeeds, the
    page lists the valid entries of the list add had loaded followed by
    the new domain, its input is empty, it shows the success message and
    no error, and its loading flag is off. *)
Theorem handleAddDomain_success_shows_domain :
  forall e e2 t p w current r,
    truthy (trim (newDomain_value p)) = true ->
    validateDomain (newDomain_value p) = true ->
    loaded_view e w = Ok current ->
    result_of (addCustomDomain e (newDomain_value p)) w = Ok r ->
    success r = true ->
    storage_get_fails e2 = false ->
    let p' := page_after (handleAddDomain e e2 t) p w in
    let w' := ui_world_after (handleAddDomain e e2 t) p w in
    w' = world_after (addCustomDomain e (newDomain_value p)) w
    /\ shown_domains p' w' =
         filter validateDomain current ++ [normalizeDomain (newDomain_value p)]
    /\ newDomain_value p' = ""
    /\ loading_value p' = false
    /\ error_value p' = None
    /\ success_value p' = Some (t "domains.success.added").
Proof.
  intros e e2 t p w current r Ht Hv Hview Hr Hs Eg. cbv zeta.
  pose proof (handleAddDomain_on_result e e2 t p w r Ht Hv Hr) as H.
  cbv zeta in H. rewrite Hs in H. destruct H as (config & Hl & H).
  rewrite (load_after_success e w _ current r e2 Hview Hr Hs Eg) in Hl.
  injection Hl as <-.
  unfold page_after, ui_world_after, shown_domains. rewrite H. cbn.
  repeat split.
Qed.

Lemma handleAddDomain_success_shows_domain_witness :
  let e := all_ok Granted in
  let p := mkPage (Fresh ["a.example.com"]) " B.example.com" false None None in
  let w := initial_world (Some (serialize ["a.example.com"])) in
  truthy (trim (newDomain_value p)) = true
  /\ validateDomain (newDomain_value p) = true
  /\ loaded_view e w = Ok ["a.example.com"]
  /\ shown_domains (page_after (handleAddDomain e e (fun key => key)) p w)
                   (ui_world_after (handleAddDomain e e (fun key => key)) p w)
     = ["a.example.com"; "b.example.com"].
Proof.
  cbv zeta.
  set (p := mkPage (Fresh ["a.example.com"]) " B.example.com" false None None).
  set (w := initial_world (Some (serialize ["a.example.com"]))).
  assert (Ht : truthy (trim (newDomain_value p)) = true) by reflexivity.
  assert (Hv : validateDomain (newDomain_value p) = true)
    by (vm_compute; reflexivity).
  assert (Hl : loaded_view (all_ok Granted) w = Ok ["a.example.com"])
    by (vm_compute; reflexivity).
  assert (Hr : result_of (addCustomDomain (all_ok Granted) (newDomain_value p))
                 w = Ok (mkResult true "domain_added"))
    by (vm_compute; reflexivity).
  split; [exact Ht|]. split; [exact Hv|]. split; [exact Hl|].
  destruct (handleAddDomain_success_shows_domain
              (all_ok Granted) (all_ok Granted) (fun key => key) p w _ _
              Ht Hv Hl Hr eq_refl eq_refl) as (_ & Hshown & _).
  rewrite Hshown. vm_compute. reflexivity.
Defined.

(** X17. When a handler has gone through its operation it leaves the loading
    flag off and exactly one of the two banners set: remove always, add
    for an input that is neither blank nor invalid.  For a blank or
    invalid input the add handler makes no browser call, leaves the
    world, the list, the input, the loading flag and the success banner
    as they were, and sets the error. *)
Theorem handlers_end_with_one_banner :
  forall e e2 t p w,
    let one_banner := fun q : Page =>
      (error_value q = None /\ success_value q <> None)
      \/ (error_value q <> None /\ success_value q = None) in
    (forall domain,
       let q := page_after (handleRemoveDomain e e2 t domain) p w in
       loading_value q = false /\ one_banner q)
    /\ (truthy (trim (newDomain_value p)) = true ->
        validateDomain (newDomain_value p) = true ->
        let q := page_after (handleAddDomain e e2 t) p w in
        loading_value q = false /\ one_banner q)
    /\ (truthy (trim (newDomain_value p)) = false
        \/ validateDomain (newDomain_value p) = false ->
        let q := page_after (handleAddDomain e e2 t) p w in
        ui_events_of (handleAddDomain e e2 t) p w = []
        /\ ui_world_after (handleAddDomain e e2 t) p w = w
        /\ error_value q <> None
        /\ success_value q = success_value p
        /\ loading_value q = loading_value p
        /\ newDomain_value q = newDomain_value p
        /\ customDomains_value q = customDomains_value p).
Proof.
  intros e e2 t p w. cbv zeta. unfold page_after, ui_events_of,
    ui_world_after. split; [|split].
  - intros domain.
    destruct (result_of (removeCustomDomain e domain) w) as [r|x] eqn:Hr.
    + pose proof (handleRemoveDomain_on_result e e2 t domain p w r Hr) as H.
      cbv zeta in H. destruct (success r).
      * destruct H as (config & _ & ->). cbn.
        split; [reflexivity|]. left. split; [reflexivity | discriminate].
      * rewrite H. cbn.
        split; [reflexivity|]. right. split; [discriminate | reflexivity].
    + rewrite (handleRemoveDomain_on_throw e e2 t domain p w x Hr). cbn.
      split; [reflexivity|]. right. split; [discriminate | reflexivity].
  - intros Ht Hv.
    destruct (result_of (addCustomDomain e (newDomain_value p)) w)
      as [r|x] eqn:Hr.
    + pose proof (handleAddDomain_on_result e e2 t p w r Ht Hv Hr) as H.
      cbv zeta in H. destruct (success r).
      * destruct H as (config & _ & ->). cbn.
        split; [reflexivity|]. left. split; [reflexivity | discriminate].
      * rewrite H. cbn.
        split; [reflexivity|]. right. split; [discriminate | reflexivity].
    + rewrite (handleAddDomain_on_throw e e2 t p w x Ht Hv Hr). cbn.
      split; [reflexivity|]. right. split; [discriminate | reflexivity].
  - intros H. rewrite (handleAddDomain_early e e2 t p w H). cbn.
    repeat split. discriminate.
Qed.

Lemma handlers_end_with_one_banner_witness :
  let p := mkPage (Fresh []) "   " true None (Some "Domain added successfully") in
  let w := initial_world None in
  truthy (trim (newDomain_value p)) = false
  /\ ui_events_of (handleAddDomain (all_ok Granted) (all_ok Granted)
                     (fun key => key)) p w = []
  /\ success_value
       (page_after (handleAddDomain (all_ok Granted) (all_ok Granted)
                      (fun key => key)) p w)
     = Some "Domain added successfully"
  /\ loading_value
       (page_after (handleAddDomain (all_ok Granted) (all_ok Granted)
                      (fun key => key))
          (mkPage (Fresh []) "example.com" false None None) w)
     = false.
Proof.
  cbv zeta.
  destruct (handlers_end_with_one_banner
              (all_ok Granted) (all_ok Granted) (fun key => key)
              (mkPage (Fresh []) "   " true None
                      (Some "Domain added successfully"))
              (initial_world None)) as (_ & _ & Hearly).
  destruct (Hearly (or_introl eq_refl)) as (Hev & _ & _ & Hs & _).
  split; [reflexivity|]. split; [exact Hev|]. split; [exact Hs|].
  destruct (handlers_end_with_one_banner
              (all_ok Granted) (all_ok Granted) (fun key => key)
              (mkPage (Fresh []) "example.com" false None None)
              (initial_world None)) as (_ & Hmain & _).
  exact (proj1 (Hmain eq_refl ltac:(vm_compute; reflexivity))).
Defined.

End OptionsPageFacts.

(* ------------------------------------------------------------------ *)
(** ** The background page *)

Section BackgroundFacts.

Lemma getSharedDocumentUrlPatterns_run e w current :
  loaded_view e w = Ok current ->
  getSharedDocumentUrlPatterns e w =
    (Ok (getAllUrlPatterns (Some current)), w, [StorageGet STORAGE_KEY]).
Proof.
  intros Hview.
  destruct (loadDomainConfig_total e w) as [config Hl].
  rewrite (loaded_view_run e w config Hl) in Hview. injection Hview as Hc.
  unfold getSharedDocumentUrlPatterns.
  unfold bind at 1. rewrite Hl.
  unfold bind at 1. rewrite customDomains_run, Hc. reflexivity.
Qed.

Lemma loaded_view_total e w : exists current, loaded_view e w = Ok current.
Proof.
  destruct (loadDomainConfig_total e w) as [config Hl].
  eexists. apply (loaded_view_run e w config Hl).
Qed.

(** X18. The URL patterns handed to the context menus never fail to come and
    always begin with the twelve patterns of the built-in domains, in
    their order, whatever the storage holds and whether or not it can be
    read; what follows them are the patterns of the loaded custom
    domains.  The world is not changed and the storage is read once. *)
Theorem getSharedDocumentUrlPatterns_covers_builtins :
  forall e w,
    exists current,
      loaded_view e w = Ok current
      /\ getSharedDocumentUrlPatterns e w =
           (Ok (getAllUrlPatterns (Some [])
                ++ flat_map domainToUrlPatterns current),
            w, [StorageGet STORAGE_KEY])
      /\ firstn 12 (getAllUrlPatterns (Some [])
                    ++ flat_map domainToUrlPatterns current)
         = getAllUrlPatterns (Some []).
Proof.
  intros e w. destruct (loaded_view_total e w) as [current Hview].
  exists current. split; [exact Hview|]. split.
  - rewrite (getSharedDocumentUrlPatterns_run e w current Hview).
    unfold getAllUrlPatterns. cbn [flat_map]. now rewrite app_nil_r.
  - reflexivity.
Qed.

Lemma setupContextMenus_run e getMessage bg w current :
  loaded_view e w = Ok current ->
  setupContextMenus e getMessage (bg, w) =
    (Done tt,
     (mkBackground
        (map (menu_for getMessage (getAllUrlPatterns (Some current)))
             all_MenuItemIds)
        (executedScripts bg), w),
     [StorageGet STORAGE_KEY]).
Proof.
  intros Hview. unfold setupContextMenus, bg_bind, bg_of_async.
  cbn [fst snd].
  rewrite (getSharedDocumentUrlPatterns_run e w current Hview).
  reflexivity.
Qed.


Lemma executeScriptByFlag_known fails i tabId :
  exists file,
    executeScriptByFlag fails (FlagString (MenuItemId_value i)) tabId =
      chrome_scripting_executeScript fails
        (mkInjection [file] tabId (Some "MAIN"))
    /\ prefix "bundles/scripts/" file = true
    /\ bundled_injection (mkInjection [file] tabId (Some "MAIN")) = true.
Proof.
  destruct i; eexists; (split; [reflexivity|]); split; reflexivity.
Qed.

Lemma executeScriptByFlag_unknown fails flag tabId :
  (forall i, flag <> FlagString (MenuItemId_value i)) ->
  executeScriptByFlag fails flag tabId = bg_ret tt.
Proof.
  intros H. destruct flag as [s|n]; [|reflexivity].
  unfold executeScriptByFlag.
  destruct (String.eqb s (MenuItemId_value DOWNLOAD_DOCX_AS_MARKDOWN)) eqn:E1.
  { apply String.eqb_eq in E1. subst. now elim (H DOWNLOAD_DOCX_AS_MARKDOWN). }
  destruct (String.eqb s (MenuItemId_value COPY_DOCX_AS_MARKDOWN)) eqn:E2.
  { apply String.eqb_eq in E2. subst. now elim (H COPY_DOCX_AS_MARKDOWN). }
  destruct (String.eqb s (MenuItemId_value VIEW_DOCX_AS_MARKDOWN)) eqn:E3.
  { apply String.eqb_eq in E3. subst. now elim (H VIEW_DOCX_AS_MARKDOWN). }
  reflexivity.
Qed.

(** X20. Every item that setupContextMenus creates does something when it is
    clicked in a tab that has an id: one script from bundles/scripts/ is
    run in that tab, in the world MAIN, or, when the browser rejects the
    injection, nothing happens and the error is swallowed.  In neither
    case does the listener throw, touch the menu or the world.  A click
    without a tab id, or with a menu id that is a number or a string
    other than the three ids, runs nothing. *)
Theorem menu_click_runs_script :
  forall e getMessage fails bg0 w0 bg w,
    let menus :=
      contextMenus
        (fst (bg_state_after (setupContextMenus e getMessage) (bg0, w0))) in
    (forall item tabId url,
       In item menus ->
       exists file,
         prefix "bundles/scripts/" file = true
         /\ onMenuClicked fails (FlagString (item_id item))
                          (Some (mkTab (Some tabId) url)) (bg, w) =
              (Done tt,
               (mkBackground
                  (contextMenus bg)
                  (if fails (mkInjection [file] tabId (Some "MAIN"))
                   then executedScripts bg
                   else executedScripts bg
                        ++ [mkInjection [file] tabId (Some "MAIN")]),
                w),
               []))
    /\ (forall flag url,
          onMenuClicked fails flag (Some (mkTab None url)) (bg, w)
          = (Done tt, (bg, w), [])
          /\ onMenuClicked fails flag None (bg, w) = (Done tt, (bg, w), []))
    /\ (forall flag tab,
          (forall i, flag <> FlagString (MenuItemId_value i)) ->
          onMenuClicked fails flag tab (bg, w) = (Done tt, (bg, w), [])).
Proof.
  intros e getMessage fails bg0 w0 bg w. cbv zeta.
  split; [|split].
  - intros item tabId url Hin.
    destruct (loaded_view_total e w0) as [current Hview].
    unfold bg_state_after in Hin.
    rewrite (setupContextMenus_run e getMessage bg0 w0 current Hview) in Hin.
    cbn in Hin.
    assert (Hid : exists i, item_id item = MenuItemId_value i).
    { destruct Hin as [<-|[<-|[<-|[]]]];
        [exists DOWNLOAD_DOCX_AS_MARKDOWN | exists COPY_DOCX_AS_MARKDOWN
        | exists VIEW_DOCX_AS_MARKDOWN]; reflexivity. }
    destruct Hid as [i ->].
    destruct (executeScriptByFlag_known fails i tabId) as (file & E & Hp & _).
    exists file. split; [exact Hp|].
    unfold onMenuClicked, bg_catch. rewrite E.
    unfold chrome_scripting_executeScript. cbn [fst snd].
    destruct (fails (mkInjection [file] tabId (Some "MAIN")));
      [destruct bg|]; reflexivity.
  - intros flag url. split; reflexivity.
  - intros flag tab H. destruct tab as [[[id|] url]|]; try reflexivity.
    unfold onMenuClicked, bg_catch.
    now rewrite (executeScriptByFlag_unknown fails flag id H).
Qed.

Lemma menu_click_runs_script_witness :
  let bg := mkBackground [] [] in
  let w := initial_world None in
  let menus :=
    contextMenus
      (fst (bg_state_after
              (setupContextMenus (all_ok Denied) (fun key => key)) (bg, w))) in
  In (menu_for (fun key => key) (getAllUrlPatterns (Some []))
               COPY_DOCX_AS_MARKDOWN) menus
  /\ (exists file,
        prefix "bundles/scripts/" file = true
        /\ onMenuClicked (fun _ => false) (FlagString "copy_docx_as_markdown")
                         (Some (mkTab (Some 7%Z) None)) (bg, w)
           = (Done tt,
              (mkBackground [] [mkInjection [file] 7%Z (Some "MAIN")], w),
              []))
  /\ onMenuClicked (fun _ => false) (FlagNumber 3)
                   (Some (mkTab (Some 7%Z) None)) (bg, w)
     = (Done tt, (bg, w), []).
Proof.
  cbv zeta.
  assert (Hin : In (menu_for (fun key => key) (getAllUrlPatterns (Some []))
                             COPY_DOCX_AS_MARKDOWN)
                   (contextMenus
                      (fst (bg_state_after
                              (setupContextMenus (all_ok Denied)
                                                 (fun key => key))
                              (mkBackground [] [], initial_world None)))))
    by (vm_compute; tauto).
  split; [exact Hin|].
  destruct (menu_click_runs_script (all_ok Denied) (fun key => key)
              (fun _ => false) (mkBackground [] []) (initial_world None)
              (mkBackground [] []) (initial_world None))
    as (Hknown & _ & Hother).
  split.
  - destruct (Hknown _ 7%Z None Hin) as (file & Hp & E).
    exists file. split; [exact Hp | exact E].
  - apply Hother. intros i. destruct i; discriminate.
Defined.

Lemma option_eq_dec_string (a b : option string) : {a = b} + {a <> b}.
Proof. decide equality. apply string_dec. Qed.

Lemma matches_bool_iff URL_hostname current url :
  (if (List.length current =? 0)%nat then false
   else match URL_hostname url with
        | None => false
        | Some hostname =>
            existsb
              (fun domain =>
                 String.eqb hostname domain
                 || endsWith hostname ("." ++ domain))
              current
        end) = true
  <-> on_custom_domain URL_hostname current url.
Proof.
  unfold on_custom_domain. destruct current as [|d0 rest].
  - cbn. split; [discriminate | intros (h & d & _ & [] & _)].
  - cbn [List.length Nat.eqb].
    destruct (URL_hostname url) as [hostname|].
    + rewrite host_suffix_existsb. split.
      * intros (d & Hin & Hm). now exists hostname, d.
      * intros (h & d & [= <-] & Hin & Hm). now exists d.
    + split; [discriminate | intros (h & d & F & _); discriminate F].
Qed.

Lemma onTabUpdated_run e URL_hostname fails tabId tab url bg w current :
  loaded_view e w = Ok current ->
  tab_url tab = Some url ->
  truthy url = true ->
  exists b,
    (b = true <-> on_custom_domain URL_hostname current url)
    /\ onTabUpdated e URL_hostname fails tabId (Some "complete") tab (bg, w) =
         (Done tt,
          (mkBackground
             (contextMenus bg)
             (if b && negb (fails (mkInjection ["bundles/content.js"]
                                               tabId None))
              then executedScripts bg
                   ++ [mkInjection ["bundles/content.js"] tabId None]
              else executedScripts bg),
           w),
          [StorageGet STORAGE_KEY]).
Proof.
  intros Hview Htab Hu. eexists. split; [apply matches_bool_iff|].
  unfold onTabUpdated. rewrite Htab, Hu.
  replace (String.eqb "complete" "complete") with true by reflexivity.
  cbn [negb orb].
  unfold bg_bind, bg_of_async. cbv beta. cbn [fst snd].
  rewrite (matchesCustomDomain_run e URL_hostname w url current Hview).
  match goal with
  | |- context [if ?c then injectContentScript _ _ else _] => destruct c
  end; cbn [andb].
  - unfold injectContentScript, bg_catch, chrome_scripting_executeScript.
    cbn [fst snd].
    destruct (fails (mkInjection ["bundles/content.js"] tabId None));
      cbn [negb]; destruct bg; reflexivity.
  - destruct bg; reflexivity.
Qed.

Lemma onTabUpdated_skip e URL_hostname fails tabId status tab s :
  status <> Some "complete"
  \/ tab_url tab = None \/ tab_url tab = Some "" ->
  onTabUpdated e URL_hostname fails tabId status tab s = (Done tt, s, []).
Proof.
  intros H. unfold onTabUpdated.
  destruct status as [st|]; [|reflexivity].
  destruct (tab_url tab) as [url|]; [|reflexivity].
  destruct (String.eqb st "complete") eqn:E; [|reflexivity].
  apply String.eqb_eq in E. subst st.
  destruct H as [H|[H|H]]; [now elim H | discriminate H|].
  injection H as ->. reflexivity.
Qed.

(** X21. The listener of tabs.onUpdated injects the content script into a
    tab exactly when the update reports the status complete, the tab
    has a non-empty URL, the parser yields a hostname for it that equals
    a loaded custom domain or ends with a dot followed by one, and the
    browser accepts the injection.  It injects nothing else, never
    throws, and leaves the menu and the world alone. *)
Theorem onTabUpdated_injects_iff :
  forall e URL_hostname fails tabId status tab bg w current,
    loaded_view e w = Ok current ->
    let content := mkInjection ["bundles/content.js"] tabId None in
    let due :=
      status = Some "complete"
      /\ (exists url,
            tab_url tab = Some url /\ url <> ""
            /\ on_custom_domain URL_hostname current url)
      /\ fails content = false in
    let run := onTabUpdated e URL_hostname fails tabId status tab in
    bg_outcome run (bg, w) = Done tt
    /\ snd (bg_state_after run (bg, w)) = w
    /\ contextMenus (fst (bg_state_after run (bg, w))) = contextMenus bg
    /\ (due ->
        executedScripts (fst (bg_state_after run (bg, w)))
        = executedScripts bg ++ [content])
    /\ (~ due ->
        executedScripts (fst (bg_state_after run (bg, w)))
        = executedScripts bg).
Proof.
  intros e URL_hostname fails tabId status tab bg w current Hview.
  cbv zeta. unfold bg_outcome, bg_state_after.
  assert (Hskip :
    status <> Some "complete"
    \/ tab_url tab = None \/ tab_url tab = Some "" ->
    fst (fst (onTabUpdated e URL_hostname fails tabId status tab (bg, w)))
    = Done tt
    /\ snd (snd (fst (onTabUpdated e URL_hostname fails tabId status tab
                        (bg, w)))) = w
    /\ contextMenus
         (fst (snd (fst (onTabUpdated e URL_hostname fails tabId status tab
                           (bg, w))))) = contextMenus bg
    /\ executedScripts
         (fst (snd (fst (onTabUpdated e URL_hostname fails tabId status tab
                           (bg, w))))) = executedScripts bg).
  { intros H. rewrite (onTabUpdated_skip _ _ _ _ _ _ _ H). repeat split. }
  destruct (option_eq_dec_string status (Some "complete")) as [Es|Es].
  2:{ destruct (Hskip (or_introl Es)) as (H1 & H2 & H3 & H4).
      split; [exact H1|]. split; [exact H2|]. split; [exact H3|].
      split; [intros (F & _); contradiction | intros _; exact H4]. }
  destruct (tab_url tab) as [url|] eqn:Eu.
  2:{ destruct (Hskip (or_intror (or_introl eq_refl))) as (H1 & H2 & H3 & H4).
      split; [exact H1|]. split; [exact H2|]. split; [exact H3|].
      split; [intros (_ & (url & F & _) & _); discriminate F
             | intros _; exact H4]. }
  destruct url as [|c rest].
  { destruct (Hskip (or_intror (or_intror eq_refl))) as (H1 & H2 & H3 & H4).
    split; [exact H1|]. split; [exact H2|]. split; [exact H3|].
    split; [intros (_ & (url & [= <-] & F & _) & _); now elim F
           | intros _; exact H4]. }
  subst status.
  destruct (onTabUpdated_run e URL_hostname fails tabId tab (String c rest)
              bg w current Hview Eu eq_refl) as (b & Hb & ->).
  cbn [fst snd contextMenus executedScripts].
  split; [reflexivity|]. split; [reflexivity|]. split; [reflexivity|]. split.
  - intros (_ & (url & [= <-] & _ & Hm) & Hf).
    apply Hb in Hm. rewrite Hm, Hf. reflexivity.
  - intros Hn.
    destruct b; [|reflexivity].
    destruct (fails (mkInjection ["bundles/content.js"] tabId None)) eqn:Hf;
      [reflexivity|].
    exfalso. apply Hn. split; [reflexivity|]. split; [|reflexivity].
    exists (String c rest). split; [reflexivity|]. split; [discriminate|].
    now apply Hb.
Qed.

End BackgroundFacts.

Section BackgroundFacts2.

Lemma onTabUpdated_injects_iff_witness :
  let e := all_ok Denied in
  let w := initial_world (Some (serialize ["a.example.com"])) in
  let bg := mkBackground [] [] in
  let tab := mkTab (Some 5%Z) (Some "https://docs.a.example.com/wiki") in
  loaded_view e w = Ok ["a.example.com"]
  /\ executedScripts
       (fst (bg_state_after
               (onTabUpdated e sample_URL_hostname (fun _ => false) 5%Z
                             (Some "complete") tab) (bg, w)))
     = [mkInjection ["bundles/content.js"] 5%Z None]
  /\ executedScripts
       (fst (bg_state_after
               (onTabUpdated e sample_URL_hostname (fun _ => false) 5%Z
                             (Some "loading") tab) (bg, w)))
     = [].
Proof.
  cbv zeta.
  assert (Hv : loaded_view (all_ok Denied)
                 (initial_world (Some (serialize ["a.example.com"])))
               = Ok ["a.example.com"]) by (vm_compute; reflexivity).
  split; [exact Hv|]. split.
  - destruct (onTabUpdated_injects_iff
                (all_ok Denied) sample_URL_hostname (fun _ => false) 5%Z
                (Some "complete")
                (mkTab (Some 5%Z) (Some "https://docs.a.example.com/wiki"))
                (mkBackground [] []) _ _ Hv) as (_ & _ & _ & Hdue & _).
    apply Hdue. split; [reflexivity|]. split; [|reflexivity].
    exists "https://docs.a.example.com/wiki".
    split; [reflexivity|]. split; [discriminate|].
    exists "docs.a.example.com", "a.example.com".
    split; [reflexivity|]. split; [now left|].
    right. exists "docs". reflexivity.
  - destruct (onTabUpdated_injects_iff
                (all_ok Denied) sample_URL_hostname (fun _ => false) 5%Z
                (Some "loading")
                (mkTab (Some 5%Z) (Some "https://docs.a.example.com/wiki"))
                (mkBackground [] []) _ _ Hv) as (_ & _ & _ & _ & Hnot).
    apply Hnot. intros (F & _). discriminate F.
Defined.

(** X22. The listener that onDomainConfigChange registers calls its callback
    exactly for a change in the area sync that includes the key.  It
    hands over the default object when the new value is missing (the key
    was removed) or null, and otherwise the new value as it is: a stored
    list arrives with all its entries, whereas a load of that same
    stored value shows only the entries that pass validateDomain. *)
Theorem domainConfigListener_delivery :
  forall changes areaName,
    (domainConfigListener changes areaName <> None
     <-> areaName = "sync" /\ change_of STORAGE_KEY changes <> None)
    /\ (forall change,
          areaName = "sync" ->
          change_of STORAGE_KEY changes = Some change ->
          (newValue change = None \/ newValue change = Some JNull ->
           domainConfigListener changes areaName = Some DefaultConfig)
          /\ (forall l e w,
                newValue change = Some (serialize l) ->
                sync_storage w = newValue change ->
                storage_get_fails e = false ->
                domainConfigListener changes areaName
                = Some (StoredConfig (serialize l))
                /\ loaded_view e w = Ok (filter validateDomain l))).
Proof.
  intros changes areaName. unfold domainConfigListener. split.
  - destruct (change_of STORAGE_KEY changes) as [change|].
    + destruct (String.eqb areaName "sync") eqn:E.
      * apply String.eqb_eq in E. split; [|discriminate].
        intros _. split; [exact E | discriminate].
      * apply String.eqb_neq in E. split; [intros F; now elim F|].
        intros [F _]. contradiction.
    + split; [intros F; now elim F | intros [_ F]; now elim F].
  - intros change -> ->. cbn [String.eqb]. 
    replace (String.eqb "sync" "sync") with true by reflexivity.
    split.
    + intros [->| ->]; reflexivity.
    + intros l e w Hn Hs Eg. rewrite Hn. split; [reflexivity|].
      rewrite Hn in Hs.
      now rewrite (loaded_view_run e w _
                     (loadDomainConfig_serialized e w l Eg Hs)).
Qed.

Lemma domainConfigListener_delivery_witness :
  let change := mkChange None (Some (serialize ["a.example.com"; "localhost"])) in
  let changes := [("other", mkChange None None); ("customDomains", change)] in
  let w := initial_world (newValue change) in
  change_of STORAGE_KEY changes = Some change
  /\ domainConfigListener changes "sync"
     = Some (StoredConfig (serialize ["a.example.com"; "localhost"]))
  /\ loaded_view (all_ok Denied) w = Ok (filter validateDomain
                                           ["a.example.com"; "localhost"])
  /\ domainConfigListener changes "local" = None.
Proof.
  cbv zeta.
  split; [reflexivity|].
  destruct (proj2 (domainConfigListener_delivery
                     [("other", mkChange None None);
                      ("customDomains",
                       mkChange None
                         (Some (serialize ["a.example.com"; "localhost"])))]
                     "sync") _ eq_refl eq_refl) as (_ & H).
  destruct (H ["a.example.com"; "localhost"] (all_ok Denied)
              (initial_world
                 (Some (serialize ["a.example.com"; "localhost"])))
              eq_refl eq_refl eq_refl) as (H1 & H2).
  split; [exact H1|]. split; [exact H2|]. reflexivity.
Defined.

Lemma executeScriptByFlag_cases fails flag tabId bg w :
  exists r scripts',
    executeScriptByFlag fails flag tabId (bg, w) =
      (r, (mkBackground (contextMenus bg) scripts', w), [])
    /\ (scripts' = executedScripts bg
        \/ exists inj,
             bundled_injection inj = true
             /\ scripts' = executedScripts bg ++ [inj]).
Proof.
  assert (K : forall file,
    bundled_injection (mkInjection [file] tabId (Some "MAIN")) = true ->
    exists r scripts',
      chrome_scripting_executeScript fails
        (mkInjection [file] tabId (Some "MAIN")) (bg, w) =
        (r, (mkBackground (contextMenus bg) scripts', w), [])
      /\ (scripts' = executedScripts bg
          \/ exists inj,
               bundled_injection inj = true
               /\ scripts' = executedScripts bg ++ [inj])).
  { intros file Hb. unfold chrome_scripting_executeScript. cbn [fst snd].
    destruct (fails (mkInjection [file] tabId (Some "MAIN"))).
    - exists (Raised ScriptingError), (executedScripts bg).
      split; [destruct bg; reflexivity | now left].
    - eexists (Done tt), _. split; [reflexivity|]. right. eauto. }
  assert (N : exists r scripts',
    @bg_ret unit tt (bg, w) =
      (r, (mkBackground (contextMenus bg) scripts', w), [])
    /\ (scripts' = executedScripts bg
        \/ exists inj,
             bundled_injection inj = true
             /\ scripts' = executedScripts bg ++ [inj])).
  { exists (Done tt), (executedScripts bg).
    split; [destruct bg; reflexivity | now left]. }
  destruct flag as [s|n]; [|exact N]. unfold executeScriptByFlag.
  destruct (String.eqb s (MenuItemId_value DOWNLOAD_DOCX_AS_MARKDOWN));
    [apply K; reflexivity|].
  destruct (String.eqb s (MenuItemId_value COPY_DOCX_AS_MARKDOWN));
    [apply K; reflexivity|].
  destruct (String.eqb s (MenuItemId_value VIEW_DOCX_AS_MARKDOWN));
    [apply K; reflexivity | exact N].
Qed.

Lemma listener_step_refl s : listener_step s s.
Proof. repeat split; now left. Qed.

Lemma setup_step e getMessage s :
  bg_catch (setupContextMenus e getMessage) s =
    (Done tt, bg_state_after (bg_catch (setupContextMenus e getMessage)) s,
     [StorageGet STORAGE_KEY])
  /\ listener_step s
       (bg_state_after (bg_catch (setupContextMenus e getMessage)) s).
Proof.
  destruct s as [bg w]. destruct (loaded_view_total e w) as [current Hview].
  unfold bg_state_after, bg_catch.
  rewrite (setupContextMenus_run e getMessage bg w current Hview).
  split; [reflexivity|]. cbn [fst snd].
  split; [reflexivity|]. split; [right; reflexivity | left; reflexivity].
Qed.

(** One listener call: it ends without throwing, calls the browser for
    storage reads only, and takes a step of the allowed kind. *)
Lemma dispatch_step URL_hostname getMessage e fails ev s :
  bg_outcome (dispatch URL_hostname getMessage e fails ev) s = Done tt
  /\ Forall (fun call => call = StorageGet STORAGE_KEY)
            (bg_events (dispatch URL_hostname getMessage e fails ev) s)
  /\ listener_step s
       (bg_state_after (dispatch URL_hostname getMessage e fails ev) s).
Proof.
  unfold bg_outcome, bg_events.
  destruct ev as [|changes areaName|tabId status tab|flag tab|flag tabs];
    cbn [dispatch].
  - unfold onInstalled. destruct (setup_step e getMessage s) as [E Hs].
    split; [now rewrite E|]. split; [rewrite E; now repeat constructor|].
    exact Hs.
  - unfold onStorageChanged.
    destruct (domainConfigListener changes areaName).
    + destruct (setup_step e getMessage s) as [E Hs].
      split; [now rewrite E|]. split; [rewrite E; now repeat constructor|].
      exact Hs.
    + split; [reflexivity|]. split; [constructor | apply listener_step_refl].
  - destruct s as [bg w].
    destruct (loaded_view_total e w) as [current Hview].
    destruct (option_eq_dec_string status (Some "complete")) as [Es|Es].
    2:{ unfold bg_state_after.
        rewrite (onTabUpdated_skip _ _ _ _ _ _ _ (or_introl Es)).
        split; [reflexivity|]. split; [constructor|].
        apply listener_step_refl. }
    destruct (tab_url tab) as [url|] eqn:Eu.
    2:{ unfold bg_state_after.
        rewrite (onTabUpdated_skip _ _ _ _ _ _ _
                   (or_intror (or_introl Eu))).
        split; [reflexivity|]. split; [constructor|].
        apply listener_step_refl. }
    destruct url as [|c rest].
    { unfold bg_state_after.
      rewrite (onTabUpdated_skip _ _ _ _ _ _ _ (or_intror (or_intror Eu))).
      split; [reflexivity|]. split; [constructor|].
      apply listener_step_refl. }
    subst status.
    destruct (onTabUpdated_run e URL_hostname fails tabId tab (String c rest)
                bg w current Hview Eu eq_refl) as (b & _ & E).
    unfold bg_state_after. rewrite E.
    split; [reflexivity|]. split; [now repeat constructor|].
    split; [reflexivity|]. split; [now left|]. cbn [fst executedScripts].
    destruct (b && negb (fails (mkInjection ["bundles/content.js"] tabId
                                            None)));
      [right; eexists; split; [|reflexivity]; reflexivity | now left].
  - destruct s as [bg w]. unfold bg_state_after, onMenuClicked.
    destruct tab as [[[id|] url]|];
      try (split; [reflexivity|]; split; [constructor|];
           apply listener_step_refl).
    unfold bg_catch.
    destruct (executeScriptByFlag_cases fails flag id bg w)
      as (r & scripts' & -> & Hs).
    destruct r as [[]|x];
      (split; [reflexivity|]; split; [constructor|];
       split; [reflexivity|]; split; [now left | exact Hs]).
  - destruct s as [bg w]. unfold bg_state_after, bg_bind, onMessage.
    destruct tabs as [|[[id|] url] others];
      try (split; [reflexivity|]; split; [constructor|];
           apply listener_step_refl).
    cbn [tab_id].
    destruct (List.length (mkTab (Some id) url :: others) =? 1)%nat;
      [|split; [reflexivity|]; split; [constructor|];
        apply listener_step_refl].
    destruct (executeScriptByFlag_cases fails flag id bg w)
      as (r & scripts' & -> & Hs).
    destruct r as [[]|x];
      (split; [reflexivity|]; split; [constructor|];
       split; [reflexivity|]; split; [now left | exact Hs]).
Qed.

(** X23. Whatever events reach the background page, in whatever order and
    under whatever answers of the browser, every listener call ends
    without throwing and calls the storage for reads only; the world
    (stored config, granted origins, default object) is never changed;
    the only scripts ever run are the four bundled ones (the content
    script in the default world, the three conversion scripts in MAIN);
    and the menu is either the one found at the start or the three
    items of setupContextMenus. *)
Theorem background_never_strays :
  forall URL_hostname getMessage script bg w,
    let s' := run_background URL_hostname getMessage script (bg, w) in
    (forall e fails ev s,
       bg_outcome (dispatch URL_hostname getMessage e fails ev) s = Done tt
       /\ Forall (fun call => call = StorageGet STORAGE_KEY)
                 (bg_events (dispatch URL_hostname getMessage e fails ev) s))
    /\ snd s' = w
    /\ (exists added,
          executedScripts (fst s') = executedScripts bg ++ added
          /\ Forall (fun inj => bundled_injection inj = true) added)
    /\ (contextMenus (fst s') = contextMenus bg
        \/ map item_id (contextMenus (fst s')) =
             [ "download_docx_as_markdown"; "copy_docx_as_markdown";
               "view_docx_as_markdown" ]).
Proof.
  intros URL_hostname getMessage script bg w. cbv zeta.
  split.
  { intros e fails ev s.
    destruct (dispatch_step URL_hostname getMessage e fails ev s)
      as (H1 & H2 & _). now split. }
  assert (G : forall s0,
    snd (run_background URL_hostname getMessage script s0) = snd s0
    /\ (exists added,
          executedScripts
            (fst (run_background URL_hostname getMessage script s0))
          = executedScripts (fst s0) ++ added
          /\ Forall (fun inj => bundled_injection inj = true) added)
    /\ (contextMenus (fst (run_background URL_hostname getMessage script s0))
        = contextMenus (fst s0)
        \/ map item_id
             (contextMenus
                (fst (run_background URL_hostname getMessage script s0)))
           = map MenuItemId_value all_MenuItemIds)).
  { induction script as [|[[e fails] ev] rest IH]; intros s0.
    - cbn. split; [reflexivity|]. split; [|now left].
      exists []. split; [now rewrite app_nil_r | constructor].
    - cbn [run_background].
      destruct (dispatch_step URL_hostname getMessage e fails ev s0)
        as (_ & _ & Hw & Hm & Hs).
      destruct (IH (bg_state_after
                      (dispatch URL_hostname getMessage e fails ev) s0))
        as (IH1 & (added & IH2 & IH3) & IH4).
      split; [now rewrite IH1|]. split.
      + destruct Hs as [Hs|(inj & Hb & Hs)]; rewrite IH2, Hs.
        * exists added. now split.
        * exists (inj :: added). split; [now rewrite <- app_assoc|].
          now constructor.
      + destruct IH4 as [IH4|IH4]; [|now right].
        rewrite IH4. exact Hm. }
  destruct (G (bg, w)) as (G1 & G2 & G3). split; [exact G1|].
  split; [exact G2 | exact G3].
Qed.



(** X25. A message runs a script only when the query for the active tab of
    the current window answers exactly one tab and that tab has an id;
    then it does what a click in that tab does, and sendResponse is
    called unless the injection was rejected.  With no tab, several
    tabs, or a tab without id nothing is run and sendResponse is called. *)
Theorem onMessage_single_active_tab :
  forall fails flag activeTabs bg w,
    (forall id url,
       activeTabs = [mkTab (Some id) url] ->
       exists r,
         bg_outcome (executeScriptByFlag fails flag id) (bg, w) = r
         /\ onMessage fails flag activeTabs (bg, w) =
              (Done (match r with Done _ => true | Raised _ => false end),
               bg_state_after (executeScriptByFlag fails flag id) (bg, w),
               []))
    /\ ((forall id url, activeTabs <> [mkTab (Some id) url]) ->
        onMessage fails flag activeTabs (bg, w) = (Done true, (bg, w), [])).
Proof.
  intros fails flag activeTabs bg w. split.
  - intros id url ->. eexists. split; [reflexivity|].
    unfold onMessage, bg_outcome, bg_state_after. cbn [tab_id List.length].
    replace (1 =? 1)%nat with true by reflexivity.
    destruct (executeScriptByFlag_cases fails flag id bg w)
      as (r & scripts' & -> & _).
    destruct r; reflexivity.
  - intros H. unfold onMessage.
    destruct activeTabs as [|[[id|] url] others]; try reflexivity.
    cbn [tab_id].
    destruct others as [|t2 others]; [now elim (H id url)|].
    reflexivity.
Qed.

Lemma onMessage_single_active_tab_witness :
  onMessage (fun _ => false) (FlagString "view_docx_as_markdown")
            [mkTab (Some 4%Z) None; mkTab (Some 5%Z) None]
            (mkBackground [] [], initial_world None)
  = (Done true, (mkBackground [] [], initial_world None), [])
  /\ exists r,
       onMessage (fun _ => false) (FlagString "view_docx_as_markdown")
                 [mkTab (Some 4%Z) None]
                 (mkBackground [] [], initial_world None)
       = (Done r,
          bg_state_after
            (executeScriptByFlag (fun _ => false)
               (FlagString "view_docx_as_markdown") 4%Z)
            (mkBackground [] [], initial_world None),
          []).
Proof.
  destruct (onMessage_single_active_tab
              (fun _ => false) (FlagString "view_docx_as_markdown")
              [mkTab (Some 4%Z) None; mkTab (Some 5%Z) None]
              (mkBackground [] []) (initial_world None)) as (_ & Hmany).
  split; [apply Hmany; intros id url F; discriminate F|].
  destruct (onMessage_single_active_tab
              (fun _ => false) (FlagString "view_docx_as_markdown")
              [mkTab (Some 4%Z) None]
              (mkBackground [] []) (initial_world None)) as (Hone & _).
  destruct (Hone 4%Z None eq_refl) as (r & _ & E).
  eexists. exact E.
Defined.


End BackgroundFacts2.

(* ------------------------------------------------------------------ *)
(** ** What the invariants give the URL patterns *)

Section PatternFacts.

Lemma append_length_lt c (b s : string) : s <> String c (b ++ s).
Proof.
  intros E. apply (f_equal String.length) in E. simpl in E.
  rewrite length_append in E. lia.
Qed.

Lemma append_cancel_r (a b s : string) :
  (a ++ s)%string = (b ++ s)%string -> a = b.
Proof.
  revert b. induction a as [|c a IH]; intros [|d b] E; simpl in E.
  - reflexivity.
  - now elim (append_length_lt d b s).
  - symmetry in E. now elim (append_length_lt c a s).
  - injection E as -> E. f_equal. now apply IH.
Qed.

Lemma exact_pattern_inj d d' :
  ("https://" ++ d ++ "/*")%string = ("https://" ++ d' ++ "/*")%string ->
  d = d'.
Proof. intros E. simpl in E. injection E as E. now apply append_cancel_r in E. Qed.

Lemma wildcard_pattern_inj d d' :
  ("https://*." ++ d ++ "/*")%string = ("https://*." ++ d' ++ "/*")%string ->
  d = d'.
Proof. intros E. simpl in E. injection E as E. now apply append_cancel_r in E. Qed.

Lemma exact_not_wildcard d d' :
  all_chars isHostChar d = true ->
  ("https://" ++ d ++ "/*")%string <> ("https://*." ++ d' ++ "/*")%string.
Proof.
  intros Hd E. simpl in E. injection E as E.
  destruct d as [|c d]; simpl in E; [discriminate E|].
  injection E as -> _. simpl in Hd. discriminate Hd.
Qed.

Lemma In_patterns p l :
  In p (flat_map domainToUrlPatterns l) ->
  exists d, In d l
            /\ (p = ("https://" ++ d ++ "/*")%string
                \/ p = ("https://*." ++ d ++ "/*")%string).
Proof.
  intros H. apply in_flat_map in H as (d & Hd & Hp).
  exists d. split; [exact Hd|].
  destruct Hp as [<-|[<-|[]]]; [now left | now right].
Qed.

Lemma NoDup_patterns l :
  NoDup l ->
  Forall (fun d => all_chars isHostChar d = true) l ->
  NoDup (flat_map domainToUrlPatterns l).
Proof.
  induction l as [|d l IH]; intros Hn Hc; [constructor|].
  inversion Hn as [|? ? Hd Hn']; subst.
  inversion Hc as [|? ? Hcd Hc']; subst.
  cbn [flat_map domainToUrlPatterns app].
  constructor; [|constructor; [|now apply IH]].
  - intros [F|F].
    + symmetry in F. now apply (exact_not_wildcard d d Hcd) in F.
    + apply In_patterns in F as (d' & Hd' & [F|F]).
      * apply exact_pattern_inj in F. subst. contradiction.
      * now apply (exact_not_wildcard d d' Hcd) in F.
  - intros F. apply In_patterns in F as (d' & Hd' & [F|F]).
    + symmetry in F. apply exact_not_wildcard in F; [exact F|].
      rewrite Forall_forall in Hc'. now apply Hc'.
    + apply wildcard_pattern_inj in F. subst. contradiction.
Qed.

Lemma entry_ok_host_chars d : entry_ok d -> all_chars isHostChar d = true.
Proof.
  intros [Hn Hv]. apply validateDomain_iff in Hv as (_ & _ & _ & Hm).
  rewrite <- Hn at 1. rewrite <- (trim_normalizeDomain d), Hn.
  apply (Matches_all_chars _ _ _ domainRegex_host_chars Hm).
Qed.

(** X14. For a custom-domain list that satisfies the invariants of the data
    model, the URL patterns handed to the menus and to the permission
    requests are pairwise distinct: no pattern of a custom domain
    repeats a built-in pattern or a pattern of another custom domain. *)
Theorem getAllUrlPatterns_distinct :
  forall customs,
    config_ok customs ->
    NoDup (getAllUrlPatterns (Some customs)).
Proof.
  intros customs (He & Hb & Hn).
  unfold getAllUrlPatterns. rewrite <- flat_map_app.
  apply NoDup_patterns.
  - apply NoDup_app; [|exact Hn|].
    + unfold DEFAULT_DOMAINS. repeat constructor; simpl; intros F;
        repeat (destruct F as [F|F]; [discriminate F|]); exact F.
    + intros b Hbin Hc. rewrite Forall_forall in Hb.
      now apply (Hb b Hc b Hbin).
  - apply Forall_app. split.
    + unfold DEFAULT_DOMAINS. repeat constructor.
    + apply Forall_forall. intros d Hd. rewrite Forall_forall in He.
      apply entry_ok_host_chars. now apply He.
Qed.

Lemma getAllUrlPatterns_distinct_witness :
  config_ok ["a.example.com"; "docs.feishu.cn"]
  /\ NoDup (getAllUrlPatterns (Some ["a.example.com"; "docs.feishu.cn"])).
Proof.
  assert (H : config_ok ["a.example.com"; "docs.feishu.cn"]).
  { repeat split.
    - repeat constructor; vm_compute; reflexivity.
    - repeat constructor; intros b Hb; simpl in Hb;
        destruct Hb as [<-|[<-|[<-|[<-|[<-|[<-|[]]]]]]]; vm_compute;
          discriminate.
    - repeat constructor; simpl; intros F;
        repeat (destruct F as [F|F]; [discriminate F|]); exact F. }
  split; [exact H | exact (getAllUrlPatterns_distinct _ H)].
Defined.

End PatternFacts.

(* ------------------------------------------------------------------ *)
(** ** Reads and writes of the storage *)

Section StorageFacts.

(** X12. An add writes to the storage only after the browser has granted the
    permission: when a write is among its calls, the answer to the
    request was a grant, the calls were the read, the request for the
    two patterns of the domain and the write, in that order, and both
    origins are among the granted origins afterwards, even when the
    write itself is then rejected. *)
Theorem add_writes_after_grant :
  forall e w raw,
    existsb is_write (events_of (addCustomDomain e raw) w) = true ->
    let n := normalizeDomain raw in
    permission_answer e = Granted
    /\ incl (domainToUrlPatterns n)
            (granted_origins (world_after (addCustomDomain e raw) w))
    /\ exists value,
         events_of (addCustomDomain e raw) w =
           [ StorageGet STORAGE_KEY;
             PermissionsRequest (domainToUrlPatterns n);
             StorageSet STORAGE_KEY value ].
Proof.
  intros e w raw. cbv zeta. unfold events_of, world_after.
  destruct (validateDomain (normalizeDomain raw)) eqn:Hv.
  2:{ unfold addCustomDomain. rewrite Hv. discriminate. }
  destruct (JS.array_includes DEFAULT_DOMAINS (normalizeDomain raw)) eqn:Hb.
  { unfold addCustomDomain. rewrite Hv, Hb. discriminate. }
  destruct (loadDomainConfig_total e w) as [config Hl].
  rewrite (addCustomDomain_run e w raw config Hv Hb Hl). cbv zeta.
  match goal with
  | |- context [JS.array_includes ?c ?x] =>
      destruct (JS.array_includes c x)
  end; [discriminate|].
  destruct (permission_answer e); try discriminate.
  destruct (storage_set_fails e); cbn [fst snd granted_origins]; intros _;
    (split; [reflexivity|]; split; [apply incl_appr, incl_refl|];
     eexists; reflexivity).
Qed.

Lemma add_writes_after_grant_witness :
  existsb is_write
    (events_of (addCustomDomain (mkEnv false true Granted) "example.com")
               (initial_world None)) = true
  /\ permission_answer (mkEnv false true Granted) = Granted
  /\ incl (domainToUrlPatterns (normalizeDomain "example.com"))
          (granted_origins
             (world_after
                (addCustomDomain (mkEnv false true Granted) "example.com")
                (initial_world None))).
Proof.
  assert (H : existsb is_write
                (events_of
                   (addCustomDomain (mkEnv false true Granted) "example.com")
                   (initial_world None)) = true)
    by (vm_compute; reflexivity).
  split; [exact H|].
  destruct (add_writes_after_grant _ _ _ H) as (Hp & Hi & _).
  split; [exact Hp | exact Hi].
Defined.

(** X13. loadDomainConfig never throws, never changes the world and calls the
    storage once, for a read, whatever the storage holds and whether or
    not the read succeeds.  For a stored list that is read it shows the
    entries that pass validateDomain, in their stored order, and nothing
    else.  In a module whose default object holds no entry it shows the
    empty list when the key is absent, when the read fails and when the
    stored value cannot be decoded. *)
Theorem loadDomainConfig_contract :
  forall e w,
    (exists config,
       loadDomainConfig e w = (Ok config, w, [StorageGet STORAGE_KEY]))
    /\ (forall l,
          storage_get_fails e = false ->
          sync_storage w = Some (serialize l) ->
          loaded_view e w = Ok (filter validateDomain l)
          /\ (forall d, In d (filter validateDomain l)
                        <-> In d l /\ validateDomain d = true))
    /\ (DEFAULT_DOMAIN_CONFIG w = [] ->
        (sync_storage w = None -> loaded_view e w = Ok [])
        /\ (storage_get_fails e = true -> loaded_view e w = Ok [])
        /\ (forall v,
              sync_storage w = Some v ->
              JS.truthy (Some v) = false
              \/ JS.filter_strings validateDomain (JS.prop v "customDomains")
                 = Throw TypeError ->
              loaded_view e w = Ok [])).
Proof.
  intros e w. split; [apply loadDomainConfig_total|]. split.
  - intros l Eg Es. split.
    + now rewrite (loaded_view_run e w _
                     (loadDomainConfig_serialized e w l Eg Es)).
    + intros d. apply filter_In.
  - intros Hd. split; [|split].
    + intros Es.
      rewrite (loaded_view_run e w _ (loadDomainConfig_absent e w Es)).
      now rewrite Hd.
    + intros Eg.
      rewrite (loaded_view_run e w _ (loadDomainConfig_read_fails e w Eg)).
      now rewrite Hd.
    + intros v Es Hv.
      rewrite (loaded_view_run e w _
                 (loadDomainConfig_undecodable e w v Es Hv)).
      now rewrite Hd.
Qed.

Lemma loadDomainConfig_contract_witness :
  DEFAULT_DOMAIN_CONFIG
    (initial_world (Some (serialize ["a.example.com"; "localhost"]))) = []
  /\ loaded_view (all_ok Denied)
       (initial_world (Some (serialize ["a.example.com"; "localhost"])))
     = Ok (filter validateDomain ["a.example.com"; "localhost"])
  /\ loaded_view (mkEnv true false Denied)
       (initial_world (Some (serialize ["a.example.com"; "localhost"])))
     = Ok []
  /\ loaded_view (all_ok Denied) (initial_world (Some (JNum 7))) = Ok [].
Proof.
  destruct (loadDomainConfig_contract
              (all_ok Denied)
              (initial_world (Some (serialize ["a.example.com"; "localhost"]))))
    as (_ & Hlist & _).
  destruct (loadDomainConfig_contract
              (mkEnv true false Denied)
              (initial_world (Some (serialize ["a.example.com"; "localhost"]))))
    as (_ & _ & Hfail).
  destruct (loadDomainConfig_contract
              (all_ok Denied) (initial_world (Some (JNum 7))))
    as (_ & _ & Hbad).
  split; [reflexivity|].
  split; [exact (proj1 (Hlist _ eq_refl eq_refl))|].
  split; [exact (proj1 (proj2 (Hfail eq_refl)) eq_refl)|].
  apply (proj2 (proj2 (Hbad eq_refl)) (JNum 7) eq_refl). right. reflexivity.
Defined.

End StorageFacts.
